(** * pyFAI: look-up-table builders with bounding-box pixel splitting

    A shallow embedding of [pyFAI/ext/splitBBoxLUT.pyx] (the classes
    [HistoBBox1d] and [HistoBBox2d]) and of the OpenCL min/max reduction
    kernels [reduce1] / [reduce2].

    Conventions of the embedding:
    - [position_t] and [acc_t] (C doubles) are the rationals [Q]: the
      arithmetic of the builders is exact, rounding, infinities and NaN are
      not represented there (a division by zero gives 0);
    - C [int] values are [Z], without wrap-around: conversions and products
      are assumed to stay in range;
    - a contiguous array is a [list], read with [nth] (the module is compiled
      with [boundscheck=False], so the code never raises on a read);
    - the sparse builder is the list of the triples inserted so far, in
      insertion order. *)

From Stdlib Require Import String ZArith QArith Qround Qminmax List Bool Lia Lqa.
Import ListNotations.

Local Open Scope Z_scope.
Local Open Scope Q_scope.

(** ** Numeric helpers *)

Definition position_t := Q.
Definition acc_t := Q.

Definition Qltb (x y : Q) : bool := negb (Qle_bool y x).
Definition Qgtb (x y : Q) : bool := Qltb y x.

(** The C cast [<int> x] of a double: truncation toward zero. *)
Definition Qtrunc (x : Q) : Z := Z.quot (Qnum x) (Zpos (Qden x)).

(** [range(lo, hi)] over C ints. *)
Definition zrange (lo hi : Z) : list Z :=
  map (fun k => (lo + Z.of_nat k)%Z) (seq 0 (Z.to_nat (hi - lo))).

(** [for i in range(lo, hi)] threading a state through the body. *)
Definition for_range {S : Type} (lo hi : Z) (body : Z -> S -> S) (s : S) : S :=
  fold_left (fun acc i => body i acc) (zrange lo hi) s.

(** [for idx in range(size)] threading a state through the body. *)
Definition pixel_loop {S : Type} (size : nat) (body : nat -> S -> S) (s : S) : S :=
  fold_left (fun acc idx => body idx acc) (seq 0 size) s.

(** Modelled from the spec: [get_bin_number], an inline helper that
    [splitBBoxLUT.pyx] includes from [regrid_common.pxi]; the continuous bin
    position of [x0] is [(x0 - pos0_min) / delta]. *)
Definition get_bin_number (x0 pos0_min delta : position_t) : position_t :=
  (x0 - pos0_min) / delta.

(** Modelled from the spec: the constant [onef] of [regrid_common.pxi], the
    weight 1.0 that the no-split loop gives to a pixel. *)
Definition onef : Q := 1.

(** Array helpers: [a[idx] = v], [numpy.empty_like] (the content of the new
    array is unspecified, zeros here) and element-wise operations. *)
Fixpoint store {A : Type} (idx : nat) (v : A) (l : list A) : list A :=
  match l, idx with
  | [], _ => []
  | _ :: tl, O => v :: tl
  | x :: tl, S n => x :: store n v tl
  end.

Definition empty_like (l : list Q) : list Q := repeat 0 (length l).

Fixpoint map2 {A B C : Type} (f : A -> B -> C) (l1 : list A) (l2 : list B) : list C :=
  match l1, l2 with
  | x :: t1, y :: t2 => f x y :: map2 f t1 t2
  | _, _ => []
  end.

(** Exceptions and results of the constructors. *)
Inductive exn : Type :=
| AssertionError (msg : string)
| AttributeError
| ValueError
| ZeroDivisionError.

Inductive result (A : Type) : Type :=
| Ok (a : A)
| Raise (e : exn).
Arguments Ok {A} a.
Arguments Raise {A} e.

(** [numpy.linspace(start, stop, num)] with its default [endpoint=True]. *)
Definition linspace (start stop : Q) (num : Z) : result (list Q) :=
  if (num <? 0)%Z then Raise ValueError
  else
    let step := (stop - start) / inject_Z (num - 1) in
    Ok (map (fun i => start + inject_Z (Z.of_nat i) * step) (seq 0 (Z.to_nat num))).

(** ** Sparse builder *)

Record lut_entry : Type := mk_entry {
  e_bin : Z;
  e_idx : nat;
  e_coef : Q
}.

(** Modelled from the spec: [SparseBuilder], the class imported from the
    module [sparse_builder]; [cinsert(bin, idx, weight)] appends one entry,
    entries are never updated. *)
Definition SparseBuilder := list lut_entry.

Definition new_builder : SparseBuilder := [].

Definition cinsert (b : SparseBuilder) (bin : Z) (idx : nat) (w : Q) : SparseBuilder :=
  b ++ [mk_entry bin idx w].

(** The entries a builder holds for pixel [idx], and the sum of weights. *)
Definition entries_of (idx : nat) (b : SparseBuilder) : list lut_entry :=
  filter (fun e => Nat.eqb (e_idx e) idx) b.

Definition weight_sum (l : list lut_entry) : Q :=
  fold_right (fun e acc => e_coef e + acc) 0 l.

Definition masked (check_mask : bool) (cmask : list Z) (idx : nat) : bool :=
  check_mask && negb (Z.eqb (nth idx cmask 0%Z) 0).

(** The mask check shared by both constructors (lines 120-130, 453-463). *)
Definition init_mask (size : nat) (mask : option (list Z)) : result (bool * list Z) :=
  match mask with
  | Some m =>
      if Nat.eqb (length m) size then Ok (true, m)
      else Raise (AssertionError "mask size")
  | None => Ok (false, [])
  end.

(** ** One-dimensional builder *)

Module HistoBBox1d.

(** The attributes of [self] that [calc_lut] and [calc_lut_nosplit] read. *)
Record self_t : Type := mk_self {
  size : nat;
  bins : Z;
  check_mask : bool;
  cmask : list Z;
  check_pos1 : bool;
  cpos1_min : list Q;
  cpos1_max : list Q;
  pos1_min : Q;
  pos1_max : Q;
  cpos0 : list Q;
  cpos0_inf : list Q;
  cpos0_sup : list Q;
  pos0_min : Q;
  delta : Q
}.

(** The secondary filter of both LUT loops:
    [check_pos1 and (cpos1_max[idx] < pos1_min or cpos1_min[idx] > pos1_max)]. *)
Definition pos1_rejected (self : self_t) (idx : nat) : bool :=
  check_pos1 self &&
  (Qltb (nth idx (cpos1_max self) 0) (pos1_min self)
   || Qgtb (nth idx (cpos1_min self) 0) (pos1_max self)).

(** The splitting branch of [calc_lut], for clamped bins [bin0_min <> bin0_max]. *)
Definition split_insert (b : SparseBuilder) (idx : nat)
    (fbin0_min fbin0_max : Q) (bin0_min bin0_max : Z) : SparseBuilder :=
  let inv_area := 1 / (fbin0_max - fbin0_min) in
  let delta_left := inject_Z (bin0_min + 1) - fbin0_min in
  let delta_right := fbin0_max - inject_Z bin0_max in
  let b := cinsert b bin0_min idx (inv_area * delta_left) in
  let b := cinsert b bin0_max idx (inv_area * delta_right) in
  if (bin0_min + 1 <? bin0_max)%Z
  then for_range (bin0_min + 1) bin0_max (fun i acc => cinsert acc i idx inv_area) b
  else b.

(** Body of the loop of [calc_lut] for one pixel, from the fractional bins on. *)
Definition lut_bins (bins : Z) (b : SparseBuilder) (idx : nat)
    (fbin0_min fbin0_max : Q) : SparseBuilder :=
  let bin0_min := Qtrunc fbin0_min in
  let bin0_max := Qtrunc fbin0_max in
  if (bin0_max <? 0)%Z || (bin0_min >=? bins)%Z then b
  else
    let bin0_max := if (bin0_max >=? bins)%Z then (bins - 1)%Z else bin0_max in
    let bin0_min := if (bin0_min <? 0)%Z then 0%Z else bin0_min in
    if (bin0_min =? bin0_max)%Z
    then cinsert b bin0_min idx 1
    else split_insert b idx fbin0_min fbin0_max bin0_min bin0_max.

Definition calc_lut_body (self : self_t) (idx : nat) (b : SparseBuilder) : SparseBuilder :=
  if masked (check_mask self) (cmask self) idx then b
  else
    let min0 := nth idx (cpos0_inf self) 0 in
    let max0 := nth idx (cpos0_sup self) 0 in
    if pos1_rejected self idx then b
    else
      let fbin0_min := get_bin_number min0 (pos0_min self) (delta self) in
      let fbin0_max := get_bin_number max0 (pos0_min self) (delta self) in
      lut_bins (bins self) b idx fbin0_min fbin0_max.

Definition calc_lut (self : self_t) : SparseBuilder :=
  pixel_loop (size self) (calc_lut_body self) new_builder.

Definition calc_lut_nosplit_body (self : self_t) (idx : nat) (b : SparseBuilder)
    : SparseBuilder :=
  if masked (check_mask self) (cmask self) idx then b
  else
    let pos0 := nth idx (cpos0 self) 0 in
    if pos1_rejected self idx then b
    else
      let fbin0 := get_bin_number pos0 (pos0_min self) (delta self) in
      let bin0 := Qtrunc fbin0 in
      if (bin0 <? 0)%Z || (bin0 >=? bins self)%Z then b
      else cinsert b bin0 idx onef.

Definition calc_lut_nosplit (self : self_t) : SparseBuilder :=
  pixel_loop (size self) (calc_lut_nosplit_body self) new_builder.

(** *** Boundaries and construction *)

Section Construction.

(** [calc_upper_bound] is an inline helper included from
    [regrid_common.pxi]; its definition is left open, as a parameter of the
    construction. *)
Variable calc_upper_bound : position_t -> position_t.

Record init_args : Type := mk_args {
  a_pos0 : list Q;
  a_delta_pos0 : option (list Q);   (* [None]: an object without [size] *)
  a_pos1 : option (list Q);
  a_delta_pos1 : option (list Q);
  a_bins : Z;
  a_pos0_range : option (Q * Q);
  a_pos1_range : option (Q * Q);
  a_mask : option (list Z);
  a_allow_pos0_neg : bool
}.

(** What [calc_boundaries] and [calc_boundaries_nosplit] leave in [self]. *)
Record bounds_t : Type := mk_bounds {
  b_cpos0_sup : list Q;
  b_cpos0_inf : list Q;
  b_pos0_min : Q;
  b_pos0_maxin : Q;
  b_pos0_max : Q
}.

(** State of the scan of [calc_boundaries]:
    [(cpos0_sup, cpos0_inf, pos0_max, pos0_min)]. *)
Definition scan_t : Type := (list Q * list Q * Q * Q)%type.

Definition calc_boundaries_body (allow_pos0_neg check_mask : bool) (cmask : list Z)
    (cpos0 dpos0 : list Q) (idx : nat) (st : scan_t) : scan_t :=
  let '(cpos0_sup, cpos0_inf, pos0_max, pos0_min) := st in
  let c := nth idx cpos0 0 in
  let d := nth idx dpos0 0 in
  let lower := c - d in
  let upper := c + d in
  let cpos0_sup := store idx upper cpos0_sup in
  let cpos0_inf := store idx lower cpos0_inf in
  let lower := if negb allow_pos0_neg && Qltb lower 0 then 0 else lower in
  if negb (masked check_mask cmask idx)
  then
    let pos0_max := if Qgtb upper pos0_max then upper else pos0_max in
    let pos0_min := if Qltb lower pos0_min then lower else pos0_min in
    (cpos0_sup, cpos0_inf, pos0_max, pos0_min)
  else (cpos0_sup, cpos0_inf, pos0_max, pos0_min).

Definition finish_bounds (allow_pos0_neg : bool) (pos0_range : option (Q * Q))
    (cpos0_sup cpos0_inf : list Q) (pos0_min pos0_max : Q) : bounds_t :=
  let '(self_pos0_min, self_pos0_maxin) :=
    match pos0_range with
    | Some r => r
    | None => (pos0_min, pos0_max)
    end in
  let self_pos0_min :=
    if negb allow_pos0_neg && Qltb self_pos0_min 0 then 0 else self_pos0_min in
  mk_bounds cpos0_sup cpos0_inf self_pos0_min self_pos0_maxin
            (calc_upper_bound self_pos0_maxin).

Definition calc_boundaries (allow_pos0_neg check_mask : bool) (cmask : list Z)
    (cpos0 dpos0 : list Q) (pos0_range : option (Q * Q)) : bounds_t :=
  let size := length cpos0 in
  let first := nth 0 cpos0 0 in
  let seed := if negb allow_pos0_neg && Qltb first 0 then 0 else first in
  let '(cpos0_sup, cpos0_inf, pos0_max, pos0_min) :=
    pixel_loop size (calc_boundaries_body allow_pos0_neg check_mask cmask cpos0 dpos0)
               (empty_like cpos0, empty_like cpos0, seed, seed) in
  finish_bounds allow_pos0_neg pos0_range cpos0_sup cpos0_inf pos0_min pos0_max.

Definition calc_boundaries_nosplit_body (allow_pos0_neg check_mask : bool)
    (cmask : list Z) (cpos0 : list Q) (idx : nat) (st : Q * Q) : Q * Q :=
  let '(pos0_max, pos0_min) := st in
  let c := nth idx cpos0 0 in
  let c := if negb allow_pos0_neg && Qltb c 0 then 0 else c in
  if negb (masked check_mask cmask idx)
  then
    let pos0_max := if Qgtb c pos0_max then c else pos0_max in
    let pos0_min := if Qltb c pos0_min then c else pos0_min in
    (pos0_max, pos0_min)
  else (pos0_max, pos0_min).

Definition calc_boundaries_nosplit (allow_pos0_neg check_mask : bool) (cmask : list Z)
    (cpos0 : list Q) (pos0_range : option (Q * Q)) : bounds_t :=
  match pos0_range with
  | Some _ => finish_bounds allow_pos0_neg pos0_range [] [] 0 0
  | None =>
      let first := nth 0 cpos0 0 in
      let seed := if negb allow_pos0_neg && Qltb first 0 then 0 else first in
      let '(pos0_max, pos0_min) :=
        pixel_loop (length cpos0)
                   (calc_boundaries_nosplit_body allow_pos0_neg check_mask cmask cpos0)
                   (seed, seed) in
      finish_bounds allow_pos0_neg None [] [] pos0_min pos0_max
  end.

(** The object left by [__init__]; checksums, [unit] and [empty] take no part
    in the computation and are left out. *)
Record t : Type := mk_t {
  self : self_t;
  allow_pos0_neg : bool;
  pos0_range : option (Q * Q);
  pos1_range : option (Q * Q);
  pos0_maxin : Q;
  pos0_max : Q;
  splitting : bool;                (* [delta_pos0 is not None] after line 115 *)
  lut : SparseBuilder;
  bin_centers : list Q
}.

(** Lines 112-115: the half-extent array is kept only when it has a [size]
    equal to the one of [pos0]; otherwise a warning is logged. *)
Definition check_delta_pos0 (size : nat) (delta_pos0 : option (list Q))
    : list string * option (list Q) :=
  match delta_pos0 with
  | Some d =>
      if Nat.eqb (length d) size then ([], Some d)
      else (["Pixel splitting desactivated !"%string], None)
  | None => (["Pixel splitting desactivated !"%string], None)
  end.

(** Lines 142-153: [(check_pos1, cpos1_min, cpos1_max, pos1_min, pos1_max)]. *)
Definition init_pos1 (size : nat) (pos1 delta_pos1 : option (list Q))
    (pos1_range : option (Q * Q)) : result (bool * list Q * list Q * Q * Q) :=
  match pos1_range with
  | Some (r_min, pos1_maxin) =>
      match pos1 with
      | None => Raise AttributeError
      | Some p1 =>
          if negb (Nat.eqb (length p1) size) then Raise (AssertionError "pos1 size")
          else
            match delta_pos1 with
            | None => Raise AttributeError
            | Some d1 =>
                if negb (Nat.eqb (length d1) size)
                then Raise (AssertionError "delta_pos1.size == self.size")
                else Ok (true, map2 Qminus p1 d1, map2 Qplus p1 d1,
                         r_min, calc_upper_bound pos1_maxin)
            end
      end
  | None => Ok (false, [], [], 0, 0)
  end.

(** Lines 112-158 of [__init__]: everything up to the choice of the LUT path.
    Returns the log, and the attributes or the exception raised.  Line 155
    divides two attributes of a Python object, Python floats, by
    [<position_t> bins]: the directive [cdivision] does not apply and a bin
    count of zero raises [ZeroDivisionError]. *)
Definition init_attrs (a : init_args)
    : list string * result (self_t * bounds_t * option (list Q)) :=
  let size := length (a_pos0 a) in
  let '(log, delta_pos0) := check_delta_pos0 size (a_delta_pos0 a) in
  let bins := a_bins a in
  (log,
   match init_mask size (a_mask a) with
   | Raise e => Raise e
   | Ok (check_mask, cmask) =>
       let cpos0 := a_pos0 a in
       let bnd :=
         match delta_pos0 with
         | None => calc_boundaries_nosplit (a_allow_pos0_neg a) check_mask cmask
                                           cpos0 (a_pos0_range a)
         | Some dpos0 => calc_boundaries (a_allow_pos0_neg a) check_mask cmask
                                         cpos0 dpos0 (a_pos0_range a)
         end in
       match init_pos1 size (a_pos1 a) (a_delta_pos1 a) (a_pos1_range a) with
       | Raise e => Raise e
       | Ok (check_pos1, cpos1_min, cpos1_max, pos1_min, pos1_max) =>
           if (bins =? 0)%Z then Raise ZeroDivisionError
           else
             let delta := (b_pos0_max bnd - b_pos0_min bnd) / inject_Z bins in
             Ok (mk_self size bins check_mask cmask check_pos1 cpos1_min cpos1_max
                         pos1_min pos1_max cpos0 (b_cpos0_inf bnd) (b_cpos0_sup bnd)
                         (b_pos0_min bnd) delta,
                 bnd, delta_pos0)
       end
   end).

(** [HistoBBox1d.__init__]. *)
Definition init (a : init_args) : list string * result t :=
  let '(log, r) := init_attrs a in
  (log,
   match r with
   | Raise e => Raise e
   | Ok (s, bnd, delta_pos0) =>
       let splitting := match delta_pos0 with Some _ => true | None => false end in
       let lut := if splitting then calc_lut s else calc_lut_nosplit s in
       match linspace (pos0_min s + (1 # 2) * delta s)
                      (b_pos0_max bnd - (1 # 2) * delta s) (bins s) with
       | Raise e => Raise e
       | Ok centers =>
           Ok (mk_t s (a_allow_pos0_neg a) (a_pos0_range a) (a_pos1_range a)
                    (b_pos0_maxin bnd) (b_pos0_max bnd) splitting lut centers)
       end
   end).

End Construction.

End HistoBBox1d.

(** ** Two-dimensional builder *)

Module HistoBBox2d.

(** The attributes of [self] that [calc_lut] reads. *)
Record self_t : Type := mk_self {
  size : nat;
  bins0 : Z;
  bins1 : Z;
  check_mask : bool;
  cmask : list Z;
  cpos0_inf : list Q;
  cpos0_sup : list Q;
  cpos1_inf : list Q;
  cpos1_sup : list Q;
  pos0_min : Q;
  pos1_min : Q;
  delta0 : Q;
  delta1 : Q
}.

(** Lines 637-693: the four structural cases, for clamped bins. *)
Definition spread (bins1 : Z) (b : SparseBuilder) (idx : nat)
    (fbin0_min fbin0_max fbin1_min fbin1_max : Q)
    (bin0_min bin0_max bin1_min bin1_max : Z) : SparseBuilder :=
  if (bin0_min =? bin0_max)%Z then
    if (bin1_min =? bin1_max)%Z then
      cinsert b (bin0_min * bins1 + bin1_min) idx 1
    else
      let delta_down := inject_Z (bin1_min + 1) - fbin1_min in
      let delta_up := fbin1_max - inject_Z bin1_max in
      let inv_area := 1 / (fbin1_max - fbin1_min) in
      let b := cinsert b (bin0_min * bins1 + bin1_min) idx (inv_area * delta_down) in
      let b := cinsert b (bin0_min * bins1 + bin1_max) idx (inv_area * delta_up) in
      for_range (bin1_min + 1) bin1_max
        (fun j acc => cinsert acc (bin0_min * bins1 + j) idx inv_area) b
  else
    if (bin1_min =? bin1_max)%Z then
      let inv_area := 1 / (fbin0_max - fbin0_min) in
      let delta_left := inject_Z (bin0_min + 1) - fbin0_min in
      let b := cinsert b (bin0_min * bins1 + bin1_min) idx (inv_area * delta_left) in
      let delta_right := fbin0_max - inject_Z bin0_max in
      let b := cinsert b (bin0_max * bins1 + bin1_min) idx (inv_area * delta_right) in
      for_range (bin0_min + 1) bin0_max
        (fun i acc => cinsert acc (i * bins1 + bin1_min) idx inv_area) b
    else
      let delta_left := inject_Z (bin0_min + 1) - fbin0_min in
      let delta_right := fbin0_max - inject_Z bin0_max in
      let delta_down := inject_Z (bin1_min + 1) - fbin1_min in
      let delta_up := fbin1_max - inject_Z bin1_max in
      let inv_area := 1 / ((fbin0_max - fbin0_min) * (fbin1_max - fbin1_min)) in
      let b := cinsert b (bin0_min * bins1 + bin1_min) idx (inv_area * delta_left * delta_down) in
      let b := cinsert b (bin0_min * bins1 + bin1_max) idx (inv_area * delta_left * delta_up) in
      let b := cinsert b (bin0_max * bins1 + bin1_min) idx (inv_area * delta_right * delta_down) in
      let b := cinsert b (bin0_max * bins1 + bin1_max) idx (inv_area * delta_right * delta_up) in
      let b :=
        for_range (bin0_min + 1) bin0_max
          (fun i acc =>
             let acc := cinsert acc (i * bins1 + bin1_min) idx (inv_area * delta_down) in
             let acc :=
               for_range (bin1_min + 1) bin1_max
                 (fun j acc' => cinsert acc' (i * bins1 + j) idx inv_area) acc in
             cinsert acc (i * bins1 + bin1_max) idx (inv_area * delta_up)) b in
      for_range (bin1_min + 1) bin1_max
        (fun j acc =>
           let acc := cinsert acc (bin0_min * bins1 + j) idx (inv_area * delta_left) in
           cinsert acc (bin0_max * bins1 + j) idx (inv_area * delta_right)) b.

(** Lines 620-693: bins of one pixel, from the fractional bins on. *)
Definition lut_bins (bins0 bins1 : Z) (b : SparseBuilder) (idx : nat)
    (fbin0_min fbin0_max fbin1_min fbin1_max : Q) : SparseBuilder :=
  let bin0_min := Qtrunc fbin0_min in
  let bin0_max := Qtrunc fbin0_max in
  let bin1_min := Qtrunc fbin1_min in
  let bin1_max := Qtrunc fbin1_max in
  if (bin0_max <? 0)%Z || (bin0_min >=? bins0)%Z
     || (bin1_max <? 0)%Z || (bin1_min >=? bins1)%Z then b
  else
    let bin0_max := if (bin0_max >=? bins0)%Z then (bins0 - 1)%Z else bin0_max in
    let bin0_min := if (bin0_min <? 0)%Z then 0%Z else bin0_min in
    let bin1_max := if (bin1_max >=? bins1)%Z then (bins1 - 1)%Z else bin1_max in
    let bin1_min := if (bin1_min <? 0)%Z then 0%Z else bin1_min in
    spread bins1 b idx fbin0_min fbin0_max fbin1_min fbin1_max
           bin0_min bin0_max bin1_min bin1_max.

Definition calc_lut_body (self : self_t) (idx : nat) (b : SparseBuilder) : SparseBuilder :=
  if masked (check_mask self) (cmask self) idx then b
  else
    let min0 := nth idx (cpos0_inf self) 0 in
    let max0 := nth idx (cpos0_sup self) 0 in
    let min1 := nth idx (cpos1_inf self) 0 in
    let max1 := nth idx (cpos1_sup self) 0 in
    let fbin0_min := get_bin_number min0 (pos0_min self) (delta0 self) in
    let fbin0_max := get_bin_number max0 (pos0_min self) (delta0 self) in
    let fbin1_min := get_bin_number min1 (pos1_min self) (delta1 self) in
    let fbin1_max := get_bin_number max1 (pos1_min self) (delta1 self) in
    lut_bins (bins0 self) (bins1 self) b idx fbin0_min fbin0_max fbin1_min fbin1_max.

Definition calc_lut (self : self_t) : SparseBuilder :=
  pixel_loop (size self) (calc_lut_body self) new_builder.

(** *** Boundaries and construction *)

Section Construction.

(** [calc_upper_bound] and the constant [pi] are included from
    [regrid_common.pxi]; both are left open, as parameters. *)
Variable calc_upper_bound : position_t -> position_t.
Variable pi : position_t.

Inductive bins_arg : Type :=
| BinsPair (b0 b1 : Z)
| BinsScalar (b : Z).

Record init_args : Type := mk_args {
  a_pos0 : list Q;
  a_delta_pos0 : option (list Q);   (* [None]: Python's [None] *)
  a_pos1 : list Q;
  a_delta_pos1 : list Q;
  a_bins : bins_arg;
  a_pos0_range : option (Q * Q);
  a_pos1_range : option (Q * Q);
  a_mask : option (list Z);
  a_allow_pos0_neg : bool;
  a_chiDiscAtPi : bool
}.

Record bounds_t : Type := mk_bounds {
  b_cpos0_sup : list Q;
  b_cpos0_inf : list Q;
  b_cpos1_sup : list Q;
  b_cpos1_inf : list Q;
  b_pos0_min : Q;
  b_pos0_maxin : Q;
  b_pos0_max : Q;
  b_pos1_min : Q;
  b_pos1_maxin : Q;
  b_pos1_max : Q
}.

(** State of the scan of [calc_boundaries]: the four arrays, then
    [(pos0_max, pos0_min, pos1_max, pos1_min)]. *)
Record scan_t : Type := mk_scan {
  s_cpos0_sup : list Q;
  s_cpos0_inf : list Q;
  s_cpos1_sup : list Q;
  s_cpos1_inf : list Q;
  s_pos0_max : Q;
  s_pos0_min : Q;
  s_pos1_max : Q;
  s_pos1_min : Q
}.

Definition calc_boundaries_body (allow_pos0_neg chiDiscAtPi check_mask : bool)
    (cmask : list Z) (cpos0 dpos0 cpos1 dpos1 : list Q) (idx : nat) (st : scan_t)
    : scan_t :=
  let chi := if chiDiscAtPi then 1 else 0 in
  let c0 := nth idx cpos0 0 in
  let d0 := nth idx dpos0 0 in
  let lower0 := c0 - d0 in
  let upper0 := c0 + d0 in
  let c1 := nth idx cpos1 0 in
  let d1 := nth idx dpos1 0 in
  let lower1 := c1 - d1 in
  let upper1 := c1 + d1 in
  let lower0 := if negb allow_pos0_neg && Qltb lower0 0 then 0 else lower0 in
  let upper1 := if Qgtb upper1 ((2 - chi) * pi) then (2 - chi) * pi else upper1 in
  let lower1 := if Qltb lower1 ((- chi) * pi) then (- chi) * pi else lower1 in
  let cpos0_sup := store idx upper0 (s_cpos0_sup st) in
  let cpos0_inf := store idx lower0 (s_cpos0_inf st) in
  let cpos1_sup := store idx upper1 (s_cpos1_sup st) in
  let cpos1_inf := store idx lower1 (s_cpos1_inf st) in
  if negb (masked check_mask cmask idx)
  then
    let pos0_max := if Qgtb upper0 (s_pos0_max st) then upper0 else s_pos0_max st in
    let pos0_min := if Qltb lower0 (s_pos0_min st) then lower0 else s_pos0_min st in
    let pos1_max := if Qgtb upper1 (s_pos1_max st) then upper1 else s_pos1_max st in
    let pos1_min := if Qltb lower1 (s_pos1_min st) then lower1 else s_pos1_min st in
    mk_scan cpos0_sup cpos0_inf cpos1_sup cpos1_inf pos0_max pos0_min pos1_max pos1_min
  else
    mk_scan cpos0_sup cpos0_inf cpos1_sup cpos1_inf
            (s_pos0_max st) (s_pos0_min st) (s_pos1_max st) (s_pos1_min st).

Definition calc_boundaries (allow_pos0_neg chiDiscAtPi check_mask : bool)
    (cmask : list Z) (cpos0 dpos0 cpos1 dpos1 : list Q)
    (pos0_range pos1_range : option (Q * Q)) : bounds_t :=
  let size := length cpos0 in
  let st :=
    pixel_loop size
      (calc_boundaries_body allow_pos0_neg chiDiscAtPi check_mask cmask
                            cpos0 dpos0 cpos1 dpos1)
      (mk_scan (empty_like cpos0) (empty_like cpos0)
               (empty_like cpos1) (empty_like cpos1)
               (nth 0 cpos0 0) (nth 0 cpos0 0) (nth 0 cpos1 0) (nth 0 cpos1 0)) in
  let '(self_pos0_min, self_pos0_maxin) :=
    match pos0_range with
    | Some r => r
    | None => (s_pos0_min st, s_pos0_max st)
    end in
  let '(self_pos1_min, self_pos1_maxin) :=
    match pos1_range with
    | Some r => r
    | None => (s_pos1_min st, s_pos1_max st)
    end in
  let self_pos0_min :=
    if negb allow_pos0_neg && Qltb self_pos0_min 0 then 0 else self_pos0_min in
  mk_bounds (s_cpos0_sup st) (s_cpos0_inf st) (s_cpos1_sup st) (s_cpos1_inf st)
            self_pos0_min self_pos0_maxin (calc_upper_bound self_pos0_maxin)
            self_pos1_min self_pos1_maxin (calc_upper_bound self_pos1_maxin).

(** Lines 443-451. *)
Definition init_bins (bins : bins_arg) : Z * Z :=
  let '(bins0, bins1) :=
    match bins with
    | BinsPair b0 b1 => (b0, b1)
    | BinsScalar b => (b, b)
    end in
  let bins0 := if (bins0 <=? 0)%Z then 1%Z else bins0 in
  let bins1 := if (bins1 <=? 0)%Z then 1%Z else bins1 in
  (bins0, bins1).

(** The object left by [__init__]. *)
Record t : Type := mk_t {
  self : self_t;
  pos0_maxin : Q;
  pos0_max : Q;
  pos1_maxin : Q;
  pos1_max : Q;
  lut : SparseBuilder;
  bin_centers0 : list Q;
  bin_centers1 : list Q
}.

(** [HistoBBox2d.__init__]: the log, and the object or the exception raised. *)
Definition init (a : init_args) : list string * result t :=
  let size := length (a_pos0 a) in
  ([],
   match a_delta_pos0 a with
   | None => Raise AttributeError
   | Some delta_pos0 =>
     if negb (Nat.eqb (length delta_pos0) size)
     then Raise (AssertionError "delta_pos0.size == self.size")
     else if negb (Nat.eqb (length (a_pos1 a)) size)
     then Raise (AssertionError "pos1 size")
     else if negb (Nat.eqb (length (a_delta_pos1 a)) size)
     then Raise (AssertionError "delta_pos1.size == self.size")
     else
       let '(bins0, bins1) := init_bins (a_bins a) in
       match init_mask size (a_mask a) with
       | Raise e => Raise e
       | Ok (check_mask, cmask) =>
           let bnd := calc_boundaries (a_allow_pos0_neg a) (a_chiDiscAtPi a)
                        check_mask cmask (a_pos0 a) delta_pos0 (a_pos1 a)
                        (a_delta_pos1 a) (a_pos0_range a) (a_pos1_range a) in
           let delta0 := (b_pos0_max bnd - b_pos0_min bnd) / inject_Z bins0 in
           let delta1 := (b_pos1_max bnd - b_pos1_min bnd) / inject_Z bins1 in
           let s := mk_self size bins0 bins1 check_mask cmask
                            (b_cpos0_inf bnd) (b_cpos0_sup bnd)
                            (b_cpos1_inf bnd) (b_cpos1_sup bnd)
                            (b_pos0_min bnd) (b_pos1_min bnd) delta0 delta1 in
           let lut := calc_lut s in
           match linspace (b_pos0_min bnd + (1 # 2) * delta0)
                          (b_pos0_max bnd - (1 # 2) * delta0) bins0,
                 linspace (b_pos1_min bnd + (1 # 2) * delta1)
                          (b_pos1_max bnd - (1 # 2) * delta1) bins1 with
           | Ok c0, Ok c1 =>
               Ok (mk_t s (b_pos0_maxin bnd) (b_pos0_max bnd)
                        (b_pos1_maxin bnd) (b_pos1_max bnd) lut c0 c1)
           | Raise e, _ => Raise e
           | _, Raise e => Raise e
           end
       end
   end).

End Construction.

End HistoBBox2d.

(** ** Range-reduction kernels (OpenCL) *)

Module Reduction.

(** A [float]: a finite value, one of the two infinities, or a NaN. *)
Inductive float : Type :=
| NegInfinity
| Finite (q : Q)
| Infinity
| NaN.

(** [a < b] on floats: false as soon as one side is a NaN. *)
Definition flt (a b : float) : bool :=
  match a, b with
  | NaN, _ => false
  | _, NaN => false
  | NegInfinity, NegInfinity => false
  | NegInfinity, _ => true
  | Finite _, NegInfinity => false
  | Finite x, Finite y => Qltb x y
  | Finite _, Infinity => true
  | Infinity, _ => false
  end.

Definition fgt (a b : float) : bool := flt b a.

Definition float2 : Type := (float * float)%type.
Definition float4 : Type := (float * float * float * float)%type.

Definition zero2 : float2 := (Finite 0, Finite 0).

(** Lines 46-51: the strided scan of one thread.  The loop ends as soon as
    [global_index >= length]; [fuel] bounds the number of iterations. *)
Fixpoint accumulate (fuel : nat) (buffer : list float) (length : Z)
    (global_index global_size : Z) (accumulator : float2) : option float2 :=
  if (global_index <? length)%Z then
    match fuel with
    | O => None
    | S fuel' =>
        let element := nth (Z.to_nat global_index) buffer (Finite 0) in
        let x := if flt (fst accumulator) element then fst accumulator else element in
        let y := if fgt (snd accumulator) element then snd accumulator else element in
        accumulate fuel' buffer length (global_index + global_size)%Z global_size (x, y)
    end
  else Some accumulator.

(** Modelled from the spec: the identifier [thread_id_loc] is used by both
    kernels but declared nowhere in the kernel file; the spec has the members
    of a workgroup halve their count each round, so it stands for the local
    index of the thread. *)
Definition thread_id_loc (local_index : Z) : Z := local_index.

(** Lines 66-79: what thread [local_index] does between two barriers. *)
Definition merge_step (active_threads : Z) (local_index : Z) (scratch : list float2)
    : list float2 :=
  if (thread_id_loc local_index <? active_threads)%Z then
    let other := nth (Z.to_nat (local_index + active_threads)) scratch zero2 in
    let mine := nth (Z.to_nat local_index) scratch zero2 in
    let x := if flt (fst mine) (fst other) then fst mine else fst other in
    let y := if fgt (snd mine) (snd other) then snd mine else snd other in
    store (Z.to_nat local_index) (x, y) scratch
  else scratch.

(** One round of the workgroup, closed by the barrier.  The slots written,
    below [active_threads], and the slots of the other operands, from
    [active_threads] on, are disjoint: running the threads one after the
    other gives the result of any interleaving. *)
Definition round (local_size active_threads : Z) (scratch : list float2) : list float2 :=
  for_range 0 local_size (merge_step active_threads) scratch.

(** Lines 61-81: [while (active_threads != 2)]; [None] when the fuel runs out. *)
Fixpoint halving (fuel : nat) (local_size active_threads : Z) (scratch : list float2)
    : option (list float2) :=
  if (active_threads =? 2)%Z then Some scratch
  else
    match fuel with
    | O => None
    | S fuel' =>
        let active_threads := Z.quot active_threads 2 in
        halving fuel' local_size active_threads (round local_size active_threads scratch)
    end.

Definition option_bind {A B : Type} (o : option A) (f : A -> option B) : option B :=
  match o with
  | Some a => f a
  | None => None
  end.

Fixpoint option_all {A : Type} (l : list (option A)) : option (list A) :=
  match l with
  | [] => Some []
  | o :: tl =>
      option_bind o (fun a => option_bind (option_all tl) (fun r => Some (a :: r)))
  end.

(** [reduce1] in one workgroup of [WORKGROUP_SIZE] threads: the value it
    writes to [preresult[get_group_id(0)]]. *)
Definition reduce1_group (fuel : nat) (WORKGROUP_SIZE : Z) (buffer : list float)
    (length : Z) (global_size group_id : Z) : option float2 :=
  let locals := zrange 0 WORKGROUP_SIZE in
  option_bind
    (option_all
       (map (fun local_index =>
               accumulate fuel buffer length
                          (group_id * WORKGROUP_SIZE + local_index)%Z global_size
                          (Infinity, NegInfinity))
            locals))
    (fun scratch =>
       option_bind (halving fuel WORKGROUP_SIZE WORKGROUP_SIZE scratch)
                   (fun scratch => Some (nth 0 scratch zero2))).

(** [reduce1] launched on [groups] workgroups: the array [preresult]. *)
Definition reduce1 (fuel : nat) (WORKGROUP_SIZE groups : Z) (buffer : list float)
    (length : Z) : option (list float2) :=
  option_all
    (map (reduce1_group fuel WORKGROUP_SIZE buffer length (groups * WORKGROUP_SIZE)%Z)
         (zrange 0 groups)).

(** [reduce2] in its single workgroup: the [float4] written to [result[0]],
    that is [vload4(0, scratch)], the first two pairs of [scratch]. *)
Definition reduce2 (fuel : nat) (WORKGROUP_SIZE : Z) (preresult : list float2)
    : option float4 :=
  let scratch :=
    map (fun local_index => nth (Z.to_nat local_index) preresult zero2)
        (zrange 0 WORKGROUP_SIZE) in
  option_bind (halving fuel WORKGROUP_SIZE WORKGROUP_SIZE scratch)
    (fun scratch =>
       let s0 := nth 0 scratch zero2 in
       let s1 := nth 1 scratch zero2 in
       Some (fst s0, snd s0, fst s1, snd s1)).

(** The two stages in sequence, as a host launches them: stage 1 on
    [WORKGROUP_SIZE] workgroups, which gives one partial to each thread of
    the single workgroup of stage 2. *)
Definition two_stage (fuel : nat) (WORKGROUP_SIZE : Z) (buffer : list float)
    : option float4 :=
  option_bind
    (reduce1 fuel WORKGROUP_SIZE WORKGROUP_SIZE buffer (Z.of_nat (List.length buffer)))
    (reduce2 fuel WORKGROUP_SIZE).

(** The ramp [0, 1, ..., N-1]. *)
Definition ramp (N : nat) : list float :=
  map (fun i => Finite (inject_Z (Z.of_nat i))) (seq 0 N).

End Reduction.

(** * Concrete configurations

    Inputs on which the builders are run in the examples below. *)

(** The example of the spec: [bins = 4], [pos0_min = 0], [delta = 1], one
    unmasked pixel at [1.5] with half-extent [1.0]. *)
Definition ex_split_1d : HistoBBox1d.self_t :=
  HistoBBox1d.mk_self 1 4 false [] false [] [] 0 0 [3 # 2] [1 # 2] [5 # 2] 0 1.

(** A pixel with both coordinates in [0.5, 2.5] on a 4 x 4 grid of unit bins
    starting at the origin. *)
Definition ex_split_2d : HistoBBox2d.self_t :=
  HistoBBox2d.mk_self 1 4 4 false [] [1 # 2] [5 # 2] [1 # 2] [5 # 2] 0 0 1 1.

(** Instances of the two parameters of the constructors, to run them: a
    relative epsilon of [2^-23] above the maximum, as section 4.1 of the spec
    describes the upper bound, and the double nearest to pi. *)
Definition upper_bound_eps (maximum_value : Q) : Q :=
  if Qltb 0 maximum_value then maximum_value * (1 + (1 # 8388608))
  else maximum_value * (1 - (1 # 8388608)).

Definition pi_double : Q := 884279719003555 # 281474976710656.

(** No-split construction with an explicit range [(1, 5)], four bins, and
    one pixel at [0.5], below the range by less than a bin width. *)
Definition args_below_range : HistoBBox1d.init_args :=
  HistoBBox1d.mk_args [1 # 2] None None None 4 (Some (1, 5)) None None false.

(** Three pixels, the first one masked and far above the two others. *)
Definition args_masked_first : HistoBBox1d.init_args :=
  HistoBBox1d.mk_args [10; 1; 2] (Some [1 # 2; 1 # 2; 1 # 2]) None None 4
                      None None (Some [1; 0; 0]%Z) false.

Definition args_masked_first_moved : HistoBBox1d.init_args :=
  HistoBBox1d.mk_args [20; 1; 2] (Some [1 # 2; 1 # 2; 1 # 2]) None None 4
                      None None (Some [1; 0; 0]%Z) false.

(** One pixel at [0.5] with half-extent [1]: its lower bound is [-0.5]. *)
Definition args_negative_lower : HistoBBox1d.init_args :=
  HistoBBox1d.mk_args [1 # 2] (Some [1]) None None 3 None None None false.

Definition args_negative_lower_2d : HistoBBox2d.init_args :=
  HistoBBox2d.mk_args [1 # 2] (Some [1]) [0] [1 # 10] (HistoBBox2d.BinsPair 3 1)
                      None None None false true.

(** A bin count of zero. *)
Definition args_zero_bins : HistoBBox1d.init_args :=
  HistoBBox1d.mk_args [1; 2] (Some [1 # 2; 1 # 2]) None None 0 None None None true.

(** Two pixels and a half-extent array of one element. *)
Definition args_mismatch_1d : HistoBBox1d.init_args :=
  HistoBBox1d.mk_args [1; 2] (Some [1 # 2]) None None 4 None None None true.

Definition args_mismatch_2d : HistoBBox2d.init_args :=
  HistoBBox2d.mk_args [1; 2] (Some [1 # 2]) [0; 0] [1 # 10; 1 # 10]
                      (HistoBBox2d.BinsPair 4 4) None None None true true.

(** A pixel from [0.5] to [2.0]: its upper end is the edge of bin 2. *)
Definition ex_on_edge_1d : HistoBBox1d.self_t :=
  HistoBBox1d.mk_self 1 4 false [] false [] [] 0 0 [5 # 4] [1 # 2] [2] 0 1.

(** The bounds the spec asks of the scan (4.1): the minimum of the lower
    bounds and the maximum of the upper bounds, over the unmasked pixels
    only; [None] when every pixel is masked. *)
Definition spec_auto_range (allow_pos0_neg check_mask : bool) (cmask : list Z)
    (cpos0 dpos0 : list Q) : option (Q * Q) :=
  fold_left
    (fun acc idx =>
       if masked check_mask cmask idx then acc
       else
         let c := nth idx cpos0 0 in
         let d := nth idx dpos0 0 in
         let lower := if negb allow_pos0_neg && Qltb (c - d) 0 then 0 else c - d in
         let upper := c + d in
         match acc with
         | None => Some (lower, upper)
         | Some (lo, hi) => Some (Qmin lo lower, Qmax hi upper)
         end)
    (seq 0 (List.length cpos0)) None.

(** ** Closed forms

    The insertions of one pixel written as lists, and the weight the spec
    gives to each bin of a pixel spread over both axes; the lemmas below
    relate them to the loops of the builders. *)

(** The edge fraction of bin [i] along one axis: [Some] of the left (or
    down) fraction in [bin_min], of the right (or up) fraction in [bin_max],
    [None] in the bins between. *)
Definition edge_fraction (fbin_min fbin_max : Q) (bin_min bin_max i : Z) : option Q :=
  if (i =? bin_min)%Z then Some (inject_Z (bin_min + 1) - fbin_min)
  else if (i =? bin_max)%Z then Some (fbin_max - inject_Z bin_max)
  else None.

(** Weight of bin [(i, j)] for a pixel spread over both axes: corner bins get
    the product of the two edge fractions, border bins the single edge
    fraction, interior bins [inv_area] alone. *)
Definition split_weight_2d (fbin0_min fbin0_max fbin1_min fbin1_max : Q)
    (bin0_min bin0_max bin1_min bin1_max i j : Z) : Q :=
  let inv_area := 1 / ((fbin0_max - fbin0_min) * (fbin1_max - fbin1_min)) in
  match edge_fraction fbin0_min fbin0_max bin0_min bin0_max i,
        edge_fraction fbin1_min fbin1_max bin1_min bin1_max j with
  | Some d0, Some d1 => inv_area * d0 * d1
  | Some d0, None => inv_area * d0
  | None, Some d1 => inv_area * d1
  | None, None => inv_area
  end.

(** The insertions of [HistoBBox2d.spread], in order. *)
Definition spread_entries (bins1 : Z) (idx : nat)
    (fbin0_min fbin0_max fbin1_min fbin1_max : Q)
    (bin0_min bin0_max bin1_min bin1_max : Z) : list lut_entry :=
  let delta_left := inject_Z (bin0_min + 1) - fbin0_min in
  let delta_right := fbin0_max - inject_Z bin0_max in
  let delta_down := inject_Z (bin1_min + 1) - fbin1_min in
  let delta_up := fbin1_max - inject_Z bin1_max in
  if (bin0_min =? bin0_max)%Z then
    if (bin1_min =? bin1_max)%Z then
      [mk_entry (bin0_min * bins1 + bin1_min) idx 1]
    else
      let inv_area := 1 / (fbin1_max - fbin1_min) in
      [mk_entry (bin0_min * bins1 + bin1_min) idx (inv_area * delta_down);
       mk_entry (bin0_min * bins1 + bin1_max) idx (inv_area * delta_up)]
      ++ map (fun j => mk_entry (bin0_min * bins1 + j) idx inv_area)
             (zrange (bin1_min + 1) bin1_max)
  else
    if (bin1_min =? bin1_max)%Z then
      let inv_area := 1 / (fbin0_max - fbin0_min) in
      [mk_entry (bin0_min * bins1 + bin1_min) idx (inv_area * delta_left);
       mk_entry (bin0_max * bins1 + bin1_min) idx (inv_area * delta_right)]
      ++ map (fun i => mk_entry (i * bins1 + bin1_min) idx inv_area)
             (zrange (bin0_min + 1) bin0_max)
    else
      let inv_area := 1 / ((fbin0_max - fbin0_min) * (fbin1_max - fbin1_min)) in
      [mk_entry (bin0_min * bins1 + bin1_min) idx (inv_area * delta_left * delta_down);
       mk_entry (bin0_min * bins1 + bin1_max) idx (inv_area * delta_left * delta_up);
       mk_entry (bin0_max * bins1 + bin1_min) idx (inv_area * delta_right * delta_down);
       mk_entry (bin0_max * bins1 + bin1_max) idx (inv_area * delta_right * delta_up)]
      ++ flat_map
           (fun i =>
              [mk_entry (i * bins1 + bin1_min) idx (inv_area * delta_down)]
              ++ map (fun j => mk_entry (i * bins1 + j) idx inv_area)
                     (zrange (bin1_min + 1) bin1_max)
              ++ [mk_entry (i * bins1 + bin1_max) idx (inv_area * delta_up)])
           (zrange (bin0_min + 1) bin0_max)
      ++ flat_map
           (fun j =>
              [mk_entry (bin0_min * bins1 + j) idx (inv_area * delta_left);
               mk_entry (bin0_max * bins1 + j) idx (inv_area * delta_right)])
           (zrange (bin1_min + 1) bin1_max).

(** Values that the even threads of [reduce1] can hold on a ramp: an even
    integer or a value that is not finite. *)
Definition even_float (v : Reduction.float) : Prop :=
  match v with
  | Reduction.Finite q => exists k : Z, q = inject_Z (2 * k)
  | _ => True
  end.

Definition even_pair (p : Reduction.float2) : Prop :=
  even_float (fst p) /\ even_float (snd p).

Definition even_lanes (scratch : list Reduction.float2) : Prop :=
  forall n, Nat.even n = true -> even_pair (nth n scratch Reduction.zero2).

Definition all_lanes (scratch : list Reduction.float2) : Prop :=
  forall n, even_pair (nth n scratch Reduction.zero2).

(** ** Further configurations *)

(** A pixel from [-2.5] to [1.5] on four unit bins from the origin: its
    left part is out of the range. *)
Definition ex_clipped_1d : HistoBBox1d.self_t :=
  HistoBBox1d.mk_self 1 4 false [] false [] [] 0 0 [-1 # 2] [-5 # 2] [3 # 2] 0 1.

(** A pixel over [-2.5, 1.5] x [0.5, 4.5] on a 4 x 4 grid of unit bins: out
    of the range on the left of axis 0 and on the right of axis 1. *)
Definition ex_clipped_2d : HistoBBox2d.self_t :=
  HistoBBox2d.mk_self 1 4 4 false [] [-5 # 2] [3 # 2] [1 # 2] [9 # 2] 0 0 1 1.

(** Pixels without extent: both bounds are the coordinate. *)
Definition ex_pointlike_1d : HistoBBox1d.self_t :=
  HistoBBox1d.mk_self 3 4 false [] false [] [] 0 0
                      [1 # 2; 7 # 2; 9 # 2] [1 # 2; 7 # 2; 9 # 2] [1 # 2; 7 # 2; 9 # 2] 0 1.

(** [a <= b] on floats, false as soon as one side is a NaN, and the merge of
    two partials written in both kernels: the first component that the
    ternary on [<] keeps, the second that the ternary on [>] keeps. *)
Definition fle (a b : Reduction.float) : bool :=
  match a, b with
  | Reduction.NaN, _ => false
  | _, Reduction.NaN => false
  | _, _ => negb (Reduction.flt b a)
  end.

Definition merge2 (mine other : Reduction.float2) : Reduction.float2 :=
  (if Reduction.flt (fst mine) (fst other) then fst mine else fst other,
   if Reduction.fgt (snd mine) (snd other) then snd mine else snd other).

(** [within p q]: the pair [q] bounds the pair [p] on both sides. *)
Definition within (p q : Reduction.float2) : Prop :=
  fle (fst q) (fst p) = true /\ fle (snd p) (snd q) = true.

(** A float that is not a NaN; a pair and a buffer of such floats. *)
Definition number (v : Reduction.float) : bool :=
  match v with
  | Reduction.NaN => false
  | _ => true
  end.

Definition number_pair (p : Reduction.float2) : Prop :=
  number (fst p) = true /\ number (snd p) = true.

Definition no_nan (buffer : list Reduction.float) : Prop :=
  Forall (fun v => number v = true) buffer.

(** Splitting construction with an explicit range [(1, 5)], four bins, and
    one pixel from [0.25] to [0.75], below the range by less than a bin
    width. *)
Definition args_split_below_range : HistoBBox1d.init_args :=
  HistoBBox1d.mk_args [1 # 2] (Some [1 # 4]) None None 4 (Some (1, 5)) None None false.

(** Another instance of the parameter [pi]: the single-precision float
    nearest to pi. *)
Definition pi_float : Q := 13176795 # 4194304.

(** The C cast [<int> x] of a double is defined when the truncated value is
    an [int] of 32 bits. *)
Definition int_cast_defined (x : Q) : Prop :=
  (- 2147483648 <= Qtrunc x <= 2147483647)%Z.

(** * Properties *)

(** ** Arithmetic of the helpers *)

Lemma Qltb_lt (x y : Q) : Qltb x y = true <-> x < y.
Proof.
  unfold Qltb. rewrite negb_true_iff. split; intro H.
  - apply Qnot_le_lt. intro Hle. apply Qle_bool_iff in Hle. congruence.
  - destruct (Qle_bool y x) eqn:E; [|reflexivity].
    apply Qle_bool_iff in E. exfalso. exact (Qlt_not_le _ _ H E).
Qed.

Lemma Qltb_ge (x y : Q) : Qltb x y = false <-> y <= x.
Proof.
  unfold Qltb. rewrite negb_false_iff. apply Qle_bool_iff.
Qed.

Lemma Qtrunc_nonneg (q : Q) : 0 <= q -> Qtrunc q = Qfloor q.
Proof.
  destruct q as [n d]. unfold Qle, Qtrunc, Qfloor. simpl. intro H.
  apply Z.quot_div_nonneg; lia.
Qed.

Lemma Qtrunc_nonpos (q : Q) : q <= 0 -> Qtrunc q = Qceiling q.
Proof.
  destruct q as [n d]. unfold Qle, Qtrunc, Qceiling, Qfloor, Qopp. simpl. intro H.
  rewrite <- (Z.opp_involutive n) at 1.
  rewrite Z.quot_opp_l by lia.
  rewrite Z.quot_div_nonneg by lia. reflexivity.
Qed.

(** [<int> q] is within one unit of [q], on the side of zero. *)
Lemma Qtrunc_upper (q : Q) : q < inject_Z (Qtrunc q) + 1.
Proof.
  destruct (Qlt_le_dec q 0) as [Hneg | Hpos].
  - rewrite Qtrunc_nonpos by (apply Qlt_le_weak; exact Hneg).
    pose proof (Qle_ceiling q). lra.
  - rewrite Qtrunc_nonneg by exact Hpos.
    pose proof (Qlt_floor q) as H. rewrite inject_Z_plus in H. exact H.
Qed.

Lemma Qtrunc_le_self (q : Q) : 0 <= q -> inject_Z (Qtrunc q) <= q.
Proof.
  intro H. rewrite Qtrunc_nonneg by exact H. apply Qfloor_le.
Qed.

Lemma Qtrunc_ge_self (q : Q) : q <= 0 -> q <= inject_Z (Qtrunc q).
Proof.
  intro H. rewrite Qtrunc_nonpos by exact H. apply Qle_ceiling.
Qed.

Lemma Qtrunc_sign_pos (q : Q) : 0 <= q -> (0 <= Qtrunc q)%Z.
Proof.
  intro H. rewrite Qtrunc_nonneg by exact H.
  change 0%Z with (Qfloor 0). apply Qfloor_resp_le. exact H.
Qed.

Lemma Qtrunc_sign_neg (q : Q) : q <= 0 -> (Qtrunc q <= 0)%Z.
Proof.
  intro H. rewrite Qtrunc_nonpos by exact H.
  change 0%Z with (Qceiling 0). apply Qceiling_resp_le. exact H.
Qed.

Lemma Qtrunc_mono (p q : Q) : p <= q -> (Qtrunc p <= Qtrunc q)%Z.
Proof.
  intro H.
  destruct (Qlt_le_dec p 0) as [Hp | Hp]; destruct (Qlt_le_dec q 0) as [Hq | Hq].
  - rewrite !Qtrunc_nonpos by lra. apply Qceiling_resp_le. exact H.
  - pose proof (Qtrunc_sign_neg p ltac:(lra)). pose proof (Qtrunc_sign_pos q Hq). lia.
  - lra.
  - rewrite !Qtrunc_nonneg by lra. apply Qfloor_resp_le. exact H.
Qed.

Lemma Qtrunc_pos_le (q : Q) : (1 <= Qtrunc q)%Z -> inject_Z (Qtrunc q) <= q.
Proof.
  intro H. destruct (Qlt_le_dec q 0) as [Hq | Hq].
  - pose proof (Qtrunc_sign_neg q ltac:(lra)). lia.
  - apply Qtrunc_le_self. exact Hq.
Qed.

Lemma inject_Z_le (x y : Z) : (x <= y)%Z -> inject_Z x <= inject_Z y.
Proof. rewrite Zle_Qle. trivial. Qed.

Lemma inject_Z_lt (x y : Z) : (x < y)%Z -> inject_Z x < inject_Z y.
Proof. rewrite Zlt_Qlt. trivial. Qed.

(** ** Loops and builders *)

Lemma in_zrange (lo hi i : Z) : In i (zrange lo hi) <-> (lo <= i < hi)%Z.
Proof.
  unfold zrange. rewrite in_map_iff. split.
  - intros [k [Hk Hin]]. apply in_seq in Hin. lia.
  - intro H. exists (Z.to_nat (i - lo)). split; [lia|]. apply in_seq. lia.
Qed.

Lemma zrange_empty (lo hi : Z) : (hi <= lo)%Z -> zrange lo hi = [].
Proof.
  intro H. unfold zrange. replace (Z.to_nat (hi - lo)) with O by lia. reflexivity.
Qed.

Lemma zrange_length (lo hi : Z) : List.length (zrange lo hi) = Z.to_nat (hi - lo).
Proof. unfold zrange. rewrite length_map, length_seq. reflexivity. Qed.

(** A loop whose body only appends is a [flat_map]. *)
Lemma fold_append {A E : Type} (g : A -> list E) (l : list A) (b : list E) :
  fold_left (fun acc i => acc ++ g i) l b = b ++ flat_map g l.
Proof.
  revert b. induction l as [|x l IH]; intro b; simpl.
  - rewrite app_nil_r. reflexivity.
  - rewrite IH, app_assoc. reflexivity.
Qed.

Lemma flat_map_singleton {A E : Type} (f : A -> E) (l : list A) :
  flat_map (fun i => [f i]) l = map f l.
Proof. induction l as [|x l IH]; simpl; [|rewrite IH]; reflexivity. Qed.

Lemma for_range_append {E : Type} (body : Z -> list E -> list E) (g : Z -> list E)
    (lo hi : Z) (b : list E) :
  (forall i acc, body i acc = acc ++ g i) ->
  for_range lo hi body b = b ++ flat_map g (zrange lo hi).
Proof.
  intro H. unfold for_range. rewrite <- fold_append.
  revert b. induction (zrange lo hi) as [|x l IH]; intro b; simpl; [reflexivity|].
  rewrite H. apply IH.
Qed.

Lemma pixel_loop_append {E : Type} (body : nat -> list E -> list E) (size : nat)
    (b : list E) :
  (forall idx acc, body idx acc = acc ++ body idx []) ->
  pixel_loop size body b = b ++ flat_map (fun idx => body idx []) (seq 0 size).
Proof.
  intro H. unfold pixel_loop. rewrite <- fold_append.
  revert b. induction (seq 0 size) as [|x l IH]; intro b; simpl; [reflexivity|].
  rewrite H. apply IH.
Qed.

Lemma weight_sum_app (a b : list lut_entry) :
  weight_sum (a ++ b) == weight_sum a + weight_sum b.
Proof.
  induction a as [|e a IH]; simpl; [ring|]. rewrite IH. ring.
Qed.

Lemma weight_sum_const {A : Type} (g : A -> list lut_entry) (c : Q) (l : list A) :
  (forall i, weight_sum (g i) == c) ->
  weight_sum (flat_map g l) == inject_Z (Z.of_nat (List.length l)) * c.
Proof.
  intro H. induction l as [|x l IH].
  - simpl. ring.
  - cbn [flat_map List.length]. rewrite weight_sum_app, IH, H.
    rewrite Nat2Z.inj_succ. unfold Z.succ. rewrite inject_Z_plus. ring.
Qed.

Lemma weight_sum_zrange (g : Z -> list lut_entry) (c : Q) (lo hi : Z) :
  (lo <= hi)%Z ->
  (forall i, weight_sum (g i) == c) ->
  weight_sum (flat_map g (zrange lo hi)) == (inject_Z hi - inject_Z lo) * c.
Proof.
  intros Hle H. rewrite (weight_sum_const g c) by exact H.
  rewrite zrange_length, Z2Nat.id by lia.
  unfold Zminus. rewrite inject_Z_plus, inject_Z_opp. ring.
Qed.

Lemma entries_of_same (idx : nat) (l : list lut_entry) :
  Forall (fun e => e_idx e = idx) l -> entries_of idx l = l.
Proof.
  induction 1 as [|e l He _ IH]; simpl; [reflexivity|].
  rewrite He, Nat.eqb_refl. f_equal. exact IH.
Qed.

Lemma entries_of_other (idx i : nat) (l : list lut_entry) :
  i <> idx -> Forall (fun e => e_idx e = i) l -> entries_of idx l = [].
Proof.
  intros Hne. induction 1 as [|e l He _ IH]; simpl; [reflexivity|].
  rewrite He. destruct (Nat.eqb_spec i idx); [contradiction|]. exact IH.
Qed.

Lemma entries_of_app (idx : nat) (a b : list lut_entry) :
  entries_of idx (a ++ b) = entries_of idx a ++ entries_of idx b.
Proof. unfold entries_of. apply filter_app. Qed.

Section PixelLoop.

Variable body : nat -> list lut_entry -> list lut_entry.
Hypothesis body_appends : forall idx acc, body idx acc = acc ++ body idx [].
Hypothesis body_tags : forall idx, Forall (fun e => e_idx e = idx) (body idx []).

Lemma entries_of_prefix (idx n : nat) :
  (n <= idx)%nat ->
  entries_of idx (flat_map (fun i => body i []) (seq 0 n)) = [].
Proof.
  induction n as [|n IH]; intro H; [reflexivity|].
  rewrite seq_S, flat_map_app, entries_of_app, IH by lia.
  cbn [flat_map Nat.add]. rewrite app_nil_r.
  apply (entries_of_other idx n); [lia | apply body_tags].
Qed.

(** The entries of pixel [idx] in the table are the ones its own iteration
    inserted. *)
Lemma entries_of_pixel_loop (idx size : nat) :
  (idx < size)%nat ->
  entries_of idx (pixel_loop size body new_builder) = body idx [].
Proof.
  unfold new_builder. rewrite pixel_loop_append by exact body_appends. simpl.
  induction size as [|n IH]; intro H; [lia|].
  rewrite seq_S, flat_map_app, entries_of_app. cbn [flat_map Nat.add].
  rewrite app_nil_r.
  destruct (Nat.eq_dec idx n) as [-> | Hne].
  - rewrite entries_of_prefix by lia. simpl. apply entries_of_same, body_tags.
  - rewrite IH by lia.
    rewrite (entries_of_other idx n) by (try lia; apply body_tags).
    apply app_nil_r.
Qed.

Lemma in_pixel_loop (e : lut_entry) (size : nat) :
  In e (pixel_loop size body new_builder) ->
  (e_idx e < size)%nat /\ In e (body (e_idx e) []).
Proof.
  unfold new_builder. rewrite pixel_loop_append by exact body_appends. simpl.
  rewrite in_flat_map. intros [i [Hi He]]. apply in_seq in Hi.
  pose proof (body_tags i) as Ht. rewrite Forall_forall in Ht.
  rewrite (Ht e He). split; [lia | exact He].
Qed.

End PixelLoop.

(** ** The one-dimensional builder *)

Lemma split_insert_app (b : SparseBuilder) (idx : nat) (fmin fmax : Q) (bm bM : Z) :
  HistoBBox1d.split_insert b idx fmin fmax bm bM =
  b ++ [mk_entry bm idx (1 / (fmax - fmin) * (inject_Z (bm + 1) - fmin));
        mk_entry bM idx (1 / (fmax - fmin) * (fmax - inject_Z bM))]
    ++ map (fun i => mk_entry i idx (1 / (fmax - fmin))) (zrange (bm + 1) bM).
Proof.
  unfold HistoBBox1d.split_insert, cinsert.
  destruct (Z.ltb_spec (bm + 1) bM) as [Hlt | Hge].
  - rewrite (for_range_append _ (fun i => [mk_entry i idx (1 / (fmax - fmin))]))
      by reflexivity.
    rewrite flat_map_singleton, <- !app_assoc. reflexivity.
  - rewrite zrange_empty by lia. rewrite <- app_assoc. reflexivity.
Qed.

Lemma lut_bins_1d_app (bins : Z) (b : SparseBuilder) (idx : nat) (fmin fmax : Q) :
  HistoBBox1d.lut_bins bins b idx fmin fmax =
  b ++ HistoBBox1d.lut_bins bins [] idx fmin fmax.
Proof.
  unfold HistoBBox1d.lut_bins.
  destruct ((Qtrunc fmax <? 0)%Z || (Qtrunc fmin >=? bins)%Z);
    [rewrite app_nil_r; reflexivity|].
  match goal with |- context [if ?c then _ else _] => destruct c end.
  - reflexivity.
  - rewrite (split_insert_app b), (split_insert_app []). reflexivity.
Qed.

Lemma lut_bins_1d_tags (bins : Z) (idx : nat) (fmin fmax : Q) :
  Forall (fun e => e_idx e = idx) (HistoBBox1d.lut_bins bins [] idx fmin fmax).
Proof.
  unfold HistoBBox1d.lut_bins.
  destruct ((Qtrunc fmax <? 0)%Z || (Qtrunc fmin >=? bins)%Z); [constructor|].
  match goal with |- context [if ?c then _ else _] => destruct c end.
  - repeat constructor.
  - rewrite split_insert_app. simpl. repeat constructor.
    apply Forall_forall. intros e He. apply in_map_iff in He.
    destruct He as [i [<- _]]. reflexivity.
Qed.

Lemma calc_lut_1d_body_app (self : HistoBBox1d.self_t) (idx : nat) (b : SparseBuilder) :
  HistoBBox1d.calc_lut_body self idx b = b ++ HistoBBox1d.calc_lut_body self idx [].
Proof.
  unfold HistoBBox1d.calc_lut_body.
  destruct (masked _ _ idx); [rewrite app_nil_r; reflexivity|].
  destruct (HistoBBox1d.pos1_rejected self idx); [rewrite app_nil_r; reflexivity|].
  apply lut_bins_1d_app.
Qed.

Lemma calc_lut_1d_body_tags (self : HistoBBox1d.self_t) (idx : nat) :
  Forall (fun e => e_idx e = idx) (HistoBBox1d.calc_lut_body self idx []).
Proof.
  unfold HistoBBox1d.calc_lut_body.
  destruct (masked _ _ idx); [constructor|].
  destruct (HistoBBox1d.pos1_rejected self idx); [constructor|].
  apply lut_bins_1d_tags.
Qed.

Lemma calc_lut_nosplit_body_app (self : HistoBBox1d.self_t) (idx : nat)
    (b : SparseBuilder) :
  HistoBBox1d.calc_lut_nosplit_body self idx b =
  b ++ HistoBBox1d.calc_lut_nosplit_body self idx [].
Proof.
  unfold HistoBBox1d.calc_lut_nosplit_body.
  destruct (masked _ _ idx); [rewrite app_nil_r; reflexivity|].
  destruct (HistoBBox1d.pos1_rejected self idx); [rewrite app_nil_r; reflexivity|].
  match goal with |- context [if ?c then _ else _] => destruct c end;
    [rewrite app_nil_r|]; reflexivity.
Qed.

Lemma calc_lut_nosplit_body_tags (self : HistoBBox1d.self_t) (idx : nat) :
  Forall (fun e => e_idx e = idx) (HistoBBox1d.calc_lut_nosplit_body self idx []).
Proof.
  unfold HistoBBox1d.calc_lut_nosplit_body.
  destruct (masked _ _ idx); [constructor|].
  destruct (HistoBBox1d.pos1_rejected self idx); [constructor|].
  match goal with |- context [if ?c then _ else _] => destruct c end;
    repeat constructor.
Qed.

(** Sum of the weights of the splitting branch. *)
Lemma split_weights (idx : nat) (fmin fmax : Q) (bm bM : Z) :
  (bm < bM)%Z -> ~ fmax - fmin == 0 ->
  weight_sum ([mk_entry bm idx (1 / (fmax - fmin) * (inject_Z (bm + 1) - fmin));
               mk_entry bM idx (1 / (fmax - fmin) * (fmax - inject_Z bM))]
              ++ map (fun i => mk_entry i idx (1 / (fmax - fmin))) (zrange (bm + 1) bM))
  == 1 / (fmax - fmin) * ((fmax - fmin) + (inject_Z (bm + 1) - fmin)
                          - (inject_Z (bm + 1) - fmin)).
Proof.
  intros Hlt Hne.
  rewrite <- flat_map_singleton.
  cbn [app weight_sum fold_right e_coef].
  change (fold_right (fun e acc => e_coef e + acc) 0) with weight_sum.
  rewrite (weight_sum_zrange _ (1 / (fmax - fmin))) by (try lia; intro; simpl; ring).
  field. exact Hne.
Qed.

Lemma calc_lut_1d_pixel (self : HistoBBox1d.self_t) (idx : nat) :
  (idx < HistoBBox1d.size self)%nat ->
  entries_of idx (HistoBBox1d.calc_lut self) = HistoBBox1d.calc_lut_body self idx [].
Proof.
  intro H. unfold HistoBBox1d.calc_lut.
  apply entries_of_pixel_loop; [apply calc_lut_1d_body_app | apply calc_lut_1d_body_tags | exact H].
Qed.


(** ** The two-dimensional builder *)

Ltac break_in :=
  repeat match goal with
  | H : In _ (_ ++ _) |- _ => apply in_app_or in H; destruct H as [H | H]
  | H : In _ (map _ _) |- _ => apply in_map_iff in H; destruct H as [? [? H]]
  | H : In _ (flat_map _ _) |- _ => apply in_flat_map in H; destruct H as [? [? H]]
  | H : In _ (_ :: _) |- _ => destruct H as [H | H]
  | H : In _ [] |- _ => destruct H
  | H : In _ (zrange _ _) |- _ => apply in_zrange in H
  end.

Lemma spread_eq (bins1 : Z) (b : SparseBuilder) (idx : nat)
    (f0m f0M f1m f1M : Q) (b0m b0M b1m b1M : Z) :
  HistoBBox2d.spread bins1 b idx f0m f0M f1m f1M b0m b0M b1m b1M =
  b ++ spread_entries bins1 idx f0m f0M f1m f1M b0m b0M b1m b1M.
Proof.
  unfold HistoBBox2d.spread, spread_entries, cinsert.
  destruct (b0m =? b0M)%Z; destruct (b1m =? b1M)%Z.
  - reflexivity.
  - rewrite (for_range_append _
      (fun j => [mk_entry (b0m * bins1 + j) idx (1 / (f1M - f1m))])) by reflexivity.
    rewrite flat_map_singleton, <- !app_assoc. reflexivity.
  - rewrite (for_range_append _
      (fun i => [mk_entry (i * bins1 + b1m) idx (1 / (f0M - f0m))])) by reflexivity.
    rewrite flat_map_singleton, <- !app_assoc. reflexivity.
  - set (inv := 1 / ((f0M - f0m) * (f1M - f1m))).
    rewrite (for_range_append _
      (fun j => [mk_entry (b0m * bins1 + j) idx (inv * (inject_Z (b0m + 1) - f0m));
                 mk_entry (b0M * bins1 + j) idx (inv * (f0M - inject_Z b0M))])).
    2:{ intros i acc. rewrite <- app_assoc. reflexivity. }
    rewrite (for_range_append _
      (fun i => [mk_entry (i * bins1 + b1m) idx (inv * (inject_Z (b1m + 1) - f1m))]
                ++ map (fun j => mk_entry (i * bins1 + j) idx inv) (zrange (b1m + 1) b1M)
                ++ [mk_entry (i * bins1 + b1M) idx (inv * (f1M - inject_Z b1M))])).
    2:{ intros i acc.
        rewrite (for_range_append _ (fun j => [mk_entry (i * bins1 + j) idx inv]))
          by reflexivity.
        rewrite flat_map_singleton, <- !app_assoc. reflexivity. }
    rewrite <- !app_assoc. reflexivity.
Qed.

Lemma spread_entries_tags (bins1 : Z) (idx : nat)
    (f0m f0M f1m f1M : Q) (b0m b0M b1m b1M : Z) :
  Forall (fun e => e_idx e = idx)
         (spread_entries bins1 idx f0m f0M f1m f1M b0m b0M b1m b1M).
Proof.
  apply Forall_forall. intros e He. unfold spread_entries in He.
  destruct (b0m =? b0M)%Z; destruct (b1m =? b1M)%Z; break_in; subst; reflexivity.
Qed.

Lemma lut_bins_2d_app (bins0 bins1 : Z) (b : SparseBuilder) (idx : nat)
    (f0m f0M f1m f1M : Q) :
  HistoBBox2d.lut_bins bins0 bins1 b idx f0m f0M f1m f1M =
  b ++ HistoBBox2d.lut_bins bins0 bins1 [] idx f0m f0M f1m f1M.
Proof.
  unfold HistoBBox2d.lut_bins.
  match goal with |- context [if ?c then b else _] => destruct c end;
    [rewrite app_nil_r; reflexivity|].
  rewrite (spread_eq bins1 b), (spread_eq bins1 []). reflexivity.
Qed.

Lemma lut_bins_2d_tags (bins0 bins1 : Z) (idx : nat) (f0m f0M f1m f1M : Q) :
  Forall (fun e => e_idx e = idx)
         (HistoBBox2d.lut_bins bins0 bins1 [] idx f0m f0M f1m f1M).
Proof.
  unfold HistoBBox2d.lut_bins.
  match goal with |- context [if ?c then [] else _] => destruct c end; [constructor|].
  rewrite spread_eq. apply spread_entries_tags.
Qed.

Lemma calc_lut_2d_body_app (self : HistoBBox2d.self_t) (idx : nat) (b : SparseBuilder) :
  HistoBBox2d.calc_lut_body self idx b = b ++ HistoBBox2d.calc_lut_body self idx [].
Proof.
  unfold HistoBBox2d.calc_lut_body.
  destruct (masked _ _ idx); [rewrite app_nil_r; reflexivity|].
  apply lut_bins_2d_app.
Qed.

Lemma calc_lut_2d_body_tags (self : HistoBBox2d.self_t) (idx : nat) :
  Forall (fun e => e_idx e = idx) (HistoBBox2d.calc_lut_body self idx []).
Proof.
  unfold HistoBBox2d.calc_lut_body.
  destruct (masked _ _ idx); [constructor|].
  apply lut_bins_2d_tags.
Qed.

Lemma calc_lut_2d_pixel (self : HistoBBox2d.self_t) (idx : nat) :
  (idx < HistoBBox2d.size self)%nat ->
  entries_of idx (HistoBBox2d.calc_lut self) = HistoBBox2d.calc_lut_body self idx [].
Proof.
  intro H. unfold HistoBBox2d.calc_lut.
  apply entries_of_pixel_loop; [apply calc_lut_2d_body_app | apply calc_lut_2d_body_tags | exact H].
Qed.

(** Along one axis, for a pixel that is kept and whose clamped bins differ:
    the lower end is left of the right edge of [bin_min], the upper end is
    right of the left edge of [bin_max]. *)
Lemma axis_spread (bins : Z) (fmin fmax : Q) :
  let bin_max := if (Qtrunc fmax >=? bins)%Z then (bins - 1)%Z else Qtrunc fmax in
  let bin_min := if (Qtrunc fmin <? 0)%Z then 0%Z else Qtrunc fmin in
  (bin_min < bin_max)%Z ->
  (0 <= bin_min)%Z /\ fmin < inject_Z bin_min + 1 /\ inject_Z bin_max <= fmax.
Proof.
  intros bM bm Hlt.
  pose proof (Qtrunc_upper fmin) as Hup.
  assert (Hm : (0 <= bm)%Z) by (unfold bm; destruct (Z.ltb_spec (Qtrunc fmin) 0); lia).
  split; [exact Hm|]. split.
  - unfold bm. destruct (Z.ltb_spec (Qtrunc fmin) 0) as [Hneg | Hpos]; [|exact Hup].
    assert (inject_Z (Qtrunc fmin) + 1 <= 0).
    { change 0 with (inject_Z 0). change 1 with (inject_Z 1).
      rewrite <- inject_Z_plus. apply inject_Z_le. lia. }
    change (inject_Z 0) with 0. lra.
  - assert (H1 : (1 <= bM)%Z) by lia.
    unfold bM in *. destruct (Z.geb_spec (Qtrunc fmax) bins) as [Hclip | Hin].
    + apply Qle_trans with (inject_Z (Qtrunc fmax)).
      * apply inject_Z_le. lia.
      * apply Qtrunc_pos_le. lia.
    + apply Qtrunc_pos_le. exact H1.
Qed.

Lemma edge_fraction_min (fm fM : Q) (bm bM : Z) :
  edge_fraction fm fM bm bM bm = Some (inject_Z (bm + 1) - fm).
Proof. unfold edge_fraction. rewrite Z.eqb_refl. reflexivity. Qed.

Lemma edge_fraction_max (fm fM : Q) (bm bM : Z) :
  bm <> bM -> edge_fraction fm fM bm bM bM = Some (fM - inject_Z bM).
Proof.
  intro H. unfold edge_fraction.
  destruct (Z.eqb_spec bM bm); [congruence|]. rewrite Z.eqb_refl. reflexivity.
Qed.

Lemma edge_fraction_mid (fm fM : Q) (bm bM i : Z) :
  i <> bm -> i <> bM -> edge_fraction fm fM bm bM i = None.
Proof.
  intros H1 H2. unfold edge_fraction.
  destruct (Z.eqb_spec i bm); [congruence|].
  destruct (Z.eqb_spec i bM); [congruence|]. reflexivity.
Qed.

Ltac edge_cases :=
  unfold split_weight_2d;
  repeat first
    [ rewrite edge_fraction_min
    | rewrite edge_fraction_max by lia
    | rewrite edge_fraction_mid by lia ].

Lemma spread_both_in (bins1 : Z) (idx : nat) (f0m f0M f1m f1M : Q)
    (b0m b0M b1m b1M : Z) (i j : Z) :
  (b0m < b0M)%Z -> (b1m < b1M)%Z ->
  (b0m <= i <= b0M)%Z -> (b1m <= j <= b1M)%Z ->
  In (mk_entry (i * bins1 + j) idx
               (split_weight_2d f0m f0M f1m f1M b0m b0M b1m b1M i j))
     (spread_entries bins1 idx f0m f0M f1m f1M b0m b0M b1m b1M).
Proof.
  intros H0 H1 Hi Hj. unfold spread_entries.
  destruct (Z.eqb_spec b0m b0M); [lia|]. destruct (Z.eqb_spec b1m b1M); [lia|].
  rewrite !in_app_iff, !in_flat_map.
  destruct (Z.eq_dec i b0m) as [-> | Hib]; [|destruct (Z.eq_dec i b0M) as [-> | HiB]];
  (destruct (Z.eq_dec j b1m) as [-> | Hjb]; [|destruct (Z.eq_dec j b1M) as [-> | HjB]]);
  edge_cases.
  - left. apply in_eq.
  - left. apply in_cons, in_eq.
  - right. right. exists j. split; [apply in_zrange; lia | apply in_eq].
  - left. do 2 apply in_cons. apply in_eq.
  - left. do 3 apply in_cons. apply in_eq.
  - right. right. exists j. split; [apply in_zrange; lia | apply in_cons, in_eq].
  - right. left. exists i. split; [apply in_zrange; lia | apply in_eq].
  - right. left. exists i. split; [apply in_zrange; lia|].
    apply in_cons, in_or_app. right. apply in_eq.
  - right. left. exists i. split; [apply in_zrange; lia|].
    apply in_cons, in_or_app. left. apply in_map_iff. exists j.
    split; [reflexivity | apply in_zrange; lia].
Qed.

Lemma spread_both_only (bins1 : Z) (idx : nat) (f0m f0M f1m f1M : Q)
    (b0m b0M b1m b1M : Z) (e : lut_entry) :
  (b0m < b0M)%Z -> (b1m < b1M)%Z ->
  In e (spread_entries bins1 idx f0m f0M f1m f1M b0m b0M b1m b1M) ->
  exists i j, (b0m <= i <= b0M)%Z /\ (b1m <= j <= b1M)%Z /\
    e = mk_entry (i * bins1 + j) idx
                 (split_weight_2d f0m f0M f1m f1M b0m b0M b1m b1M i j).
Proof.
  intros H0 H1 He. unfold spread_entries in He.
  destruct (Z.eqb_spec b0m b0M); [lia|]. destruct (Z.eqb_spec b1m b1M); [lia|].
  break_in; subst.
  - exists b0m, b1m. edge_cases. repeat split; lia.
  - exists b0m, b1M. edge_cases. repeat split; lia.
  - exists b0M, b1m. edge_cases. repeat split; lia.
  - exists b0M, b1M. edge_cases. repeat split; lia.
  - match goal with H : (b0m + 1 <= ?x < b0M)%Z |- _ => exists x, b1m end.
    edge_cases. repeat split; lia.
  - match goal with
      H : (b0m + 1 <= ?x < b0M)%Z, H' : (b1m + 1 <= ?y < b1M)%Z |- _ => exists x, y
    end.
    edge_cases. repeat split; lia.
  - match goal with H : (b0m + 1 <= ?x < b0M)%Z |- _ => exists x, b1M end.
    edge_cases. repeat split; lia.
  - match goal with H : (b1m + 1 <= ?x < b1M)%Z |- _ => exists b0m, x end.
    edge_cases. repeat split; lia.
  - match goal with H : (b1m + 1 <= ?x < b1M)%Z |- _ => exists b0M, x end.
    edge_cases. repeat split; lia.
Qed.

Lemma weight_sum_map_const {A : Type} (f : A -> Z) (idx : nat) (c : Q) (l : list A) :
  weight_sum (map (fun i => mk_entry (f i) idx c) l)
  == inject_Z (Z.of_nat (List.length l)) * c.
Proof.
  rewrite <- flat_map_singleton.
  apply (weight_sum_const (fun i => [mk_entry (f i) idx c])).
  intro. simpl. ring.
Qed.

Lemma inject_Z_zrange_length (lo hi : Z) :
  (lo <= hi)%Z ->
  inject_Z (Z.of_nat (List.length (zrange lo hi))) == inject_Z hi - inject_Z lo.
Proof.
  intro H. rewrite zrange_length, Z2Nat.id by lia.
  unfold Zminus. rewrite inject_Z_plus, inject_Z_opp. ring.
Qed.

Lemma spread_both_sum (bins1 : Z) (idx : nat) (f0m f0M f1m f1M : Q)
    (b0m b0M b1m b1M : Z) :
  (b0m < b0M)%Z -> (b1m < b1M)%Z ->
  ~ f0M - f0m == 0 -> ~ f1M - f1m == 0 ->
  weight_sum (spread_entries bins1 idx f0m f0M f1m f1M b0m b0M b1m b1M) == 1.
Proof.
  intros H0 H1 Hs0 Hs1. unfold spread_entries.
  destruct (Z.eqb_spec b0m b0M); [lia|]. destruct (Z.eqb_spec b1m b1M); [lia|].
  set (inv := 1 / ((f0M - f0m) * (f1M - f1m))).
  rewrite !weight_sum_app.
  rewrite (weight_sum_zrange _
             (inv * (inject_Z (b1m + 1) - f1m)
              + (inject_Z b1M - inject_Z (b1m + 1)) * inv
              + inv * (f1M - inject_Z b1M))).
  2: lia.
  2:{ intro i. rewrite !weight_sum_app, weight_sum_map_const.
      rewrite inject_Z_zrange_length by lia. simpl. ring. }
  rewrite (weight_sum_zrange _
             (inv * (inject_Z (b0m + 1) - f0m) + inv * (f0M - inject_Z b0M))).
  2: lia.
  2:{ intro j. simpl. ring. }
  cbn [weight_sum fold_right e_coef]. unfold inv.
  rewrite !inject_Z_plus. change (inject_Z 1) with 1.
  field. split; assumption.
Qed.

(** C2: in [HistoBBox2d.calc_lut], an unmasked pixel that is kept and spread
    over more than one bin in both axes puts one entry in every bin [(i, j)]
    of its rectangle of bins, at the combined index [i * bins1 + j], and
    nothing else: the four corners get [inv_area] times the product of the
    axis-0 and axis-1 edge fractions, the border bins [inv_area] times the
    single edge fraction, the interior bins
    [inv_area = 1 / ((fbin0_max - fbin0_min) * (fbin1_max - fbin1_min))]
    (this is [split_weight_2d]); the weights of the pixel sum to 1, in
    particular when nothing is clipped. *)
Theorem calc_lut_2d_spread_both_axes (self : HistoBBox2d.self_t) (idx : nat) :
  (idx < HistoBBox2d.size self)%nat ->
  masked (HistoBBox2d.check_mask self) (HistoBBox2d.cmask self) idx = false ->
  let bins0 := HistoBBox2d.bins0 self in
  let bins1 := HistoBBox2d.bins1 self in
  let fbin0_min := get_bin_number (nth idx (HistoBBox2d.cpos0_inf self) 0)
                     (HistoBBox2d.pos0_min self) (HistoBBox2d.delta0 self) in
  let fbin0_max := get_bin_number (nth idx (HistoBBox2d.cpos0_sup self) 0)
                     (HistoBBox2d.pos0_min self) (HistoBBox2d.delta0 self) in
  let fbin1_min := get_bin_number (nth idx (HistoBBox2d.cpos1_inf self) 0)
                     (HistoBBox2d.pos1_min self) (HistoBBox2d.delta1 self) in
  let fbin1_max := get_bin_number (nth idx (HistoBBox2d.cpos1_sup self) 0)
                     (HistoBBox2d.pos1_min self) (HistoBBox2d.delta1 self) in
  let bin0_max := if (Qtrunc fbin0_max >=? bins0)%Z then (bins0 - 1)%Z
                  else Qtrunc fbin0_max in
  let bin0_min := if (Qtrunc fbin0_min <? 0)%Z then 0%Z else Qtrunc fbin0_min in
  let bin1_max := if (Qtrunc fbin1_max >=? bins1)%Z then (bins1 - 1)%Z
                  else Qtrunc fbin1_max in
  let bin1_min := if (Qtrunc fbin1_min <? 0)%Z then 0%Z else Qtrunc fbin1_min in
  let inv_area := 1 / ((fbin0_max - fbin0_min) * (fbin1_max - fbin1_min)) in
  let delta_left := inject_Z (bin0_min + 1) - fbin0_min in
  let delta_right := fbin0_max - inject_Z bin0_max in
  let delta_down := inject_Z (bin1_min + 1) - fbin1_min in
  let delta_up := fbin1_max - inject_Z bin1_max in
  let weight := split_weight_2d fbin0_min fbin0_max fbin1_min fbin1_max
                                bin0_min bin0_max bin1_min bin1_max in
  let emitted := entries_of idx (HistoBBox2d.calc_lut self) in
  (Qtrunc fbin0_max <? 0)%Z || (Qtrunc fbin0_min >=? bins0)%Z
    || (Qtrunc fbin1_max <? 0)%Z || (Qtrunc fbin1_min >=? bins1)%Z = false ->
  (bin0_min < bin0_max)%Z -> (bin1_min < bin1_max)%Z ->
  (forall i j, (bin0_min <= i <= bin0_max)%Z -> (bin1_min <= j <= bin1_max)%Z ->
     In (mk_entry (i * bins1 + j) idx (weight i j)) emitted) /\
  (forall e, In e emitted ->
     exists i j, (bin0_min <= i <= bin0_max)%Z /\ (bin1_min <= j <= bin1_max)%Z /\
       e = mk_entry (i * bins1 + j) idx (weight i j)) /\
  weight bin0_min bin1_min = inv_area * delta_left * delta_down /\
  weight bin0_min bin1_max = inv_area * delta_left * delta_up /\
  weight bin0_max bin1_min = inv_area * delta_right * delta_down /\
  weight bin0_max bin1_max = inv_area * delta_right * delta_up /\
  (forall i, (bin0_min < i < bin0_max)%Z ->
     weight i bin1_min = inv_area * delta_down /\
     weight i bin1_max = inv_area * delta_up) /\
  (forall j, (bin1_min < j < bin1_max)%Z ->
     weight bin0_min j = inv_area * delta_left /\
     weight bin0_max j = inv_area * delta_right) /\
  (forall i j, (bin0_min < i < bin0_max)%Z -> (bin1_min < j < bin1_max)%Z ->
     weight i j = inv_area) /\
  weight_sum emitted == 1.
Proof.
  intros Hidx Hmask bins0 bins1 f0m f0M f1m f1M b0M b0m b1M b1m inv dl dr dd du
         weight emitted Hkept H0 H1.
  assert (Hem : emitted = spread_entries bins1 idx f0m f0M f1m f1M b0m b0M b1m b1M).
  { unfold emitted. rewrite calc_lut_2d_pixel by exact Hidx.
    unfold HistoBBox2d.calc_lut_body. rewrite Hmask.
    unfold HistoBBox2d.lut_bins.
    fold bins0 bins1 f0m f0M f1m f1M. rewrite Hkept.
    rewrite spread_eq. reflexivity. }
  destruct (axis_spread bins0 f0m f0M H0) as (_ & Hl0 & Hr0).
  destruct (axis_spread bins1 f1m f1M H1) as (_ & Hl1 & Hr1).
  fold b0m b0M in Hl0, Hr0. fold b1m b1M in Hl1, Hr1.
  assert (Hs0 : ~ f0M - f0m == 0).
  { assert (inject_Z (b0m + 1) <= inject_Z b0M) by (apply inject_Z_le; lia).
    rewrite inject_Z_plus in *. change (inject_Z 1) with 1 in *. lra. }
  assert (Hs1 : ~ f1M - f1m == 0).
  { assert (inject_Z (b1m + 1) <= inject_Z b1M) by (apply inject_Z_le; lia).
    rewrite inject_Z_plus in *. change (inject_Z 1) with 1 in *. lra. }
  rewrite Hem. unfold weight.
  split; [intros i j Hi Hj; apply spread_both_in; assumption|].
  split; [intros e He; apply spread_both_only; assumption|].
  repeat split; intros; try (edge_cases; reflexivity).
  apply spread_both_sum; assumption.
Qed.

Lemma calc_lut_2d_spread_both_axes_witness :
  In (mk_entry (1 * 4 + 1) 0
       (split_weight_2d ((1 # 2) / 1) ((5 # 2) / 1) ((1 # 2) / 1) ((5 # 2) / 1)
                        0 2 0 2 1 1))
     (entries_of 0 (HistoBBox2d.calc_lut ex_split_2d))
  /\ weight_sum (entries_of 0 (HistoBBox2d.calc_lut ex_split_2d)) == 1.
Proof.
  destruct (calc_lut_2d_spread_both_axes ex_split_2d 0%nat) as (Hin & _ & Hrest).
  - simpl. lia.
  - reflexivity.
  - reflexivity.
  - vm_compute. reflexivity.
  - vm_compute. reflexivity.
  - split.
    + apply (Hin 1%Z 1%Z); vm_compute; split; discriminate.
    + apply Hrest.
Defined.

(** ** Construction of the one-dimensional builder *)

(** C10: in [HistoBBox1d], when [pos1_range] is [None] the arguments [pos1]
    and [delta_pos1] have no effect: two constructions that differ only in
    them give the same log and the same object (table, bounds, bin centers
    and every other attribute), or raise the same exception, and the object
    has [check_pos1] off, so that the secondary filter rejects no pixel. *)
Theorem histobbox1d_pos1_unused_without_range
    (calc_upper_bound : Q -> Q) (pos0 : list Q) (delta_pos0 : option (list Q))
    (bins : Z) (pos0_range : option (Q * Q)) (mask : option (list Z))
    (allow_pos0_neg : bool) (pos1 delta_pos1 pos1' delta_pos1' : option (list Q)) :
  let a := HistoBBox1d.mk_args pos0 delta_pos0 pos1 delta_pos1 bins
                               pos0_range None mask allow_pos0_neg in
  let a' := HistoBBox1d.mk_args pos0 delta_pos0 pos1' delta_pos1' bins
                                pos0_range None mask allow_pos0_neg in
  HistoBBox1d.init calc_upper_bound a = HistoBBox1d.init calc_upper_bound a' /\
  (forall obj, snd (HistoBBox1d.init calc_upper_bound a) = Ok obj ->
     HistoBBox1d.check_pos1 (HistoBBox1d.self obj) = false /\
     forall idx, HistoBBox1d.pos1_rejected (HistoBBox1d.self obj) idx = false).
Proof.
  intros a a'. split; [reflexivity|].
  intros obj H.
  assert (Hc : HistoBBox1d.check_pos1 (HistoBBox1d.self obj) = false).
  { unfold HistoBBox1d.init, HistoBBox1d.init_attrs in H. simpl in H.
    destruct (HistoBBox1d.check_delta_pos0 _ delta_pos0) as [log d]. simpl in H.
    destruct (init_mask _ mask) as [[cm m] | e]; simpl in H; [|discriminate].
    destruct (bins =? 0)%Z; [discriminate|].
    match type of H with
    | match ?l with _ => _ end = _ => destruct l; [|discriminate]
    end.
    injection H as <-. reflexivity. }
  split; [exact Hc|].
  intro idx. unfold HistoBBox1d.pos1_rejected. rewrite Hc. reflexivity.
Qed.

(** The one-dimensional constructor never changes the bin count it is given. *)
Lemma histobbox1d_bins_verbatim (calc_upper_bound : Q -> Q) (a : HistoBBox1d.init_args)
    (s : HistoBBox1d.self_t) (bnd : HistoBBox1d.bounds_t) (d : option (list Q)) :
  snd (HistoBBox1d.init_attrs calc_upper_bound a) = Ok (s, bnd, d) ->
  HistoBBox1d.bins s = HistoBBox1d.a_bins a /\
  HistoBBox1d.delta s =
    (HistoBBox1d.b_pos0_max bnd - HistoBBox1d.b_pos0_min bnd)
    / inject_Z (HistoBBox1d.a_bins a).
Proof.
  unfold HistoBBox1d.init_attrs.
  destruct (HistoBBox1d.check_delta_pos0 _ _) as [log dp]. simpl.
  destruct (init_mask _ _) as [[cm m] | e]; [|discriminate].
  destruct (HistoBBox1d.init_pos1 _ _ _ _ _) as [[[[[c p1m] p1M] m1] M1] | e];
    [|discriminate].
  destruct (HistoBBox1d.a_bins a =? 0)%Z; [discriminate|].
  intro H. injection H as <- <- <-. split; reflexivity.
Qed.

(** No object is built by the one-dimensional constructor from a bin count
    that is not positive: zero stops at the division of line 155, a negative
    count at [numpy.linspace]. *)
Lemma histobbox1d_rejects_nonpositive_bins (calc_upper_bound : Q -> Q)
    (a : HistoBBox1d.init_args) :
  (HistoBBox1d.a_bins a <= 0)%Z ->
  exists e, snd (HistoBBox1d.init calc_upper_bound a) = Raise e.
Proof.
  intro Hb. unfold HistoBBox1d.init.
  destruct (HistoBBox1d.init_attrs calc_upper_bound a) as [log r] eqn:E.
  cbn [snd]. destruct r as [[[s bnd] d] | e]; [|exists e; reflexivity].
  assert (E' : snd (HistoBBox1d.init_attrs calc_upper_bound a) = Ok (s, bnd, d))
    by (rewrite E; reflexivity).
  pose proof (histobbox1d_bins_verbatim _ _ _ _ _ E') as [Hbins _].
  assert (Hne : HistoBBox1d.a_bins a <> 0%Z).
  { intro H0. clear E. unfold HistoBBox1d.init_attrs in E'.
    destruct (HistoBBox1d.check_delta_pos0 _ _) as [log' dp]. cbn [snd] in E'.
    destruct (init_mask _ _) as [[cm m] | e]; [|discriminate].
    destruct (HistoBBox1d.init_pos1 _ _ _ _ _) as [[[[[c p1m] p1M] m1] M1] | e];
      [|discriminate].
    rewrite H0 in E'. discriminate. }
  exists ValueError. unfold linspace. rewrite Hbins.
  replace (HistoBBox1d.a_bins a <? 0)%Z with true by (symmetry; apply Z.ltb_lt; lia).
  reflexivity.
Qed.

(** C9: the two-dimensional constructor floors each bin count to 1, the
    one-dimensional constructor does not: with [bins = 0] it keeps
    [self.bins = 0] and the division of the range by it, at line 155, raises
    [ZeroDivisionError], where the same arguments with one bin build an
    object. *)
Theorem histobbox1d_zero_bins_raises :
  snd (HistoBBox1d.init upper_bound_eps args_zero_bins) = Raise ZeroDivisionError /\
  (exists obj,
     snd (HistoBBox1d.init upper_bound_eps
            (HistoBBox1d.mk_args [1; 2] (Some [1 # 2; 1 # 2]) None None 1
                                 None None None true)) = Ok obj /\
     HistoBBox1d.bins (HistoBBox1d.self obj) = 1%Z) /\
  HistoBBox2d.init_bins (HistoBBox2d.BinsScalar 0) = (1%Z, 1%Z) /\
  HistoBBox2d.init_bins (HistoBBox2d.BinsPair (-3) 0) = (1%Z, 1%Z).
Proof.
  split; [vm_compute; reflexivity|].
  split; [|split; reflexivity].
  eexists. split; [vm_compute; reflexivity|]. reflexivity.
Qed.

(** C5: the no-split loop converts the fractional bin with a C cast, which
    truncates toward zero.  A pixel at [0.5], for the explicit range
    [(1, 5)] and four bins, has the bin [floor((0.5 - 1) / delta) = -1],
    outside [0, 4); the loop gives it the bin 0 and inserts it there with
    weight 1. *)
Theorem calc_lut_nosplit_keeps_pixel_below_range :
  exists obj,
    snd (HistoBBox1d.init upper_bound_eps args_below_range) = Ok obj /\
    let s := HistoBBox1d.self obj in
    let fbin0 := get_bin_number (nth 0 (HistoBBox1d.cpos0 s) 0)
                   (HistoBBox1d.pos0_min s) (HistoBBox1d.delta s) in
    HistoBBox1d.splitting obj = false /\
    masked (HistoBBox1d.check_mask s) (HistoBBox1d.cmask s) 0 = false /\
    HistoBBox1d.pos1_rejected s 0 = false /\
    Qfloor fbin0 = (-1)%Z /\
    Qtrunc fbin0 = 0%Z /\
    HistoBBox1d.lut obj = [mk_entry 0 0 1].
Proof.
  eexists. split; [vm_compute; reflexivity|].
  vm_compute. repeat split; reflexivity.
Qed.

(** C3: the scans of the bounds start from the coordinate of pixel 0 whether
    it is masked or not.  With the first of three pixels masked and at [10],
    the unmasked pixels span [(0.5, 2.5)] but the computed maximum is [10],
    and it follows the masked pixel when it moves to [20]; the same holds
    without splitting and in two dimensions. *)
Theorem calc_boundaries_seeded_by_masked_pixel (calc_upper_bound : Q -> Q) :
  let mask := [1; 0; 0]%Z in
  let dpos0 := [1 # 2; 1 # 2; 1 # 2] in
  let b := HistoBBox1d.calc_boundaries calc_upper_bound false true mask
             [10; 1; 2] dpos0 None in
  let b' := HistoBBox1d.calc_boundaries calc_upper_bound false true mask
              [20; 1; 2] dpos0 None in
  let bn := HistoBBox1d.calc_boundaries_nosplit calc_upper_bound false true mask
              [10; 1; 2] None in
  let b2 := HistoBBox2d.calc_boundaries calc_upper_bound pi_double false true true mask
              [10; 1; 2] dpos0 [3; 0; 0] [0; 0; 0] None None in
  spec_auto_range false true mask [10; 1; 2] dpos0 = Some (1 # 2, 5 # 2) /\
  spec_auto_range false true mask [20; 1; 2] dpos0 = Some (1 # 2, 5 # 2) /\
  HistoBBox1d.b_pos0_min b = 1 # 2 /\
  HistoBBox1d.b_pos0_maxin b = 10 /\
  HistoBBox1d.b_pos0_maxin b' = 20 /\
  HistoBBox1d.b_pos0_maxin bn = 10 /\
  HistoBBox2d.b_pos0_maxin b2 = 10 /\
  HistoBBox2d.b_pos1_maxin b2 = 3 /\
  (exists s bnd d,
     snd (HistoBBox1d.init_attrs calc_upper_bound args_masked_first) = Ok (s, bnd, d) /\
     HistoBBox1d.b_pos0_maxin bnd = 10 /\
     HistoBBox1d.delta s = (calc_upper_bound 10 - (1 # 2)) / inject_Z 4) /\
  (exists s bnd d,
     snd (HistoBBox1d.init_attrs calc_upper_bound args_masked_first_moved)
       = Ok (s, bnd, d) /\
     HistoBBox1d.b_pos0_maxin bnd = 20 /\
     HistoBBox1d.delta s = (calc_upper_bound 20 - (1 # 2)) / inject_Z 4).
Proof.
  cbv zeta. repeat split; try (vm_compute; reflexivity).
  - eexists _, _, _. split; [vm_compute; reflexivity|]. split; reflexivity.
  - eexists _, _, _. split; [vm_compute; reflexivity|]. split; reflexivity.
Qed.

(** C4: [HistoBBox1d.calc_boundaries] stores the lower bound in [cpos0_inf]
    before it clamps it, so that only the tracking of the bounds sees the
    clamped value: for a pixel at [0.5] with half-extent [1] and
    [allow_pos0_neg] false, [cpos0_inf] holds [-0.5], [pos0_min] is [0], and
    [calc_lut] computes [fbin0_min] from [-0.5], a negative value.  The
    two-dimensional [calc_boundaries] clamps first and stores [0]. *)
Theorem calc_boundaries_1d_stores_unclamped_lower :
  (forall calc_upper_bound,
     let b := HistoBBox1d.calc_boundaries calc_upper_bound false false []
                [1 # 2] [1] None in
     HistoBBox1d.b_cpos0_inf b = [-1 # 2] /\ HistoBBox1d.b_pos0_min b = 0) /\
  (forall calc_upper_bound,
     HistoBBox2d.b_cpos0_inf
       (HistoBBox2d.calc_boundaries calc_upper_bound pi_double false true false []
          [1 # 2] [1] [0] [1 # 10] None None) = [0]) /\
  (exists obj,
     snd (HistoBBox1d.init upper_bound_eps args_negative_lower) = Ok obj /\
     let s := HistoBBox1d.self obj in
     nth 0 (HistoBBox1d.cpos0_inf s) 0 = -1 # 2 /\
     get_bin_number (nth 0 (HistoBBox1d.cpos0_inf s) 0)
                    (HistoBBox1d.pos0_min s) (HistoBBox1d.delta s) < 0 /\
     get_bin_number 0 (HistoBBox1d.pos0_min s) (HistoBBox1d.delta s) == 0).
Proof.
  split; [|split].
  - intro cub. vm_compute. split; reflexivity.
  - intro cub. vm_compute. reflexivity.
  - eexists. split; [vm_compute; reflexivity|].
    vm_compute. repeat split; reflexivity.
Qed.

(** ** The fallback on a missing half-extent array *)

Lemma check_delta_pos0_off (size : nat) (delta_pos0 : option (list Q)) :
  delta_pos0 = None \/
  (exists d, delta_pos0 = Some d /\ List.length d <> size) ->
  HistoBBox1d.check_delta_pos0 size delta_pos0 =
    (["Pixel splitting desactivated !"%string], None).
Proof.
  intros [-> | [d [-> Hd]]]; [reflexivity|].
  unfold HistoBBox1d.check_delta_pos0.
  destruct (Nat.eqb_spec (List.length d) size); [contradiction | reflexivity].
Qed.

(** C6, counterexample: the two-dimensional constructor rejects a half-extent
    array whose size is not the one of the coordinates; nothing is logged and
    no table is built. *)
Lemma histobbox2d_rejects_mismatched_delta_pos0 :
  HistoBBox2d.init upper_bound_eps pi_double args_mismatch_2d =
    ([], Raise (AssertionError "delta_pos0.size == self.size")).
Proof. vm_compute. reflexivity. Qed.

(** C6, amended: when [delta_pos0] is absent or its size is not the one of
    [pos0], the one-dimensional constructor logs the warning, disables the
    splitting and builds the table with [calc_lut_nosplit]; it does not fail
    (as long as its other checks pass and there is at least one bin).
    The two-dimensional constructor has no fallback: it raises. *)
Theorem delta_pos0_fallback_1d_only (calc_upper_bound : Q -> Q) (pi : Q)
    (a : HistoBBox1d.init_args) (a2 : HistoBBox2d.init_args) :
  (HistoBBox1d.a_delta_pos0 a = None \/
   exists d, HistoBBox1d.a_delta_pos0 a = Some d /\
             List.length d <> List.length (HistoBBox1d.a_pos0 a)) ->
  (HistoBBox2d.a_delta_pos0 a2 = None \/
   exists d, HistoBBox2d.a_delta_pos0 a2 = Some d /\
             List.length d <> List.length (HistoBBox2d.a_pos0 a2)) ->
  (fst (HistoBBox1d.init calc_upper_bound a) = ["Pixel splitting desactivated !"%string] /\
   (forall obj, snd (HistoBBox1d.init calc_upper_bound a) = Ok obj ->
      HistoBBox1d.splitting obj = false /\
      HistoBBox1d.lut obj = HistoBBox1d.calc_lut_nosplit (HistoBBox1d.self obj)) /\
   ((exists m, init_mask (List.length (HistoBBox1d.a_pos0 a)) (HistoBBox1d.a_mask a)
               = Ok m) ->
    (exists p, HistoBBox1d.init_pos1 calc_upper_bound
                 (List.length (HistoBBox1d.a_pos0 a)) (HistoBBox1d.a_pos1 a)
                 (HistoBBox1d.a_delta_pos1 a) (HistoBBox1d.a_pos1_range a) = Ok p) ->
    (1 <= HistoBBox1d.a_bins a)%Z ->
    exists obj, snd (HistoBBox1d.init calc_upper_bound a) = Ok obj)) /\
  (fst (HistoBBox2d.init calc_upper_bound pi a2) = [] /\
   exists e, snd (HistoBBox2d.init calc_upper_bound pi a2) = Raise e).
Proof.
  intros H1 H2. split.
  - apply check_delta_pos0_off in H1.
    unfold HistoBBox1d.init, HistoBBox1d.init_attrs. rewrite H1. cbn [fst snd].
    split; [reflexivity|]. split.
    + intros obj.
      destruct (init_mask _ _) as [[cm m] | e]; [|discriminate].
      destruct (HistoBBox1d.init_pos1 _ _ _ _ _) as [[[[[c p1m] p1M] m1] M1] | e];
        [|discriminate].
      destruct (HistoBBox1d.a_bins a =? 0)%Z; [discriminate|].
      destruct (linspace _ _ _) as [centers | e]; [|discriminate].
      intro H. injection H as <-. split; reflexivity.
    + intros [m Hm] [p Hp] Hbins. rewrite Hm, Hp.
      destruct m as [cm m]. destruct p as [[[[c p1m] p1M] m1] M1].
      destruct (Z.eqb_spec (HistoBBox1d.a_bins a) 0); [lia|].
      unfold linspace. cbn [HistoBBox1d.bins].
      destruct (Z.ltb_spec (HistoBBox1d.a_bins a) 0); [lia|].
      eexists. reflexivity.
  - unfold HistoBBox2d.init. cbn [fst snd]. split; [reflexivity|].
    destruct H2 as [-> | [d [-> Hd]]]; [eexists; reflexivity|].
    destruct (Nat.eqb_spec (List.length d) (List.length (HistoBBox2d.a_pos0 a2)));
      [contradiction|].
    eexists. reflexivity.
Qed.

Lemma delta_pos0_fallback_1d_only_witness :
  (fst (HistoBBox1d.init upper_bound_eps args_mismatch_1d)
     = ["Pixel splitting desactivated !"%string] /\
   exists obj, snd (HistoBBox1d.init upper_bound_eps args_mismatch_1d) = Ok obj) /\
  exists e, snd (HistoBBox2d.init upper_bound_eps pi_double args_mismatch_2d) = Raise e.
Proof.
  destruct (delta_pos0_fallback_1d_only upper_bound_eps pi_double
              args_mismatch_1d args_mismatch_2d) as [[Hlog [_ Hok]] [_ Hraise]].
  - right. exists [1 # 2]. split; [reflexivity | simpl; lia].
  - right. exists [1 # 2]. split; [reflexivity | simpl; lia].
  - split; [split; [exact Hlog|] | exact Hraise].
    apply Hok.
    + eexists. reflexivity.
    + eexists. reflexivity.
    + simpl. lia.
Defined.

(** ** The reduction kernels *)

Lemma halving_zero (fuel : nat) (local_size : Z) (scratch : list Reduction.float2) :
  Reduction.halving fuel local_size 0 scratch = None.
Proof.
  revert scratch. induction fuel as [|fuel IH]; intro scratch; [reflexivity|].
  cbn [Reduction.halving]. change (0 =? 2)%Z with false. cbv iota.
  change (Z.quot 0 2) with 0%Z. apply IH.
Qed.

(** With a workgroup of one thread the loop [while (active_threads != 2)]
    never ends: no amount of fuel gives a result. *)
Lemma two_stage_single_thread_diverges (fuel : nat) (buffer : list Reduction.float) :
  Reduction.two_stage fuel 1 buffer = None.
Proof.
  unfold Reduction.two_stage, Reduction.reduce1.
  change (zrange 0 1) with [0%Z]. cbn [map Reduction.option_all].
  unfold Reduction.reduce1_group. change (zrange 0 1) with [0%Z].
  cbn [map Reduction.option_all].
  destruct (Reduction.accumulate _ _ _ _ _ _) as [acc|]; [|reflexivity].
  cbn [Reduction.option_bind].
  destruct fuel as [|fuel]; [reflexivity|].
  cbn [Reduction.halving]. change (1 =? 2)%Z with false. cbv iota.
  change (Z.quot 1 2) with 0%Z. rewrite halving_zero. reflexivity.
Qed.

(** C8: on the ramp [0, 1, 2, 3] with workgroups of two threads, [reduce1]
    writes for each workgroup the partial of its thread 0 only, [(0, 0)] and
    [(2, 2)]: the loop stops when two threads are active and [scratch[1]] is
    never merged into [scratch[0]].  [reduce2] then writes the four floats
    [(0, 0, 2, 2)]: no component is [N - 1 = 3], whatever the fuel. *)
Theorem two_stage_ramp4_misses_maximum (fuel : nat) :
  Reduction.reduce1 (S fuel) 2 2 (Reduction.ramp 4) 4 =
    Some [(Reduction.Finite 0, Reduction.Finite 0);
          (Reduction.Finite 2, Reduction.Finite 2)] /\
  Reduction.two_stage (S fuel) 2 (Reduction.ramp 4) =
    Some (Reduction.Finite 0, Reduction.Finite 0,
          Reduction.Finite 2, Reduction.Finite 2).
Proof.
  destruct fuel; split; vm_compute; reflexivity.
Qed.

(** ** Range of the weights *)

Lemma unit_fraction (s d : Q) : 0 < s -> 0 <= d -> d <= s -> 0 <= 1 / s * d <= 1.
Proof.
  intros Hs Hd Hds.
  assert (E : 1 / s * d == d / s) by (field; lra).
  rewrite E. split.
  - apply Qle_shift_div_l; [exact Hs | lra].
  - apply Qle_shift_div_r; [exact Hs | lra].
Qed.

Lemma unit_product (a b : Q) : 0 <= a <= 1 -> 0 <= b <= 1 -> 0 <= a * b <= 1.
Proof.
  intros [Ha0 Ha1] [Hb0 Hb1]. split.
  - apply Qmult_le_0_compat; assumption.
  - apply Qle_trans with (1 * b); [|lra].
    apply Qmult_le_compat_r; assumption.
Qed.

(** Along one axis, for a pixel that is kept and whose clamped bins differ,
    the span is positive and both edge fractions, scaled by the span, are in
    [0, 1]; so is the inverse of the span when a bin lies strictly between. *)
Lemma axis_fractions (bins : Z) (fmin fmax : Q) :
  let bin_max := if (Qtrunc fmax >=? bins)%Z then (bins - 1)%Z else Qtrunc fmax in
  let bin_min := if (Qtrunc fmin <? 0)%Z then 0%Z else Qtrunc fmin in
  (bin_min < bin_max)%Z ->
  0 < fmax - fmin /\
  0 <= 1 / (fmax - fmin) * (inject_Z (bin_min + 1) - fmin) <= 1 /\
  0 <= 1 / (fmax - fmin) * (fmax - inject_Z bin_max) <= 1 /\
  ((bin_min + 1 < bin_max)%Z -> 0 <= 1 / (fmax - fmin) * 1 <= 1).
Proof.
  intros bM bm Hlt.
  destruct (axis_spread bins fmin fmax Hlt) as (Hm & Hl & Hr).
  fold bm bM in Hl, Hr.
  assert (Hstep : inject_Z (bm + 1) <= inject_Z bM) by (apply inject_Z_le; lia).
  rewrite inject_Z_plus in *. change (inject_Z 1) with 1 in *.
  assert (Hs : 0 < fmax - fmin) by lra.
  split; [exact Hs|]. split; [|split].
  - apply unit_fraction; lra.
  - apply unit_fraction; lra.
  - intro Hmid. apply unit_fraction; try lra.
    assert (inject_Z (bm + 1 + 1) <= inject_Z bM) by (apply inject_Z_le; lia).
    rewrite !inject_Z_plus in *. change (inject_Z 1) with 1 in *. lra.
Qed.

(** With ordered ends and at least one bin, the clamped bins are ordered. *)
Lemma axis_ordered (bins : Z) (fmin fmax : Q) :
  (1 <= bins)%Z -> fmin <= fmax ->
  (Qtrunc fmax <? 0)%Z || (Qtrunc fmin >=? bins)%Z = false ->
  let bin_max := if (Qtrunc fmax >=? bins)%Z then (bins - 1)%Z else Qtrunc fmax in
  let bin_min := if (Qtrunc fmin <? 0)%Z then 0%Z else Qtrunc fmin in
  (bin_min <= bin_max)%Z.
Proof.
  intros Hb Hle Hkept bM bm. apply orb_false_iff in Hkept. destruct Hkept as [H1 H2].
  pose proof (Qtrunc_mono fmin fmax Hle).
  unfold bM, bm.
  destruct (Z.geb_spec (Qtrunc fmax) bins); destruct (Z.ltb_spec (Qtrunc fmin) 0); lia.
Qed.

Lemma lut_bins_1d_unit (bins : Z) (idx : nat) (fmin fmax : Q) :
  (1 <= bins)%Z -> fmin <= fmax ->
  Forall (fun e => 0 <= e_coef e <= 1) (HistoBBox1d.lut_bins bins [] idx fmin fmax).
Proof.
  intros Hb Hle. unfold HistoBBox1d.lut_bins.
  destruct ((Qtrunc fmax <? 0)%Z || (Qtrunc fmin >=? bins)%Z) eqn:Hkept; [constructor|].
  pose proof (axis_ordered bins fmin fmax Hb Hle Hkept) as Hord.
  pose proof (axis_fractions bins fmin fmax) as Hfr.
  cbv zeta in Hord, Hfr.
  set (bM := if (Qtrunc fmax >=? bins)%Z then (bins - 1)%Z else Qtrunc fmax) in *.
  set (bm := if (Qtrunc fmin <? 0)%Z then 0%Z else Qtrunc fmin) in *.
  destruct (Z.eqb_spec bm bM) as [Heq | Hne].
  - repeat constructor; simpl; lra.
  - destruct (Hfr ltac:(lia)) as (Hs & Hleft & Hright & Hmid).
    rewrite split_insert_app. simpl.
    constructor; [exact Hleft|]. constructor; [exact Hright|].
    apply Forall_forall. intros e He. apply in_map_iff in He.
    destruct He as [i [<- Hi]]. apply in_zrange in Hi. simpl.
    assert (E : 1 / (fmax - fmin) == 1 / (fmax - fmin) * 1) by ring.
    rewrite E. apply Hmid. lia.
Qed.

Lemma unit_weight_2d (s0 s1 d0 d1 w : Q) :
  0 < s0 -> 0 < s1 ->
  0 <= 1 / s0 * d0 <= 1 -> 0 <= 1 / s1 * d1 <= 1 ->
  w == 1 / (s0 * s1) * d0 * d1 ->
  0 <= w <= 1.
Proof.
  intros Hs0 Hs1 H0 H1 Hw.
  assert (E : w == (1 / s0 * d0) * (1 / s1 * d1)) by (rewrite Hw; field; lra).
  rewrite E. apply unit_product; assumption.
Qed.

Lemma orb4_false (a b c d : bool) :
  a || b || c || d = false -> a || b = false /\ c || d = false.
Proof. destruct a, b, c, d; simpl; intro H; try discriminate; split; reflexivity. Qed.

Lemma lut_bins_2d_unit (bins0 bins1 : Z) (idx : nat) (f0m f0M f1m f1M : Q) :
  (1 <= bins0)%Z -> (1 <= bins1)%Z -> f0m <= f0M -> f1m <= f1M ->
  Forall (fun e => 0 <= e_coef e <= 1)
         (HistoBBox2d.lut_bins bins0 bins1 [] idx f0m f0M f1m f1M).
Proof.
  intros Hb0 Hb1 Hle0 Hle1. unfold HistoBBox2d.lut_bins.
  match goal with |- context [if ?c then [] else _] => destruct c eqn:Hkept end;
    [constructor|].
  apply orb4_false in Hkept. destruct Hkept as [Hk0 Hk1].
  pose proof (axis_ordered bins0 f0m f0M Hb0 Hle0 Hk0) as Hord0.
  pose proof (axis_ordered bins1 f1m f1M Hb1 Hle1 Hk1) as Hord1.
  pose proof (axis_fractions bins0 f0m f0M) as Hfr0.
  pose proof (axis_fractions bins1 f1m f1M) as Hfr1.
  cbv zeta in Hord0, Hord1, Hfr0, Hfr1.
  set (b0M := if (Qtrunc f0M >=? bins0)%Z then (bins0 - 1)%Z else Qtrunc f0M) in *.
  set (b0m := if (Qtrunc f0m <? 0)%Z then 0%Z else Qtrunc f0m) in *.
  set (b1M := if (Qtrunc f1M >=? bins1)%Z then (bins1 - 1)%Z else Qtrunc f1M) in *.
  set (b1m := if (Qtrunc f1m <? 0)%Z then 0%Z else Qtrunc f1m) in *.
  rewrite spread_eq. cbn [app]. unfold spread_entries.
  apply Forall_forall. intros e He.
  destruct (Z.eqb_spec b0m b0M) as [E0 | N0]; destruct (Z.eqb_spec b1m b1M) as [E1 | N1].
  - break_in; subst e; simpl; lra.
  - destruct (Hfr1 ltac:(lia)) as (Hs1 & Hd & Hu & Hmid1).
    break_in; subst e; cbn [e_coef]; try assumption.
    assert (E : 1 / (f1M - f1m) == 1 / (f1M - f1m) * 1) by ring.
    rewrite E. apply Hmid1. lia.
  - destruct (Hfr0 ltac:(lia)) as (Hs0 & Hl & Hr & Hmid0).
    break_in; subst e; cbn [e_coef]; try assumption.
    assert (E : 1 / (f0M - f0m) == 1 / (f0M - f0m) * 1) by ring.
    rewrite E. apply Hmid0. lia.
  - destruct (Hfr0 ltac:(lia)) as (Hs0 & Hl & Hr & Hmid0).
    destruct (Hfr1 ltac:(lia)) as (Hs1 & Hd & Hu & Hmid1).
    break_in; subst e; cbn [e_coef].
    + apply (unit_weight_2d _ _ _ _ _ Hs0 Hs1 Hl Hd). reflexivity.
    + apply (unit_weight_2d _ _ _ _ _ Hs0 Hs1 Hl Hu). reflexivity.
    + apply (unit_weight_2d _ _ _ _ _ Hs0 Hs1 Hr Hd). reflexivity.
    + apply (unit_weight_2d _ _ _ _ _ Hs0 Hs1 Hr Hu). reflexivity.
    + apply (unit_weight_2d _ _ _ _ _ Hs0 Hs1 (Hmid0 ltac:(lia)) Hd). field. lra.
    + apply (unit_weight_2d _ _ _ _ _ Hs0 Hs1 (Hmid0 ltac:(lia)) (Hmid1 ltac:(lia))).
      field. lra.
    + apply (unit_weight_2d _ _ _ _ _ Hs0 Hs1 (Hmid0 ltac:(lia)) Hu). field. lra.
    + apply (unit_weight_2d _ _ _ _ _ Hs0 Hs1 Hl (Hmid1 ltac:(lia))). field. lra.
    + apply (unit_weight_2d _ _ _ _ _ Hs0 Hs1 Hr (Hmid1 ltac:(lia))). field. lra.
Qed.

Lemma get_bin_number_mono (a b pos0_min delta : Q) :
  0 < delta -> a <= b ->
  get_bin_number a pos0_min delta <= get_bin_number b pos0_min delta.
Proof.
  intros Hd Hab. unfold get_bin_number, Qdiv.
  apply Qmult_le_compat_r; [lra|].
  apply Qlt_le_weak, Qinv_lt_0_compat. exact Hd.
Qed.

(** C7, counterexample: a pixel from [0.5] to [2.0] on unit bins ends on the
    left edge of bin 2; [calc_lut] inserts it in bin 2 with the weight
    [inv_area * (fbin0_max - bin0_max) = 0]. *)
Lemma calc_lut_inserts_zero_weight :
  exists e, In e (HistoBBox1d.calc_lut ex_on_edge_1d) /\
            e_bin e = 2%Z /\ e_coef e == 0 /\ ~ 0 < e_coef e.
Proof.
  exists (mk_entry 2 0 (0 # 3)). split; [|split; [|split]].
  - vm_compute. right. left. reflexivity.
  - reflexivity.
  - reflexivity.
  - vm_compute. discriminate.
Qed.

(** C7, amended: with at least one bin along each axis, positive bin widths
    and pixels whose lower bound is not above their upper bound, every entry
    of the tables of [HistoBBox1d.calc_lut] and [HistoBBox2d.calc_lut] has a
    weight in the closed interval [0, 1], and every entry of
    [calc_lut_nosplit] has the weight 1.  Nothing filters the weight 0, which
    is inserted when the upper end of a pixel falls on a bin edge. *)
Theorem lut_weights_in_closed_unit_interval
    (s1 : HistoBBox1d.self_t) (s2 : HistoBBox2d.self_t) :
  (1 <= HistoBBox1d.bins s1)%Z ->
  0 < HistoBBox1d.delta s1 ->
  (forall idx, (idx < HistoBBox1d.size s1)%nat ->
     nth idx (HistoBBox1d.cpos0_inf s1) 0 <= nth idx (HistoBBox1d.cpos0_sup s1) 0) ->
  (1 <= HistoBBox2d.bins0 s2)%Z -> (1 <= HistoBBox2d.bins1 s2)%Z ->
  0 < HistoBBox2d.delta0 s2 -> 0 < HistoBBox2d.delta1 s2 ->
  (forall idx, (idx < HistoBBox2d.size s2)%nat ->
     nth idx (HistoBBox2d.cpos0_inf s2) 0 <= nth idx (HistoBBox2d.cpos0_sup s2) 0 /\
     nth idx (HistoBBox2d.cpos1_inf s2) 0 <= nth idx (HistoBBox2d.cpos1_sup s2) 0) ->
  Forall (fun e => 0 <= e_coef e <= 1) (HistoBBox1d.calc_lut s1) /\
  Forall (fun e => e_coef e = 1) (HistoBBox1d.calc_lut_nosplit s1) /\
  Forall (fun e => 0 <= e_coef e <= 1) (HistoBBox2d.calc_lut s2).
Proof.
  intros Hb Hd Hpix Hb0 Hb1 Hd0 Hd1 Hpix2. split; [|split].
  - apply Forall_forall. intros e He.
    apply in_pixel_loop in He;
      [|apply calc_lut_1d_body_app | apply calc_lut_1d_body_tags].
    destruct He as [Hidx He].
    assert (HF : Forall (fun e => 0 <= e_coef e <= 1)
                        (HistoBBox1d.calc_lut_body s1 (e_idx e) [])).
    { unfold HistoBBox1d.calc_lut_body.
      destruct (masked _ _ _); [constructor|].
      destruct (HistoBBox1d.pos1_rejected _ _); [constructor|].
      apply lut_bins_1d_unit; [exact Hb|].
      apply get_bin_number_mono; [exact Hd | apply Hpix; exact Hidx]. }
    rewrite Forall_forall in HF. apply HF. exact He.
  - apply Forall_forall. intros e He.
    apply in_pixel_loop in He;
      [|apply calc_lut_nosplit_body_app | apply calc_lut_nosplit_body_tags].
    destruct He as [_ He]. unfold HistoBBox1d.calc_lut_nosplit_body in He.
    destruct (masked _ _ _); [destruct He|].
    destruct (HistoBBox1d.pos1_rejected _ _); [destruct He|].
    match type of He with context [if ?c then _ else _] => destruct c end;
      [destruct He|].
    destruct He as [<- | []]. reflexivity.
  - apply Forall_forall. intros e He.
    apply in_pixel_loop in He;
      [|apply calc_lut_2d_body_app | apply calc_lut_2d_body_tags].
    destruct He as [Hidx He].
    assert (HF : Forall (fun e => 0 <= e_coef e <= 1)
                        (HistoBBox2d.calc_lut_body s2 (e_idx e) [])).
    { unfold HistoBBox2d.calc_lut_body.
      destruct (masked _ _ _); [constructor|].
      destruct (Hpix2 _ Hidx) as [H0 H1].
      apply lut_bins_2d_unit; try assumption; apply get_bin_number_mono; assumption. }
    rewrite Forall_forall in HF. apply HF. exact He.
Qed.

Lemma lut_weights_in_closed_unit_interval_witness :
  Forall (fun e => 0 <= e_coef e <= 1) (HistoBBox1d.calc_lut ex_on_edge_1d) /\
  Forall (fun e => e_coef e = 1) (HistoBBox1d.calc_lut_nosplit ex_on_edge_1d) /\
  Forall (fun e => 0 <= e_coef e <= 1) (HistoBBox2d.calc_lut ex_split_2d).
Proof.
  apply (lut_weights_in_closed_unit_interval ex_on_edge_1d ex_split_2d).
  - simpl. lia.
  - reflexivity.
  - intros [|idx] H; [vm_compute; discriminate | simpl in H; lia].
  - simpl. lia.
  - simpl. lia.
  - reflexivity.
  - reflexivity.
  - intros [|idx] H; [split; vm_compute; discriminate | simpl in H; lia].
Defined.

(** ** Masked pixels and the tables *)

(** No masked pixel has an entry in a table, with or without splitting, in
    one or in two dimensions. *)
Lemma masked_pixel_not_in_lut (s1 : HistoBBox1d.self_t) (s2 : HistoBBox2d.self_t)
    (e : lut_entry) :
  (In e (HistoBBox1d.calc_lut s1) \/ In e (HistoBBox1d.calc_lut_nosplit s1) ->
   masked (HistoBBox1d.check_mask s1) (HistoBBox1d.cmask s1) (e_idx e) = false) /\
  (In e (HistoBBox2d.calc_lut s2) ->
   masked (HistoBBox2d.check_mask s2) (HistoBBox2d.cmask s2) (e_idx e) = false).
Proof.
  split.
  - intros [He | He].
    + apply in_pixel_loop in He;
        [|apply calc_lut_1d_body_app | apply calc_lut_1d_body_tags].
      destruct He as [_ He]. unfold HistoBBox1d.calc_lut_body in He.
      destruct (masked _ _ _); [destruct He | reflexivity].
    + apply in_pixel_loop in He;
        [|apply calc_lut_nosplit_body_app | apply calc_lut_nosplit_body_tags].
      destruct He as [_ He]. unfold HistoBBox1d.calc_lut_nosplit_body in He.
      destruct (masked _ _ _); [destruct He | reflexivity].
  - intro He.
    apply in_pixel_loop in He;
      [|apply calc_lut_2d_body_app | apply calc_lut_2d_body_tags].
    destruct He as [_ He]. unfold HistoBBox2d.calc_lut_body in He.
    destruct (masked _ _ _); [destruct He | reflexivity].
Qed.

(** The entries of one pixel of [calc_lut_nosplit]: one entry of weight 1 in
    the bin [<int> fbin0] when it is in [0, bins), none otherwise; the cast
    is the floor on non-negative values only. *)
Lemma calc_lut_nosplit_pixel (self : HistoBBox1d.self_t) (idx : nat) :
  (idx < HistoBBox1d.size self)%nat ->
  masked (HistoBBox1d.check_mask self) (HistoBBox1d.cmask self) idx = false ->
  HistoBBox1d.pos1_rejected self idx = false ->
  let fbin0 := get_bin_number (nth idx (HistoBBox1d.cpos0 self) 0)
                 (HistoBBox1d.pos0_min self) (HistoBBox1d.delta self) in
  let emitted := entries_of idx (HistoBBox1d.calc_lut_nosplit self) in
  ((0 <= Qtrunc fbin0 < HistoBBox1d.bins self)%Z ->
     emitted = [mk_entry (Qtrunc fbin0) idx 1]) /\
  (~ (0 <= Qtrunc fbin0 < HistoBBox1d.bins self)%Z -> emitted = []) /\
  ((0 <= Qfloor fbin0 < HistoBBox1d.bins self)%Z ->
     emitted = [mk_entry (Qfloor fbin0) idx 1]).
Proof.
  intros Hidx Hmask Hpos1 fbin0 emitted.
  assert (Hem : emitted =
    if (Qtrunc fbin0 <? 0)%Z || (Qtrunc fbin0 >=? HistoBBox1d.bins self)%Z then []
    else [mk_entry (Qtrunc fbin0) idx 1]).
  { unfold emitted, HistoBBox1d.calc_lut_nosplit.
    rewrite entries_of_pixel_loop;
      [|apply calc_lut_nosplit_body_app | apply calc_lut_nosplit_body_tags | exact Hidx].
    unfold HistoBBox1d.calc_lut_nosplit_body. rewrite Hmask, Hpos1. reflexivity. }
  rewrite Hem. split; [|split].
  - intro H. replace (Qtrunc fbin0 <? 0)%Z with false by lia.
    replace (Qtrunc fbin0 >=? HistoBBox1d.bins self)%Z with false by lia. reflexivity.
  - intro H. destruct (Z.ltb_spec (Qtrunc fbin0) 0); [reflexivity|].
    destruct (Z.geb_spec (Qtrunc fbin0) (HistoBBox1d.bins self)); [reflexivity | lia].
  - intro H.
    assert (Hpos : 0 <= fbin0).
    { destruct (Qlt_le_dec fbin0 0) as [Hneg | Hok]; [|exact Hok].
      assert (Hfl : (Qfloor fbin0 <= -1)%Z).
      { assert (Hlt : inject_Z (Qfloor fbin0) < inject_Z 0).
        { apply Qle_lt_trans with fbin0; [apply Qfloor_le | exact Hneg]. }
        rewrite <- Zlt_Qlt in Hlt. lia. }
      lia. }
    rewrite (Qtrunc_nonneg _ Hpos).
    replace (Qfloor fbin0 <? 0)%Z with false by lia.
    replace (Qfloor fbin0 >=? HistoBBox1d.bins self)%Z with false by lia. reflexivity.
Qed.

(** *** Every power of two: the odd threads are dropped

    On a ramp, the even threads of [reduce1] only see even values.  The
    rounds merge slot [i + active_threads] into slot [i] with
    [active_threads] even down to the last round, so the parity of the slots
    is kept, and [preresult] takes slot 0 only. *)

Lemma nth_store {A : Type} (m n : nat) (v d : A) (l : list A) :
  nth m (store n v l) d =
  if Nat.eqb m n && Nat.ltb n (List.length l) then v else nth m l d.
Proof.
  revert m n. induction l as [|x l IH]; intros m n.
  - destruct n; simpl; rewrite andb_false_r; destruct m; reflexivity.
  - destruct n as [|n]; destruct m as [|m]; try reflexivity.
    cbn [store nth List.length]. rewrite IH. reflexivity.
Qed.

Lemma nth_zrange (lo hi : Z) (n : nat) (d : Z) :
  (n < Z.to_nat (hi - lo))%nat -> nth n (zrange lo hi) d = (lo + Z.of_nat n)%Z.
Proof.
  intro H. unfold zrange.
  rewrite (nth_indep _ d (lo + Z.of_nat 0)%Z) by (rewrite length_map, length_seq; exact H).
  rewrite (map_nth (fun k => (lo + Z.of_nat k)%Z)), seq_nth by exact H. reflexivity.
Qed.

Lemma even_zero2 : even_pair Reduction.zero2.
Proof. split; exists 0%Z; reflexivity. Qed.

Lemma ramp_even (N : nat) (i : Z) :
  (0 <= i)%Z -> Z.even i = true ->
  even_float (nth (Z.to_nat i) (Reduction.ramp N) (Reduction.Finite 0)).
Proof.
  intros Hi Hev. unfold Reduction.ramp.
  change (Reduction.Finite 0)
    with ((fun i => Reduction.Finite (inject_Z (Z.of_nat i))) O).
  rewrite map_nth. cbv beta.
  destruct (Nat.lt_ge_cases (Z.to_nat i) N) as [Hlt | Hge].
  - rewrite seq_nth by exact Hlt. rewrite Nat.add_0_l, Z2Nat.id by exact Hi.
    apply Zeven_bool_iff, Zeven_ex in Hev. destruct Hev as [k ->].
    exists k. reflexivity.
  - rewrite nth_overflow by (rewrite length_seq; exact Hge).
    exists 0%Z. reflexivity.
Qed.

Lemma accumulate_even (fuel : nat) (N : nat) (length global_index global_size : Z)
    (accumulator r : Reduction.float2) :
  (0 <= global_index)%Z -> Z.even global_index = true ->
  (0 <= global_size)%Z -> Z.even global_size = true ->
  even_pair accumulator ->
  Reduction.accumulate fuel (Reduction.ramp N) length global_index global_size
                       accumulator = Some r ->
  even_pair r.
Proof.
  revert global_index accumulator.
  induction fuel as [|fuel IH]; intros gi acc Hgi Hev Hgs Hevs Hacc;
    cbn [Reduction.accumulate]; destruct (gi <? length)%Z;
    try discriminate; try (intro H; injection H as <-; exact Hacc).
  apply IH.
  - lia.
  - rewrite Z.even_add, Hev, Hevs. reflexivity.
  - exact Hgs.
  - exact Hevs.
  - pose proof (ramp_even N gi Hgi Hev) as Hel. destruct Hacc as [Hx Hy].
    split; cbn [fst snd].
    + destruct (Reduction.flt _ _); assumption.
    + destruct (Reduction.fgt _ _); assumption.
Qed.

Lemma option_all_map_nth {A B : Type} (f : A -> option B) (l : list A) (s : list B)
    (n : nat) (d : A) (d' : B) :
  Reduction.option_all (map f l) = Some s ->
  (n < List.length l)%nat ->
  f (nth n l d) = Some (nth n s d').
Proof.
  revert s n. induction l as [|a l IH]; intros s n H Hn; [simpl in Hn; lia|].
  cbn [map Reduction.option_all] in H.
  destruct (f a) as [b|] eqn:Ea; [|discriminate]. cbn [Reduction.option_bind] in H.
  destruct (Reduction.option_all (map f l)) as [s'|] eqn:Es; [|discriminate].
  cbn [Reduction.option_bind] in H. injection H as <-.
  destruct n as [|n]; [exact Ea|].
  cbn [nth]. apply IH; [reflexivity | simpl in Hn; lia].
Qed.

Lemma option_all_length {A B : Type} (f : A -> option B) (l : list A) (s : list B) :
  Reduction.option_all (map f l) = Some s -> List.length s = List.length l.
Proof.
  revert s. induction l as [|a l IH]; intros s H.
  - injection H as <-. reflexivity.
  - cbn [map Reduction.option_all] in H.
    destruct (f a) as [b|]; [|discriminate]. cbn [Reduction.option_bind] in H.
    destruct (Reduction.option_all (map f l)) as [s'|]; [|discriminate].
    cbn [Reduction.option_bind] in H. injection H as <-.
    simpl. rewrite (IH s') by reflexivity. reflexivity.
Qed.

Lemma merge_pair_even (mine other : Reduction.float2) :
  even_pair mine -> even_pair other ->
  even_pair (if Reduction.flt (fst mine) (fst other) then fst mine else fst other,
             if Reduction.fgt (snd mine) (snd other) then snd mine else snd other).
Proof.
  intros [Hx Hy] [Hx' Hy']. split; cbn [fst snd].
  - destruct (Reduction.flt _ _); assumption.
  - destruct (Reduction.fgt _ _); assumption.
Qed.

Lemma merge_step_all (active local_index : Z) (scratch : list Reduction.float2) :
  all_lanes scratch -> all_lanes (Reduction.merge_step active local_index scratch).
Proof.
  intros H n. unfold Reduction.merge_step.
  destruct (Reduction.thread_id_loc local_index <? active)%Z; [|apply H].
  rewrite nth_store. destruct (_ && _); [|apply H].
  apply merge_pair_even; apply H.
Qed.

Lemma merge_step_even (active local_index : Z) (scratch : list Reduction.float2) :
  (0 <= active)%Z -> Z.even active = true -> (0 <= local_index)%Z ->
  even_lanes scratch -> even_lanes (Reduction.merge_step active local_index scratch).
Proof.
  intros Ha Hev Hl H n Hn. unfold Reduction.merge_step.
  destruct (Reduction.thread_id_loc local_index <? active)%Z; [|apply H; exact Hn].
  rewrite nth_store.
  destruct (Nat.eqb_spec n (Z.to_nat local_index)) as [-> | Hne];
    [|apply H; exact Hn].
  destruct (Nat.ltb _ _); [|apply H; exact Hn]. cbn [andb].
  apply merge_pair_even; apply H; [exact Hn|].
  rewrite Z2Nat.inj_add by lia. rewrite Nat.even_add, Hn.
  replace (Nat.even (Z.to_nat active)) with true; [reflexivity|].
  symmetry. apply Zeven_bool_iff, Zeven_ex in Hev. destruct Hev as [k ->].
  replace (Z.to_nat (2 * k)) with (2 * Z.to_nat k)%nat by lia.
  rewrite Nat.even_mul. reflexivity.
Qed.

Lemma round_all (local_size active : Z) (scratch : list Reduction.float2) :
  all_lanes scratch -> all_lanes (Reduction.round local_size active scratch).
Proof.
  unfold Reduction.round, for_range. revert scratch.
  induction (zrange 0 local_size) as [|l ls IH]; intros scratch H; [exact H|].
  cbn [fold_left]. apply IH, merge_step_all, H.
Qed.

Lemma round_even (local_size active : Z) (scratch : list Reduction.float2) :
  (0 <= active)%Z -> Z.even active = true ->
  even_lanes scratch -> even_lanes (Reduction.round local_size active scratch).
Proof.
  intros Ha Hev. unfold Reduction.round, for_range.
  assert (Hpos : forall l, In l (zrange 0 local_size) -> (0 <= l)%Z)
    by (intros l Hl; apply in_zrange in Hl; lia).
  revert scratch Hpos.
  induction (zrange 0 local_size) as [|l ls IH]; intros scratch Hpos H; [exact H|].
  cbn [fold_left]. apply IH.
  - intros l' Hl'. apply Hpos. right. exact Hl'.
  - apply merge_step_even; try assumption. apply Hpos. left. reflexivity.
Qed.

Lemma halving_all (fuel : nat) (local_size active : Z) (scratch r : list Reduction.float2) :
  all_lanes scratch ->
  Reduction.halving fuel local_size active scratch = Some r -> all_lanes r.
Proof.
  revert active scratch. induction fuel as [|fuel IH]; intros active scratch H;
    cbn [Reduction.halving]; destruct (active =? 2)%Z;
    try discriminate; try (intro E; injection E as <-; exact H).
  apply IH, round_all, H.
Qed.

Lemma halving_even (k : nat) (fuel : nat) (local_size : Z)
    (scratch r : list Reduction.float2) :
  even_lanes scratch ->
  Reduction.halving fuel local_size (2 * 2 ^ Z.of_nat k) scratch = Some r ->
  even_lanes r.
Proof.
  revert fuel scratch. induction k as [|k IH]; intros fuel scratch H.
  - change (2 * 2 ^ Z.of_nat 0)%Z with 2%Z.
    destruct fuel; cbn [Reduction.halving]; change (2 =? 2)%Z with true; cbv iota;
      intro E; injection E as <-; exact H.
  - assert (Hpow : (0 < 2 ^ Z.of_nat k)%Z) by (apply Z.pow_pos_nonneg; lia).
    assert (Hexp : (2 ^ Z.of_nat (S k) = 2 * 2 ^ Z.of_nat k)%Z).
    { rewrite Nat2Z.inj_succ, Z.pow_succ_r by lia. reflexivity. }
    rewrite Hexp.
    destruct fuel as [|fuel]; cbn [Reduction.halving];
      destruct (Z.eqb_spec (2 * (2 * 2 ^ Z.of_nat k)) 2) as [E | _];
      try lia; try discriminate.
    replace (Z.quot (2 * (2 * 2 ^ Z.of_nat k)) 2) with (2 * 2 ^ Z.of_nat k)%Z.
    2:{ rewrite (Z.mul_comm 2 (2 * 2 ^ Z.of_nat k)), Z.quot_mul by lia. reflexivity. }
    apply IH. apply round_even; [lia | | exact H].
    rewrite Z.even_mul. reflexivity.
Qed.

Lemma reduce1_group_even (k fuel N : nat) (length global_size group_id : Z)
    (r : Reduction.float2) :
  (0 <= global_size)%Z -> Z.even global_size = true -> (0 <= group_id)%Z ->
  Reduction.reduce1_group fuel (2 * 2 ^ Z.of_nat k) (Reduction.ramp N) length
                          global_size group_id = Some r ->
  even_pair r.
Proof.
  intros Hgs Hevs Hg. unfold Reduction.reduce1_group.
  set (WG := (2 * 2 ^ Z.of_nat k)%Z).
  assert (Hpow : (0 < 2 ^ Z.of_nat k)%Z) by (apply Z.pow_pos_nonneg; lia).
  destruct (Reduction.option_all _) as [scratch|] eqn:Es; [|discriminate].
  cbn [Reduction.option_bind].
  destruct (Reduction.halving _ _ _ _) as [scratch'|] eqn:Eh; [|discriminate].
  cbn [Reduction.option_bind]. intro E. injection E as <-.
  apply (halving_even k fuel WG scratch scratch'); [|exact Eh|reflexivity].
  intros n Hn.
  destruct (Nat.lt_ge_cases n (List.length (zrange 0 WG))) as [Hlt | Hge].
  - pose proof (option_all_map_nth _ _ _ n 0%Z Reduction.zero2 Es Hlt) as Hacc.
    cbv beta in Hacc. rewrite zrange_length in Hlt.
    rewrite nth_zrange in Hacc by exact Hlt.
    apply Nat.even_spec in Hn. destruct Hn as [m ->].
    apply accumulate_even in Hacc; try assumption.
    + unfold WG in *. lia.
    + rewrite Z.add_0_l, Z.even_add, Nat2Z.inj_mul, !Z.even_mul.
      unfold WG. rewrite Z.even_mul. cbn [Z.even orb Z.of_nat Pos.of_succ_nat Pos.succ].
      rewrite orb_true_r. reflexivity.
    + split; exact I.
  - rewrite nth_overflow; [apply even_zero2|].
    rewrite (option_all_length _ _ _ Es). exact Hge.
Qed.

Lemma nth_all_lanes (l : list Reduction.float2) :
  Forall even_pair l -> all_lanes l.
Proof.
  intros H n. destruct (Nat.lt_ge_cases n (List.length l)) as [Hlt | Hge].
  - rewrite Forall_forall in H. apply H, nth_In, Hlt.
  - rewrite nth_overflow by exact Hge. apply even_zero2.
Qed.

Lemma reduce1_even (k fuel N : nat) (groups length : Z) (preresult : list Reduction.float2) :
  (0 <= groups)%Z ->
  Reduction.reduce1 fuel (2 * 2 ^ Z.of_nat k) groups (Reduction.ramp N) length
    = Some preresult ->
  all_lanes preresult.
Proof.
  intros Hg H n. unfold Reduction.reduce1 in H.
  assert (Hpow : (0 < 2 ^ Z.of_nat k)%Z) by (apply Z.pow_pos_nonneg; lia).
  destruct (Nat.lt_ge_cases n (List.length (zrange 0 groups))) as [Hlt | Hge].
  - pose proof (option_all_map_nth _ _ _ n 0%Z Reduction.zero2 H Hlt) as Hr.
    cbv beta in Hr. rewrite zrange_length in Hlt.
    rewrite nth_zrange in Hr by exact Hlt.
    apply reduce1_group_even in Hr; [exact Hr | nia | | lia].
    rewrite !Z.even_mul. cbn [Z.even orb]. rewrite orb_true_r. reflexivity.
  - rewrite nth_overflow; [apply even_zero2|].
    rewrite (option_all_length _ _ _ H). exact Hge.
Qed.

Lemma reduce2_even (fuel : nat) (WORKGROUP_SIZE : Z) (preresult : list Reduction.float2)
    (a b c d : Reduction.float) :
  all_lanes preresult ->
  Reduction.reduce2 fuel WORKGROUP_SIZE preresult = Some (a, b, c, d) ->
  even_float a /\ even_float b /\ even_float c /\ even_float d.
Proof.
  intros Hpre. unfold Reduction.reduce2.
  destruct (Reduction.halving _ _ _ _) as [scratch|] eqn:Eh; [|discriminate].
  cbn [Reduction.option_bind]. intro E. injection E as <- <- <- <-.
  apply halving_all in Eh.
  - pose proof (Eh 0%nat) as [H0 H0']. pose proof (Eh 1%nat) as [H1 H1'].
    repeat split; assumption.
  - apply nth_all_lanes, Forall_forall. intros p Hp.
    apply in_map_iff in Hp. destruct Hp as [l [<- _]]. apply Hpre.
Qed.

(** For every workgroup size [2 * 2^k] and every ramp of even size [N = 2 m]
    (every multiple of the workgroup size is one), whatever the two stages
    return holds even values or infinities only: no component is the maximum
    [N - 1] of the ramp. *)
Lemma two_stage_never_yields_ramp_maximum (k fuel m : nat)
    (a b c d : Reduction.float) :
  Reduction.two_stage fuel (2 * 2 ^ Z.of_nat k) (Reduction.ramp (2 * m))
    = Some (a, b, c, d) ->
  let last := Reduction.Finite (inject_Z (Z.of_nat (2 * m) - 1)) in
  a <> last /\ b <> last /\ c <> last /\ d <> last.
Proof.
  unfold Reduction.two_stage.
  destruct (Reduction.reduce1 _ _ _ _ _) as [preresult|] eqn:E1; [|discriminate].
  cbn [Reduction.option_bind]. intro E2.
  assert (Hpow : (0 < 2 ^ Z.of_nat k)%Z) by (apply Z.pow_pos_nonneg; lia).
  apply reduce1_even in E1; [|lia].
  apply (reduce2_even _ _ _ _ _ _ _ E1) in E2.
  assert (Hodd : ~ even_float (Reduction.Finite (inject_Z (Z.of_nat (2 * m) - 1)))).
  { intros [j Hj]. unfold inject_Z in Hj.
    assert (Hz : (Z.of_nat (2 * m) - 1 = 2 * j)%Z) by congruence.
    lia. }
  destruct E2 as (Ha & Hb & Hc & Hd).
  cbv zeta. repeat split; intro E; subst; contradiction.
Qed.

(** The same loss for workgroups of four and of eight threads. *)
Lemma two_stage_ramp_16_and_64 :
  Reduction.two_stage 16 4 (Reduction.ramp 16) =
    Some (Reduction.Finite 0, Reduction.Finite 10,
          Reduction.Finite 4, Reduction.Finite 14) /\
  Reduction.two_stage 64 8 (Reduction.ramp 64) =
    Some (Reduction.Finite 0, Reduction.Finite 54,
          Reduction.Finite 8, Reduction.Finite 62).
Proof. split; vm_compute; reflexivity. Qed.

(** ** More on the casts and on the scans *)

Lemma Qtrunc_just_below_zero (q : Q) :
  - (1) < q -> q < 0 -> Qtrunc q = 0%Z /\ Qfloor q = (-1)%Z.
Proof.
  intros Hlo Hhi. split.
  - pose proof (Qtrunc_sign_neg q ltac:(lra)) as Hs.
    pose proof (Qtrunc_ge_self q ltac:(lra)) as Hg.
    assert (Hlt : inject_Z (-1) < inject_Z (Qtrunc q)).
    { change (inject_Z (-1)) with (- (1)). lra. }
    rewrite <- Zlt_Qlt in Hlt. lia.
  - pose proof (Qfloor_le q) as Hf. pose proof (Qlt_floor q) as Hu.
    assert (H1 : inject_Z (Qfloor q) < inject_Z 0).
    { change (inject_Z 0) with 0. lra. }
    assert (H2 : inject_Z (-1) < inject_Z (Qfloor q + 1)).
    { change (inject_Z (-1)) with (- (1)). lra. }
    rewrite <- Zlt_Qlt in H1, H2. lia.
Qed.

(** Every unmasked pixel of [calc_lut_nosplit] whose fractional bin is
    between [-1] and [0] is below the range, with the bin [floor = -1], and
    is inserted in bin 0 all the same. *)
Lemma calc_lut_nosplit_below_range (self : HistoBBox1d.self_t) (idx : nat) :
  (idx < HistoBBox1d.size self)%nat ->
  masked (HistoBBox1d.check_mask self) (HistoBBox1d.cmask self) idx = false ->
  HistoBBox1d.pos1_rejected self idx = false ->
  (1 <= HistoBBox1d.bins self)%Z ->
  let fbin0 := get_bin_number (nth idx (HistoBBox1d.cpos0 self) 0)
                 (HistoBBox1d.pos0_min self) (HistoBBox1d.delta self) in
  - (1) < fbin0 -> fbin0 < 0 ->
  Qfloor fbin0 = (-1)%Z /\
  entries_of idx (HistoBBox1d.calc_lut_nosplit self) = [mk_entry 0 idx 1].
Proof.
  intros Hidx Hmask Hpos1 Hbins fbin0 Hlo Hhi.
  destruct (Qtrunc_just_below_zero fbin0 Hlo Hhi) as [Ht Hf].
  split; [exact Hf|].
  destruct (calc_lut_nosplit_pixel self idx Hidx Hmask Hpos1) as [Hin _].
  fold fbin0 in Hin. rewrite Ht in Hin. apply Hin. lia.
Qed.

(** Every unmasked pixel of [calc_lut] whose fractional bin range lies
    between [-1] and [0] is below the range, with both floors [-1], and is
    inserted in bin 0 with the weight 1 all the same. *)
Lemma calc_lut_1d_below_range (self : HistoBBox1d.self_t) (idx : nat) :
  (idx < HistoBBox1d.size self)%nat ->
  masked (HistoBBox1d.check_mask self) (HistoBBox1d.cmask self) idx = false ->
  HistoBBox1d.pos1_rejected self idx = false ->
  (1 <= HistoBBox1d.bins self)%Z ->
  let fbin0_min := get_bin_number (nth idx (HistoBBox1d.cpos0_inf self) 0)
                     (HistoBBox1d.pos0_min self) (HistoBBox1d.delta self) in
  let fbin0_max := get_bin_number (nth idx (HistoBBox1d.cpos0_sup self) 0)
                     (HistoBBox1d.pos0_min self) (HistoBBox1d.delta self) in
  - (1) < fbin0_min -> fbin0_min <= fbin0_max -> fbin0_max < 0 ->
  Qfloor fbin0_min = (-1)%Z /\ Qfloor fbin0_max = (-1)%Z /\
  entries_of idx (HistoBBox1d.calc_lut self) = [mk_entry 0 idx 1].
Proof.
  intros Hidx Hmask Hpos1 Hbins fmin fmax Hlo Hle Hhi.
  destruct (Qtrunc_just_below_zero fmin Hlo ltac:(lra)) as [Htm Hfm].
  destruct (Qtrunc_just_below_zero fmax ltac:(lra) Hhi) as [HtM HfM].
  split; [exact Hfm|]. split; [exact HfM|].
  rewrite calc_lut_1d_pixel by exact Hidx.
  unfold HistoBBox1d.calc_lut_body. rewrite Hmask, Hpos1.
  fold fmin fmax. unfold HistoBBox1d.lut_bins. rewrite Htm, HtM.
  replace (0 >=? HistoBBox1d.bins self)%Z with false by lia.
  reflexivity.
Qed.

(** C1: the splitting loop converts the fractional bins with C casts, which
    truncate toward zero.  A pixel from [0.25] to [0.75], for the explicit
    range [(1, 5)] and four bins, has its fractional bin range inside
    [(-1, 0)], entirely outside [0, 4), with both floors [-1]; the casts give
    the bins 0 and 0, the test of line 313 keeps the pixel and the loop
    inserts it in bin 0 with the weight 1. *)
Theorem calc_lut_keeps_pixel_below_range :
  exists obj,
    snd (HistoBBox1d.init upper_bound_eps args_split_below_range) = Ok obj /\
    let s := HistoBBox1d.self obj in
    let fbin0_min := get_bin_number (nth 0 (HistoBBox1d.cpos0_inf s) 0)
                       (HistoBBox1d.pos0_min s) (HistoBBox1d.delta s) in
    let fbin0_max := get_bin_number (nth 0 (HistoBBox1d.cpos0_sup s) 0)
                       (HistoBBox1d.pos0_min s) (HistoBBox1d.delta s) in
    HistoBBox1d.splitting obj = true /\
    masked (HistoBBox1d.check_mask s) (HistoBBox1d.cmask s) 0 = false /\
    HistoBBox1d.pos1_rejected s 0 = false /\
    0 < HistoBBox1d.delta s /\
    - (1) < fbin0_min /\ fbin0_min < fbin0_max /\ fbin0_max < 0 /\
    Qfloor fbin0_min = (-1)%Z /\ Qfloor fbin0_max = (-1)%Z /\
    Qtrunc fbin0_min = 0%Z /\ Qtrunc fbin0_max = 0%Z /\
    HistoBBox1d.lut obj = [mk_entry 0 0 1].
Proof.
  eexists. split; [vm_compute; reflexivity|].
  vm_compute. repeat split; reflexivity.
Qed.

Lemma pixel_loop_S {S : Type} (n : nat) (body : nat -> S -> S) (s : S) :
  pixel_loop (Datatypes.S n) body s = body n (pixel_loop n body s).
Proof.
  unfold pixel_loop. rewrite seq_S, fold_left_app. reflexivity.
Qed.

Lemma store_length {A : Type} (n : nat) (v : A) (l : list A) :
  List.length (store n v l) = List.length l.
Proof.
  revert n. induction l as [|x l IH]; intro n; destruct n; simpl; auto.
Qed.

(** The arrays left by the scan of [HistoBBox1d.calc_boundaries]: for every
    pixel, masked or not, [cpos0_sup] holds [c + d] and [cpos0_inf] holds
    [c - d], which is not clamped. *)
Lemma calc_boundaries_1d_arrays (calc_upper_bound : Q -> Q)
    (allow_pos0_neg check_mask : bool) (cmask : list Z) (cpos0 dpos0 : list Q)
    (pos0_range : option (Q * Q)) (idx : nat) :
  (idx < List.length cpos0)%nat ->
  let b := HistoBBox1d.calc_boundaries calc_upper_bound allow_pos0_neg check_mask
             cmask cpos0 dpos0 pos0_range in
  nth idx (HistoBBox1d.b_cpos0_inf b) 0 = nth idx cpos0 0 - nth idx dpos0 0 /\
  nth idx (HistoBBox1d.b_cpos0_sup b) 0 = nth idx cpos0 0 + nth idx dpos0 0.
Proof.
  intros Hidx b. unfold b, HistoBBox1d.calc_boundaries.
  set (body := HistoBBox1d.calc_boundaries_body allow_pos0_neg check_mask cmask
                 cpos0 dpos0).
  set (seed := if negb allow_pos0_neg && Qltb (nth 0 cpos0 0) 0 then 0
               else nth 0 cpos0 0).
  assert (Hinv : forall n, (n <= List.length cpos0)%nat ->
     let st := pixel_loop n body (empty_like cpos0, empty_like cpos0, seed, seed) in
     List.length (fst (fst (fst st))) = List.length cpos0 /\
     List.length (snd (fst (fst st))) = List.length cpos0 /\
     forall i, (i < n)%nat ->
       nth i (snd (fst (fst st))) 0 = nth i cpos0 0 - nth i dpos0 0 /\
       nth i (fst (fst (fst st))) 0 = nth i cpos0 0 + nth i dpos0 0).
  { induction n as [|n IH]; intro Hn.
    - cbn. unfold empty_like. rewrite repeat_length. repeat split; lia.
    - rewrite pixel_loop_S. specialize (IH ltac:(lia)). cbv zeta in IH.
      destruct (pixel_loop n body _) as [[[sup inf] pmax] pmin].
      cbn [fst snd] in IH. destruct IH as (Hls & Hli & Hnth).
      unfold body, HistoBBox1d.calc_boundaries_body.
      cbv zeta. destruct (negb (masked check_mask cmask n)); cbn [fst snd].
      all: rewrite !store_length; split; [assumption|]; split; [assumption|]; intros i Hi.
      all: rewrite !nth_store; destruct (Nat.eqb_spec i n) as [-> | Hne];
        [ replace (Nat.ltb n (List.length inf)) with true
            by (symmetry; apply Nat.ltb_lt; lia);
          replace (Nat.ltb n (List.length sup)) with true
            by (symmetry; apply Nat.ltb_lt; lia);
          split; reflexivity
        | apply Hnth; lia ]. }
  specialize (Hinv (List.length cpos0) (Nat.le_refl _)). cbv zeta in Hinv.
  destruct (pixel_loop _ body _) as [[[sup inf] pmax] pmin].
  cbn [fst snd] in Hinv. destruct Hinv as (_ & _ & Hnth).
  unfold HistoBBox1d.finish_bounds.
  destruct (match pos0_range with Some r => r | None => (pmin, pmax) end).
  cbn [HistoBBox1d.b_cpos0_inf HistoBBox1d.b_cpos0_sup].
  apply Hnth. exact Hidx.
Qed.

(** Without an explicit range, the maximum found by
    [HistoBBox1d.calc_boundaries] is never below the coordinate of pixel 0,
    whatever the mask says of that pixel. *)
Lemma calc_boundaries_1d_max_above_first (calc_upper_bound : Q -> Q)
    (allow_pos0_neg check_mask : bool) (cmask : list Z) (cpos0 dpos0 : list Q) :
  allow_pos0_neg = true \/ 0 <= nth 0 cpos0 0 ->
  nth 0 cpos0 0 <=
  HistoBBox1d.b_pos0_maxin
    (HistoBBox1d.calc_boundaries calc_upper_bound allow_pos0_neg check_mask
       cmask cpos0 dpos0 None).
Proof.
  intro Hseed. unfold HistoBBox1d.calc_boundaries.
  set (body := HistoBBox1d.calc_boundaries_body allow_pos0_neg check_mask cmask
                 cpos0 dpos0).
  set (seed := if negb allow_pos0_neg && Qltb (nth 0 cpos0 0) 0 then 0
               else nth 0 cpos0 0).
  assert (Hs : seed = nth 0 cpos0 0).
  { unfold seed. destruct Hseed as [-> | Hpos]; [reflexivity|].
    replace (Qltb (nth 0 cpos0 0) 0) with false
      by (symmetry; apply Qltb_ge; exact Hpos).
    rewrite andb_false_r. reflexivity. }
  rewrite <- Hs.
  assert (Hinv : forall n,
     seed <= snd (fst (pixel_loop n body (empty_like cpos0, empty_like cpos0, seed, seed)))).
  { induction n as [|n IH]; [cbn; lra|].
    rewrite pixel_loop_S.
    destruct (pixel_loop n body _) as [[[sup inf] pmax] pmin]. cbn [fst snd] in IH.
    unfold body, HistoBBox1d.calc_boundaries_body. cbv zeta.
    destruct (negb (masked check_mask cmask n)); cbn [fst snd]; [|exact IH].
    destruct (Qgtb _ pmax) eqn:E; [|exact IH].
    apply Qltb_lt in E. lra. }
  specialize (Hinv (List.length cpos0)).
  destruct (pixel_loop _ body _) as [[[sup inf] pmax] pmin]. cbn [fst snd] in Hinv.
  exact Hinv.
Qed.

(** * Further properties of the builders *)

Ltac zbool :=
  repeat match goal with
  | H : context [(?a <? ?b)%Z] |- _ => destruct (Z.ltb_spec a b)
  | H : context [(?a >=? ?b)%Z] |- _ => destruct (Z.geb_spec a b)
  | H : context [(?a =? ?b)%Z] |- _ => destruct (Z.eqb_spec a b)
  | |- context [(?a <? ?b)%Z] => destruct (Z.ltb_spec a b)
  | |- context [(?a >=? ?b)%Z] => destruct (Z.geb_spec a b)
  | |- context [(?a =? ?b)%Z] => destruct (Z.eqb_spec a b)
  end.

(** ** Indices of the entries *)

(** X1: with at least one bin, every entry that [HistoBBox1d.calc_lut]
    inserts has a bin index in [0, bins) and a pixel index below [size],
    whatever the coordinates are: clipping keeps the first and last bins
    inside the table. *)
Theorem calc_lut_1d_entries_in_range (self : HistoBBox1d.self_t) :
  (1 <= HistoBBox1d.bins self)%Z ->
  Forall (fun e => (0 <= e_bin e < HistoBBox1d.bins self)%Z /\
                   (e_idx e < HistoBBox1d.size self)%nat)
         (HistoBBox1d.calc_lut self).
Proof.
  intro Hb. apply Forall_forall. intros e He.
  apply in_pixel_loop in He; [|apply calc_lut_1d_body_app | apply calc_lut_1d_body_tags].
  destruct He as [Hidx He]. split; [|exact Hidx].
  clear Hidx. generalize dependent (e_idx e). intros idx He.
  unfold HistoBBox1d.calc_lut_body in He.
  destruct (masked _ _ _); [destruct He|].
  destruct (HistoBBox1d.pos1_rejected _ _); [destruct He|].
  unfold HistoBBox1d.lut_bins in He.
  set (fmin := get_bin_number (nth _ (HistoBBox1d.cpos0_inf self) 0) _ _) in He.
  set (fmax := get_bin_number (nth _ (HistoBBox1d.cpos0_sup self) 0) _ _) in He.
  destruct ((Qtrunc fmax <? 0)%Z || (Qtrunc fmin >=? HistoBBox1d.bins self)%Z) eqn:Hk;
    [destruct He|].
  apply orb_false_iff in Hk. destruct Hk as [Hk1 Hk2].
  match type of He with context [if ?c then cinsert _ _ _ _ else _] =>
    destruct c end.
  - unfold cinsert in He. cbn [app] in He.
    destruct He as [<- | []]. cbn [e_bin]. zbool; lia.
  - rewrite split_insert_app in He. break_in; subst e; cbn [e_bin]; zbool; lia.
Qed.

Lemma calc_lut_1d_entries_in_range_witness :
  Forall (fun e => (0 <= e_bin e < 4)%Z /\ (e_idx e < 1)%nat)
         (HistoBBox1d.calc_lut ex_clipped_1d).
Proof.
  apply (calc_lut_1d_entries_in_range ex_clipped_1d). simpl. lia.
Defined.

Lemma filter_none {A : Type} (f : A -> bool) (l : list A) :
  (forall x, In x l -> f x = false) -> filter f l = [].
Proof.
  induction l as [|x l IH]; intro H; [reflexivity|].
  simpl. rewrite (H x (or_introl eq_refl)). apply IH.
  intros y Hy. apply H. right. exact Hy.
Qed.

Lemma flat_map_length_le {A B : Type} (f : A -> list B) (l : list A) :
  (forall i, (List.length (f i) <= 1)%nat) ->
  (List.length (flat_map f l) <= List.length l)%nat.
Proof.
  intro H. induction l as [|x l IH]; [simpl; lia|].
  cbn [flat_map]. rewrite length_app. specialize (H x). simpl. lia.
Qed.

Lemma calc_lut_nosplit_body_short (self : HistoBBox1d.self_t) (idx : nat) :
  (List.length (HistoBBox1d.calc_lut_nosplit_body self idx []) <= 1)%nat.
Proof.
  unfold HistoBBox1d.calc_lut_nosplit_body.
  destruct (masked _ _ _); [simpl; lia|].
  destruct (HistoBBox1d.pos1_rejected _ _); [simpl; lia|].
  match goal with |- context [if ?c then _ else _] => destruct c end; simpl; lia.
Qed.

(** X2: every entry of [HistoBBox1d.calc_lut_nosplit] has a bin index in
    [0, bins), a pixel index below [size] and the weight 1; a pixel has at
    most one entry, so the table has at most [size] entries. *)
Theorem calc_lut_nosplit_entries (self : HistoBBox1d.self_t) :
  Forall (fun e => (0 <= e_bin e < HistoBBox1d.bins self)%Z /\
                   (e_idx e < HistoBBox1d.size self)%nat /\ e_coef e = 1)
         (HistoBBox1d.calc_lut_nosplit self) /\
  (forall idx,
     (List.length (entries_of idx (HistoBBox1d.calc_lut_nosplit self)) <= 1)%nat) /\
  (List.length (HistoBBox1d.calc_lut_nosplit self) <= HistoBBox1d.size self)%nat.
Proof.
  split; [|split].
  - apply Forall_forall. intros e He.
    apply in_pixel_loop in He;
      [|apply calc_lut_nosplit_body_app | apply calc_lut_nosplit_body_tags].
    destruct He as [Hidx He]. split; [|split; [exact Hidx|]];
      clear Hidx; generalize dependent (e_idx e); intros idx He;
      unfold HistoBBox1d.calc_lut_nosplit_body in He;
      (destruct (masked _ _ _); [destruct He|]);
      (destruct (HistoBBox1d.pos1_rejected _ _); [destruct He|]);
      match type of He with context [if ?c then _ else _] =>
        destruct c eqn:Hk end; try (destruct He; fail);
      unfold cinsert in He; cbn [app] in He; destruct He as [<- | []].
    + cbn [e_bin]. apply orb_false_iff in Hk. destruct Hk. zbool; lia.
    + reflexivity.
  - intro idx.
    destruct (Nat.lt_ge_cases idx (HistoBBox1d.size self)) as [Hlt | Hge].
    + unfold HistoBBox1d.calc_lut_nosplit.
      rewrite entries_of_pixel_loop;
        [|apply calc_lut_nosplit_body_app | apply calc_lut_nosplit_body_tags | exact Hlt].
      apply calc_lut_nosplit_body_short.
    + unfold entries_of. rewrite filter_none; [simpl; lia|].
      intros e He.
      apply in_pixel_loop in He;
        [|apply calc_lut_nosplit_body_app | apply calc_lut_nosplit_body_tags].
      destruct He as [Hidx _]. apply Nat.eqb_neq. lia.
  - unfold HistoBBox1d.calc_lut_nosplit, new_builder, SparseBuilder.
    rewrite pixel_loop_append by apply calc_lut_nosplit_body_app. cbn [app].
    etransitivity; [apply flat_map_length_le, calc_lut_nosplit_body_short|].
    rewrite length_seq. lia.
Qed.




(** ** Conservation of the weight of a pixel *)

Lemma edge_weights_sum (g : Z -> Z) (b1 b2 : Z) (idx : nat) (fmin fmax : Q) (bm bM : Z) :
  (bm < bM)%Z -> ~ fmax - fmin == 0 ->
  weight_sum ([mk_entry b1 idx (1 / (fmax - fmin) * (inject_Z (bm + 1) - fmin));
               mk_entry b2 idx (1 / (fmax - fmin) * (fmax - inject_Z bM))]
              ++ map (fun i => mk_entry (g i) idx (1 / (fmax - fmin)))
                     (zrange (bm + 1) bM))
  == 1.
Proof.
  intros Hlt Hne. rewrite weight_sum_app, weight_sum_map_const.
  rewrite inject_Z_zrange_length by lia.
  cbn [weight_sum fold_right e_coef]. rewrite inject_Z_plus. change (inject_Z 1) with 1.
  field. exact Hne.
Qed.

Lemma axis_span (bins : Z) (fmin fmax : Q) :
  let bin_max := if (Qtrunc fmax >=? bins)%Z then (bins - 1)%Z else Qtrunc fmax in
  let bin_min := if (Qtrunc fmin <? 0)%Z then 0%Z else Qtrunc fmin in
  (bin_min < bin_max)%Z -> ~ fmax - fmin == 0.
Proof.
  intros bM bm Hlt. destruct (axis_fractions bins fmin fmax Hlt) as [Hs _]. lra.
Qed.

(** X4: in [HistoBBox1d.calc_lut], with at least one bin and a positive bin
    width, every pixel whose lower bound is at most its upper bound, whose
    fractional bins can be cast to [int], and that is kept (unmasked,
    accepted by the secondary filter, with [bin0_max >= 0] and
    [bin0_min < bins]) gets weights that sum to 1, also when its bins are
    clamped: the part of the pixel outside of the range is not dropped, it
    goes to the first or last bin. *)
Theorem calc_lut_1d_kept_pixel_weight (self : HistoBBox1d.self_t) (idx : nat) :
  (idx < HistoBBox1d.size self)%nat ->
  masked (HistoBBox1d.check_mask self) (HistoBBox1d.cmask self) idx = false ->
  HistoBBox1d.pos1_rejected self idx = false ->
  (1 <= HistoBBox1d.bins self)%Z ->
  0 < HistoBBox1d.delta self ->
  nth idx (HistoBBox1d.cpos0_inf self) 0 <= nth idx (HistoBBox1d.cpos0_sup self) 0 ->
  let fbin0_min := get_bin_number (nth idx (HistoBBox1d.cpos0_inf self) 0)
                     (HistoBBox1d.pos0_min self) (HistoBBox1d.delta self) in
  let fbin0_max := get_bin_number (nth idx (HistoBBox1d.cpos0_sup self) 0)
                     (HistoBBox1d.pos0_min self) (HistoBBox1d.delta self) in
  int_cast_defined fbin0_min -> int_cast_defined fbin0_max ->
  (0 <= Qtrunc fbin0_max)%Z -> (Qtrunc fbin0_min < HistoBBox1d.bins self)%Z ->
  weight_sum (entries_of idx (HistoBBox1d.calc_lut self)) == 1.
Proof.
  intros Hidx Hmask Hpos1 Hb Hdelta Hbox fmin fmax _ _ HM Hm.
  assert (Hle : fmin <= fmax) by (apply get_bin_number_mono; assumption).
  rewrite calc_lut_1d_pixel by exact Hidx.
  unfold HistoBBox1d.calc_lut_body. rewrite Hmask, Hpos1.
  fold fmin fmax. unfold HistoBBox1d.lut_bins.
  assert (Hk : (Qtrunc fmax <? 0)%Z || (Qtrunc fmin >=? HistoBBox1d.bins self)%Z = false)
    by (apply orb_false_iff; split; zbool; lia).
  rewrite Hk.
  pose proof (axis_ordered _ fmin fmax Hb Hle Hk) as Hord.
  pose proof (axis_span (HistoBBox1d.bins self) fmin fmax) as Hspan.
  cbv zeta in Hord, Hspan.
  destruct (Z.eqb_spec
              (if (Qtrunc fmin <? 0)%Z then 0%Z else Qtrunc fmin)
              (if (Qtrunc fmax >=? HistoBBox1d.bins self)%Z
               then (HistoBBox1d.bins self - 1)%Z else Qtrunc fmax)) as [E | N].
  - simpl. ring.
  - rewrite split_insert_app. cbn [app].
    apply (edge_weights_sum (fun i => i)); [lia | apply Hspan; lia].
Qed.

Lemma calc_lut_1d_kept_pixel_weight_witness :
  weight_sum (entries_of 0 (HistoBBox1d.calc_lut ex_clipped_1d)) == 1.
Proof.
  apply (calc_lut_1d_kept_pixel_weight ex_clipped_1d 0%nat).
  - simpl. lia.
  - reflexivity.
  - reflexivity.
  - simpl. lia.
  - reflexivity.
  - vm_compute. discriminate.
  - vm_compute. split; discriminate.
  - vm_compute. split; discriminate.
  - vm_compute. discriminate.
  - vm_compute. reflexivity.
Defined.

(** X5: in [HistoBBox2d.calc_lut], with at least one bin and a positive bin
    width along each axis, every unmasked pixel whose lower bounds are at
    most its upper bounds, whose fractional bins can be cast to [int], and
    that is kept ([bin_max >= 0] and [bin_min < bins] on both axes) gets
    weights that sum to 1 in each of the four cases (one bin, spread along
    one axis, spread along both), also when its bins are clamped. *)
Theorem calc_lut_2d_kept_pixel_weight (self : HistoBBox2d.self_t) (idx : nat) :
  (idx < HistoBBox2d.size self)%nat ->
  masked (HistoBBox2d.check_mask self) (HistoBBox2d.cmask self) idx = false ->
  (1 <= HistoBBox2d.bins0 self)%Z -> (1 <= HistoBBox2d.bins1 self)%Z ->
  0 < HistoBBox2d.delta0 self -> 0 < HistoBBox2d.delta1 self ->
  nth idx (HistoBBox2d.cpos0_inf self) 0 <= nth idx (HistoBBox2d.cpos0_sup self) 0 ->
  nth idx (HistoBBox2d.cpos1_inf self) 0 <= nth idx (HistoBBox2d.cpos1_sup self) 0 ->
  let fbin0_min := get_bin_number (nth idx (HistoBBox2d.cpos0_inf self) 0)
                     (HistoBBox2d.pos0_min self) (HistoBBox2d.delta0 self) in
  let fbin0_max := get_bin_number (nth idx (HistoBBox2d.cpos0_sup self) 0)
                     (HistoBBox2d.pos0_min self) (HistoBBox2d.delta0 self) in
  let fbin1_min := get_bin_number (nth idx (HistoBBox2d.cpos1_inf self) 0)
                     (HistoBBox2d.pos1_min self) (HistoBBox2d.delta1 self) in
  let fbin1_max := get_bin_number (nth idx (HistoBBox2d.cpos1_sup self) 0)
                     (HistoBBox2d.pos1_min self) (HistoBBox2d.delta1 self) in
  int_cast_defined fbin0_min -> int_cast_defined fbin0_max ->
  int_cast_defined fbin1_min -> int_cast_defined fbin1_max ->
  (0 <= Qtrunc fbin0_max)%Z -> (Qtrunc fbin0_min < HistoBBox2d.bins0 self)%Z ->
  (0 <= Qtrunc fbin1_max)%Z -> (Qtrunc fbin1_min < HistoBBox2d.bins1 self)%Z ->
  weight_sum (entries_of idx (HistoBBox2d.calc_lut self)) == 1.
Proof.
  intros Hidx Hmask Hb0 Hb1 Hd0 Hd1 Hbox0 Hbox1 f0m f0M f1m f1M _ _ _ _ H0M H0m H1M H1m.
  assert (Hle0 : f0m <= f0M) by (apply get_bin_number_mono; assumption).
  assert (Hle1 : f1m <= f1M) by (apply get_bin_number_mono; assumption).
  rewrite calc_lut_2d_pixel by exact Hidx.
  unfold HistoBBox2d.calc_lut_body. rewrite Hmask.
  fold f0m f0M f1m f1M. unfold HistoBBox2d.lut_bins.
  assert (Hk0 : (Qtrunc f0M <? 0)%Z || (Qtrunc f0m >=? HistoBBox2d.bins0 self)%Z = false)
    by (apply orb_false_iff; split; zbool; lia).
  assert (Hk1 : (Qtrunc f1M <? 0)%Z || (Qtrunc f1m >=? HistoBBox2d.bins1 self)%Z = false)
    by (apply orb_false_iff; split; zbool; lia).
  rewrite <- orb_assoc, Hk0, Hk1. cbn [orb].
  pose proof (axis_ordered _ f0m f0M Hb0 Hle0 Hk0) as Hord0.
  pose proof (axis_ordered _ f1m f1M Hb1 Hle1 Hk1) as Hord1.
  pose proof (axis_span (HistoBBox2d.bins0 self) f0m f0M) as Hspan0.
  pose proof (axis_span (HistoBBox2d.bins1 self) f1m f1M) as Hspan1.
  cbv zeta in Hord0, Hord1, Hspan0, Hspan1.
  set (b0M := if (Qtrunc f0M >=? _)%Z then _ else _) in *.
  set (b0m := if (Qtrunc f0m <? 0)%Z then _ else _) in *.
  set (b1M := if (Qtrunc f1M >=? _)%Z then _ else _) in *.
  set (b1m := if (Qtrunc f1m <? 0)%Z then _ else _) in *.
  rewrite spread_eq. cbn [app].
  destruct (Z.eq_dec b0m b0M) as [E0 | N0]; destruct (Z.eq_dec b1m b1M) as [E1 | N1].
  - unfold spread_entries. rewrite E0, E1, !Z.eqb_refl. simpl. ring.
  - unfold spread_entries. rewrite E0, Z.eqb_refl.
    destruct (Z.eqb_spec b1m b1M); [contradiction|].
    apply (edge_weights_sum (fun j => (b0M * HistoBBox2d.bins1 self + j)%Z));
      [lia | apply Hspan1; lia].
  - unfold spread_entries. rewrite E1, Z.eqb_refl.
    destruct (Z.eqb_spec b0m b0M); [contradiction|].
    apply (edge_weights_sum (fun i => (i * HistoBBox2d.bins1 self + b1M)%Z));
      [lia | apply Hspan0; lia].
  - apply spread_both_sum; [lia | lia | apply Hspan0; lia | apply Hspan1; lia].
Qed.

Lemma calc_lut_2d_kept_pixel_weight_witness :
  weight_sum (entries_of 0 (HistoBBox2d.calc_lut ex_clipped_2d)) == 1.
Proof.
  apply (calc_lut_2d_kept_pixel_weight ex_clipped_2d 0%nat).
  - simpl. lia.
  - reflexivity.
  - simpl. lia.
  - simpl. lia.
  - reflexivity.
  - reflexivity.
  - vm_compute. discriminate.
  - vm_compute. discriminate.
  - vm_compute. split; discriminate.
  - vm_compute. split; discriminate.
  - vm_compute. split; discriminate.
  - vm_compute. split; discriminate.
  - vm_compute. discriminate.
  - vm_compute. reflexivity.
  - vm_compute. discriminate.
  - vm_compute. reflexivity.
Defined.

(** ** How the mask and the secondary filter compose with the tables *)

Lemma filter_flat_map {A B : Type} (p : B -> bool) (f : A -> list B) (l : list A) :
  filter p (flat_map f l) = flat_map (fun i => filter p (f i)) l.
Proof.
  induction l as [|x l IH]; [reflexivity|].
  cbn [flat_map]. rewrite filter_app, IH. reflexivity.
Qed.

Lemma filter_tagged (q : nat -> bool) (i : nat) (l : list lut_entry) :
  Forall (fun e => e_idx e = i) l ->
  filter (fun e => q (e_idx e)) l = if q i then l else [].
Proof.
  induction 1 as [|e l He _ IH]; [destruct (q i); reflexivity|].
  cbn [filter]. rewrite He, IH. destruct (q i); reflexivity.
Qed.

Lemma pixel_loop_ext {S : Type} (n : nat) (f g : nat -> S -> S) (s : S) :
  (forall i b, f i b = g i b) -> pixel_loop n f s = pixel_loop n g s.
Proof.
  intro H. unfold pixel_loop. revert s.
  induction (seq 0 n) as [|x l IH]; intro s; [reflexivity|].
  cbn [fold_left]. rewrite H. apply IH.
Qed.

(** X6: in one dimension the mask and the secondary filter only remove
    entries: the table built with them is the table built without any mask
    or filter, from the same bounds, restricted to the pixels that are
    neither masked nor rejected; the entries of the other pixels and their
    order are unchanged.  This holds with and without splitting. *)
Theorem calc_lut_1d_filters_compose (self : HistoBBox1d.self_t) :
  let unfiltered :=
    HistoBBox1d.mk_self (HistoBBox1d.size self) (HistoBBox1d.bins self)
      false (HistoBBox1d.cmask self) false (HistoBBox1d.cpos1_min self)
      (HistoBBox1d.cpos1_max self) (HistoBBox1d.pos1_min self)
      (HistoBBox1d.pos1_max self) (HistoBBox1d.cpos0 self)
      (HistoBBox1d.cpos0_inf self) (HistoBBox1d.cpos0_sup self)
      (HistoBBox1d.pos0_min self) (HistoBBox1d.delta self) in
  let kept := fun e =>
    negb (masked (HistoBBox1d.check_mask self) (HistoBBox1d.cmask self) (e_idx e))
    && negb (HistoBBox1d.pos1_rejected self (e_idx e)) in
  HistoBBox1d.calc_lut self = filter kept (HistoBBox1d.calc_lut unfiltered) /\
  HistoBBox1d.calc_lut_nosplit self =
    filter kept (HistoBBox1d.calc_lut_nosplit unfiltered).
Proof.
  intros unfiltered kept. split.
  - unfold HistoBBox1d.calc_lut, new_builder, SparseBuilder.
    rewrite !pixel_loop_append by apply calc_lut_1d_body_app. cbn [app].
    rewrite filter_flat_map. apply flat_map_ext. intro i.
    unfold kept.
    rewrite (filter_tagged
               (fun k => negb (masked (HistoBBox1d.check_mask self)
                                      (HistoBBox1d.cmask self) k)
                         && negb (HistoBBox1d.pos1_rejected self k)) i)
      by apply calc_lut_1d_body_tags.
    unfold HistoBBox1d.calc_lut_body, HistoBBox1d.pos1_rejected, masked.
    cbn [unfiltered HistoBBox1d.check_mask HistoBBox1d.check_pos1 andb
         HistoBBox1d.cpos0_inf HistoBBox1d.cpos0_sup HistoBBox1d.pos0_min
         HistoBBox1d.delta HistoBBox1d.bins HistoBBox1d.cmask].
    destruct (HistoBBox1d.check_mask self && _); [reflexivity|].
    destruct (HistoBBox1d.check_pos1 self && _); reflexivity.
  - unfold HistoBBox1d.calc_lut_nosplit, new_builder, SparseBuilder.
    rewrite !pixel_loop_append by apply calc_lut_nosplit_body_app. cbn [app].
    rewrite filter_flat_map. apply flat_map_ext. intro i.
    unfold kept.
    rewrite (filter_tagged
               (fun k => negb (masked (HistoBBox1d.check_mask self)
                                      (HistoBBox1d.cmask self) k)
                         && negb (HistoBBox1d.pos1_rejected self k)) i)
      by apply calc_lut_nosplit_body_tags.
    unfold HistoBBox1d.calc_lut_nosplit_body, HistoBBox1d.pos1_rejected, masked.
    cbn [unfiltered HistoBBox1d.check_mask HistoBBox1d.check_pos1 andb
         HistoBBox1d.cpos0 HistoBBox1d.pos0_min
         HistoBBox1d.delta HistoBBox1d.bins HistoBBox1d.cmask].
    destruct (HistoBBox1d.check_mask self && _); [reflexivity|].
    destruct (HistoBBox1d.check_pos1 self && _); reflexivity.
Qed.

(** X7: in two dimensions the mask only removes entries: the table built
    with it is the table built without it, from the same bounds, restricted
    to the unmasked pixels. *)
Theorem calc_lut_2d_mask_composes (self : HistoBBox2d.self_t) :
  let unmasked :=
    HistoBBox2d.mk_self (HistoBBox2d.size self) (HistoBBox2d.bins0 self)
      (HistoBBox2d.bins1 self) false (HistoBBox2d.cmask self)
      (HistoBBox2d.cpos0_inf self) (HistoBBox2d.cpos0_sup self)
      (HistoBBox2d.cpos1_inf self) (HistoBBox2d.cpos1_sup self)
      (HistoBBox2d.pos0_min self) (HistoBBox2d.pos1_min self)
      (HistoBBox2d.delta0 self) (HistoBBox2d.delta1 self) in
  HistoBBox2d.calc_lut self =
    filter (fun e => negb (masked (HistoBBox2d.check_mask self)
                                  (HistoBBox2d.cmask self) (e_idx e)))
           (HistoBBox2d.calc_lut unmasked).
Proof.
  intro unmasked.
  unfold HistoBBox2d.calc_lut, new_builder, SparseBuilder.
  rewrite !pixel_loop_append by apply calc_lut_2d_body_app. cbn [app].
  rewrite filter_flat_map. apply flat_map_ext. intro i.
  rewrite (filter_tagged
             (fun k => negb (masked (HistoBBox2d.check_mask self)
                                    (HistoBBox2d.cmask self) k)) i)
    by apply calc_lut_2d_body_tags.
  unfold HistoBBox2d.calc_lut_body, masked.
  cbn [unmasked HistoBBox2d.check_mask andb
       HistoBBox2d.cpos0_inf HistoBBox2d.cpos0_sup HistoBBox2d.cpos1_inf
       HistoBBox2d.cpos1_sup HistoBBox2d.pos0_min HistoBBox2d.pos1_min
       HistoBBox2d.delta0 HistoBBox2d.delta1 HistoBBox2d.bins0 HistoBBox2d.bins1
       HistoBBox2d.cmask].
  destruct (HistoBBox2d.check_mask self && _); reflexivity.
Qed.

(** X8: when every pixel has its two bounds equal to its coordinate
    ([cpos0_inf = cpos0_sup = cpos0], pixels without extent), the splitting
    loop builds the table of the loop without splitting. *)
Theorem calc_lut_pointlike_is_nosplit (self : HistoBBox1d.self_t) :
  HistoBBox1d.cpos0_inf self = HistoBBox1d.cpos0 self ->
  HistoBBox1d.cpos0_sup self = HistoBBox1d.cpos0 self ->
  HistoBBox1d.calc_lut self = HistoBBox1d.calc_lut_nosplit self.
Proof.
  intros Hinf Hsup. unfold HistoBBox1d.calc_lut, HistoBBox1d.calc_lut_nosplit.
  apply pixel_loop_ext. intros i b.
  unfold HistoBBox1d.calc_lut_body, HistoBBox1d.calc_lut_nosplit_body.
  rewrite Hinf, Hsup.
  destruct (masked _ _ _); [reflexivity|].
  destruct (HistoBBox1d.pos1_rejected _ _); [reflexivity|].
  unfold HistoBBox1d.lut_bins, onef.
  set (t := Qtrunc _).
  destruct (Z.ltb_spec t 0); [reflexivity|].
  destruct (Z.geb_spec t (HistoBBox1d.bins self)); [reflexivity|].
  cbn [orb]. rewrite Z.eqb_refl. reflexivity.
Qed.

Lemma calc_lut_pointlike_is_nosplit_witness :
  HistoBBox1d.calc_lut ex_pointlike_1d = HistoBBox1d.calc_lut_nosplit ex_pointlike_1d.
Proof.
  apply (calc_lut_pointlike_is_nosplit ex_pointlike_1d); reflexivity.
Defined.

(** ** Bounds of the one-dimensional constructor *)

(** X9: when [pos0_range = (lo, hi)] is given, [HistoBBox1d.__init__] takes
    its bounds from it alone, with or without splitting: [pos0_min] is [lo]
    (or 0 when [lo] is negative and negative values are not allowed),
    [pos0_max] is the upper bound of [hi] and [delta] their difference over
    [bins]; the coordinates, the half-extents and the mask play no part. *)
Theorem histobbox1d_explicit_range (calc_upper_bound : Q -> Q)
    (a : HistoBBox1d.init_args) (lo hi : Q)
    (s : HistoBBox1d.self_t) (bnd : HistoBBox1d.bounds_t) (d : option (list Q)) :
  HistoBBox1d.a_pos0_range a = Some (lo, hi) ->
  snd (HistoBBox1d.init_attrs calc_upper_bound a) = Ok (s, bnd, d) ->
  let clamped := if negb (HistoBBox1d.a_allow_pos0_neg a) && Qltb lo 0 then 0 else lo in
  HistoBBox1d.pos0_min s = clamped /\
  HistoBBox1d.b_pos0_maxin bnd = hi /\
  HistoBBox1d.b_pos0_max bnd = calc_upper_bound hi /\
  HistoBBox1d.delta s =
    (calc_upper_bound hi - clamped) / inject_Z (HistoBBox1d.a_bins a).
Proof.
  intros Hr. unfold HistoBBox1d.init_attrs. rewrite Hr.
  destruct (HistoBBox1d.check_delta_pos0 _ _) as [log dp]. cbn [snd].
  destruct (init_mask _ _) as [[cm m] | e]; [|discriminate].
  destruct (HistoBBox1d.init_pos1 _ _ _ _ _) as [[[[[c p1m] p1M] m1] M1] | e];
    [|discriminate].
  destruct (HistoBBox1d.a_bins a =? 0)%Z; [discriminate|].
  intro H. injection H as <- <- <-. cbv zeta.
  cbn [HistoBBox1d.pos0_min HistoBBox1d.delta].
  destruct dp as [dpos0|].
  - unfold HistoBBox1d.calc_boundaries.
    destruct (pixel_loop _ _ _) as [[[sup inf] pmax] pmin].
    unfold HistoBBox1d.finish_bounds.
    cbn [HistoBBox1d.b_pos0_min HistoBBox1d.b_pos0_maxin HistoBBox1d.b_pos0_max].
    repeat split.
  - unfold HistoBBox1d.calc_boundaries_nosplit, HistoBBox1d.finish_bounds.
    cbn [HistoBBox1d.b_pos0_min HistoBBox1d.b_pos0_maxin HistoBBox1d.b_pos0_max].
    repeat split.
Qed.

Lemma histobbox1d_explicit_range_witness :
  exists s bnd d,
    snd (HistoBBox1d.init_attrs upper_bound_eps args_below_range) = Ok (s, bnd, d) /\
    HistoBBox1d.pos0_min s = 1 /\
    HistoBBox1d.b_pos0_maxin bnd = 5 /\
    HistoBBox1d.delta s = (upper_bound_eps 5 - 1) / inject_Z 4.
Proof.
  destruct (snd (HistoBBox1d.init_attrs upper_bound_eps args_below_range))
    as [[[s bnd] d] | e] eqn:E; [|vm_compute in E; discriminate].
  exists s, bnd, d. split; [reflexivity|].
  destruct (histobbox1d_explicit_range upper_bound_eps args_below_range 1 5 s bnd d
              eq_refl E) as (H1 & H2 & _ & H4).
  repeat split; assumption.
Defined.

(** X10: without an explicit range, the bounds found by
    [HistoBBox1d.calc_boundaries] contain the box of every unmasked pixel:
    [pos0_min] is at most its lower bound (clamped to 0 when negative values
    are not allowed) and [pos0_maxin] at least its upper bound; when negative
    values are not allowed [pos0_min] is never negative. *)
Theorem calc_boundaries_1d_contains_unmasked (calc_upper_bound : Q -> Q)
    (allow_pos0_neg check_mask : bool) (cmask : list Z) (cpos0 dpos0 : list Q)
    (idx : nat) :
  (idx < List.length cpos0)%nat ->
  masked check_mask cmask idx = false ->
  let b := HistoBBox1d.calc_boundaries calc_upper_bound allow_pos0_neg check_mask
             cmask cpos0 dpos0 None in
  let lower := nth idx cpos0 0 - nth idx dpos0 0 in
  let upper := nth idx cpos0 0 + nth idx dpos0 0 in
  HistoBBox1d.b_pos0_min b <= (if negb allow_pos0_neg && Qltb lower 0 then 0 else lower) /\
  upper <= HistoBBox1d.b_pos0_maxin b /\
  (allow_pos0_neg = false -> 0 <= HistoBBox1d.b_pos0_min b).
Proof.
  intros Hidx Hmask b lower upper. unfold b, HistoBBox1d.calc_boundaries.
  set (body := HistoBBox1d.calc_boundaries_body allow_pos0_neg check_mask cmask
                 cpos0 dpos0).
  set (seed := if negb allow_pos0_neg && Qltb (nth 0 cpos0 0) 0 then 0
               else nth 0 cpos0 0).
  set (clamp := fun x : Q => if negb allow_pos0_neg && Qltb x 0 then 0 else x).
  assert (Hclamp : forall x, allow_pos0_neg = false -> 0 <= clamp x).
  { intros x ->. unfold clamp. cbn [negb andb].
    destruct (Qltb x 0) eqn:E; [lra | apply Qltb_ge in E; exact E]. }
  assert (Hinv : forall n,
     let st := pixel_loop n body (empty_like cpos0, empty_like cpos0, seed, seed) in
     (forall i, (i < n)%nat -> masked check_mask cmask i = false ->
        snd st <= clamp (nth i cpos0 0 - nth i dpos0 0) /\
        nth i cpos0 0 + nth i dpos0 0 <= snd (fst st)) /\
     (allow_pos0_neg = false -> 0 <= snd st)).
  { induction n as [|n IH].
    - split; [intros i Hi; lia|]. intro Ha. cbn. apply (Hclamp _ Ha).
    - rewrite pixel_loop_S. cbv zeta in IH.
      destruct (pixel_loop n body _) as [[[sup inf] pmax] pmin].
      cbn [fst snd] in IH. destruct IH as [IHc IHp].
      unfold body, HistoBBox1d.calc_boundaries_body. cbv zeta.
      fold (clamp (nth n cpos0 0 - nth n dpos0 0)).
      destruct (masked check_mask cmask n) eqn:Em; cbn [negb fst snd].
      + split; [|exact IHp]. intros i Hi Hu.
        destruct (Nat.eq_dec i n) as [-> | Hne]; [congruence|].
        apply IHc; [lia | exact Hu].
      + destruct (Qgtb _ pmax) eqn:Eg; destruct (Qltb _ pmin) eqn:El;
          try (apply Qltb_lt in Eg); try (apply Qltb_ge in Eg);
          try (apply Qltb_lt in El); try (apply Qltb_ge in El);
          (split; [|intro Ha; try (apply IHp; exact Ha); apply (Hclamp _ Ha)]);
          intros i Hi Hu;
          (destruct (Nat.eq_dec i n) as [-> | Hne];
           [ split; lra
           | destruct (IHc i ltac:(lia) Hu) as [H1 H2]; split; lra ]). }
  specialize (Hinv (List.length cpos0)). cbv zeta in Hinv.
  destruct (pixel_loop _ body _) as [[[sup inf] pmax] pmin].
  cbn [fst snd] in Hinv. destruct Hinv as [Hc Hp].
  unfold HistoBBox1d.finish_bounds.
  cbn [HistoBBox1d.b_pos0_min HistoBBox1d.b_pos0_maxin].
  destruct (Hc idx Hidx Hmask) as [H1 H2]. fold lower upper in H1, H2.
  fold (clamp lower).
  assert (Hmin : (if negb allow_pos0_neg && Qltb pmin 0 then 0 else pmin) == pmin).
  { destruct allow_pos0_neg; cbn [negb andb]; [reflexivity|].
    destruct (Qltb pmin 0) eqn:E; [|reflexivity].
    apply Qltb_lt in E. specialize (Hp eq_refl). lra. }
  rewrite Hmin. repeat split; try assumption.
Qed.

Lemma calc_boundaries_1d_contains_unmasked_witness :
  let b := HistoBBox1d.calc_boundaries upper_bound_eps false true [1; 0; 0]%Z
             [10; 1; 2] [1 # 2; 1 # 2; 1 # 2] None in
  HistoBBox1d.b_pos0_min b <= 3 # 2 /\ 5 # 2 <= HistoBBox1d.b_pos0_maxin b.
Proof.
  destruct (calc_boundaries_1d_contains_unmasked upper_bound_eps false true
              [1; 0; 0]%Z [10; 1; 2] [1 # 2; 1 # 2; 1 # 2] 2%nat) as (H1 & H2 & _).
  - simpl. lia.
  - reflexivity.
  - split; [exact H1 | exact H2].
Defined.

(** X11: without an explicit range and without splitting, the bounds found
    by [HistoBBox1d.calc_boundaries_nosplit] contain the coordinate of every
    unmasked pixel (clamped to 0 when negative values are not allowed), and
    [pos0_min] is never negative when negative values are not allowed. *)
Theorem calc_boundaries_nosplit_contains_unmasked (calc_upper_bound : Q -> Q)
    (allow_pos0_neg check_mask : bool) (cmask : list Z) (cpos0 : list Q) (idx : nat) :
  (idx < List.length cpos0)%nat ->
  masked check_mask cmask idx = false ->
  let b := HistoBBox1d.calc_boundaries_nosplit calc_upper_bound allow_pos0_neg
             check_mask cmask cpos0 None in
  let c := if negb allow_pos0_neg && Qltb (nth idx cpos0 0) 0 then 0
           else nth idx cpos0 0 in
  HistoBBox1d.b_pos0_min b <= c /\ c <= HistoBBox1d.b_pos0_maxin b /\
  (allow_pos0_neg = false -> 0 <= HistoBBox1d.b_pos0_min b).
Proof.
  intros Hidx Hmask b c. unfold b, HistoBBox1d.calc_boundaries_nosplit.
  set (body := HistoBBox1d.calc_boundaries_nosplit_body allow_pos0_neg check_mask
                 cmask cpos0).
  set (clamp := fun x : Q => if negb allow_pos0_neg && Qltb x 0 then 0 else x).
  fold (clamp (nth 0 cpos0 0)).
  set (seed := clamp (nth 0 cpos0 0)).
  assert (Hclamp : forall x, allow_pos0_neg = false -> 0 <= clamp x).
  { intros x ->. unfold clamp. cbn [negb andb].
    destruct (Qltb x 0) eqn:E; [lra | apply Qltb_ge in E; exact E]. }
  assert (Hinv : forall n,
     let st := pixel_loop n body (seed, seed) in
     (forall i, (i < n)%nat -> masked check_mask cmask i = false ->
        snd st <= clamp (nth i cpos0 0) /\ clamp (nth i cpos0 0) <= fst st) /\
     (allow_pos0_neg = false -> 0 <= snd st)).
  { induction n as [|n IH].
    - split; [intros i Hi; lia|]. intro Ha. cbn. apply (Hclamp _ Ha).
    - rewrite pixel_loop_S. cbv zeta in IH.
      destruct (pixel_loop n body _) as [pmax pmin].
      cbn [fst snd] in IH. destruct IH as [IHc IHp].
      unfold body, HistoBBox1d.calc_boundaries_nosplit_body. cbv zeta.
      fold (clamp (nth n cpos0 0)).
      destruct (masked check_mask cmask n) eqn:Em; cbn [negb fst snd].
      + split; [|exact IHp]. intros i Hi Hu.
        destruct (Nat.eq_dec i n) as [-> | Hne]; [congruence|].
        apply IHc; [lia | exact Hu].
      + destruct (Qgtb _ pmax) eqn:Eg; destruct (Qltb _ pmin) eqn:El;
          try (apply Qltb_lt in Eg); try (apply Qltb_ge in Eg);
          try (apply Qltb_lt in El); try (apply Qltb_ge in El);
          (split; [|intro Ha; try (apply IHp; exact Ha); apply (Hclamp _ Ha)]);
          intros i Hi Hu;
          (destruct (Nat.eq_dec i n) as [-> | Hne];
           [ split; lra
           | destruct (IHc i ltac:(lia) Hu) as [H1 H2]; split; lra ]). }
  specialize (Hinv (List.length cpos0)). cbv zeta in Hinv.
  destruct (pixel_loop _ body _) as [pmax pmin].
  cbn [fst snd] in Hinv. destruct Hinv as [Hc Hp].
  unfold HistoBBox1d.finish_bounds.
  cbn [HistoBBox1d.b_pos0_min HistoBBox1d.b_pos0_maxin].
  destruct (Hc idx Hidx Hmask) as [H1 H2]. fold c in H1, H2.
  assert (Hmin : (if negb allow_pos0_neg && Qltb pmin 0 then 0 else pmin) == pmin).
  { destruct allow_pos0_neg; cbn [negb andb]; [reflexivity|].
    destruct (Qltb pmin 0) eqn:E; [|reflexivity].
    apply Qltb_lt in E. specialize (Hp eq_refl). lra. }
  rewrite Hmin. repeat split; try assumption.
Qed.

Lemma calc_boundaries_nosplit_contains_unmasked_witness :
  let b := HistoBBox1d.calc_boundaries_nosplit upper_bound_eps false true [1; 0; 0]%Z
             [10; 1; 2] None in
  HistoBBox1d.b_pos0_min b <= 2 /\ 2 <= HistoBBox1d.b_pos0_maxin b.
Proof.
  destruct (calc_boundaries_nosplit_contains_unmasked upper_bound_eps false true
              [1; 0; 0]%Z [10; 1; 2] 2%nat) as (H1 & H2 & _).
  - simpl. lia.
  - reflexivity.
  - split; [exact H1 | exact H2].
Defined.

(** ** Bounds of the two-dimensional constructor *)

Section Scan2d.

Variables (allow_pos0_neg chiDiscAtPi check_mask : bool) (cmask : list Z).
Variables (cpos0 dpos0 cpos1 dpos1 : list Q) (pi : Q).
Hypothesis same_size : List.length cpos1 = List.length cpos0.

Let top : Q := (2 - (if chiDiscAtPi then 1 else 0)) * pi.
Let bottom : Q := (- (if chiDiscAtPi then 1 else 0)) * pi.
Let low0 (i : nat) : Q :=
  if negb allow_pos0_neg && Qltb (nth i cpos0 0 - nth i dpos0 0) 0 then 0
  else nth i cpos0 0 - nth i dpos0 0.
Let up0 (i : nat) : Q := nth i cpos0 0 + nth i dpos0 0.
Let up1 (i : nat) : Q :=
  if Qgtb (nth i cpos1 0 + nth i dpos1 0) top then top
  else nth i cpos1 0 + nth i dpos1 0.
Let low1 (i : nat) : Q :=
  if Qltb (nth i cpos1 0 - nth i dpos1 0) bottom then bottom
  else nth i cpos1 0 - nth i dpos1 0.

Let body := HistoBBox2d.calc_boundaries_body pi allow_pos0_neg chiDiscAtPi check_mask
              cmask cpos0 dpos0 cpos1 dpos1.
Let start := HistoBBox2d.mk_scan (empty_like cpos0) (empty_like cpos0)
               (empty_like cpos1) (empty_like cpos1)
               (nth 0 cpos0 0) (nth 0 cpos0 0) (nth 0 cpos1 0) (nth 0 cpos1 0).

(** State of the scan of [HistoBBox2d.calc_boundaries] after [n] pixels. *)
Lemma calc_boundaries_2d_scan (n : nat) :
  (n <= List.length cpos0)%nat ->
  let st := pixel_loop n body start in
  (List.length (HistoBBox2d.s_cpos0_sup st) = List.length cpos0 /\
   List.length (HistoBBox2d.s_cpos0_inf st) = List.length cpos0 /\
   List.length (HistoBBox2d.s_cpos1_sup st) = List.length cpos0 /\
   List.length (HistoBBox2d.s_cpos1_inf st) = List.length cpos0) /\
  (forall i, (i < n)%nat ->
     nth i (HistoBBox2d.s_cpos0_sup st) 0 = up0 i /\
     nth i (HistoBBox2d.s_cpos0_inf st) 0 = low0 i /\
     nth i (HistoBBox2d.s_cpos1_sup st) 0 = up1 i /\
     nth i (HistoBBox2d.s_cpos1_inf st) 0 = low1 i) /\
  (forall i, (i < n)%nat -> masked check_mask cmask i = false ->
     HistoBBox2d.s_pos0_min st <= low0 i /\ up0 i <= HistoBBox2d.s_pos0_max st /\
     HistoBBox2d.s_pos1_min st <= low1 i /\ up1 i <= HistoBBox2d.s_pos1_max st).
Proof.
  induction n as [|n IH]; intro Hn.
  - cbn. unfold empty_like. rewrite !repeat_length.
    repeat split; try lia; intros i Hi; lia.
  - rewrite pixel_loop_S. specialize (IH ltac:(lia)). cbv zeta in IH.
    destruct (pixel_loop n body start) as [sup0 inf0 sup1 inf1 M0 m0 M1 m1].
    cbn [HistoBBox2d.s_cpos0_sup HistoBBox2d.s_cpos0_inf HistoBBox2d.s_cpos1_sup
         HistoBBox2d.s_cpos1_inf HistoBBox2d.s_pos0_max HistoBBox2d.s_pos0_min
         HistoBBox2d.s_pos1_max HistoBBox2d.s_pos1_min] in IH.
    destruct IH as ((L1 & L2 & L3 & L4) & Harr & Hbnd).
    unfold body, HistoBBox2d.calc_boundaries_body. cbv zeta.
    cbn [HistoBBox2d.s_cpos0_sup HistoBBox2d.s_cpos0_inf HistoBBox2d.s_cpos1_sup
         HistoBBox2d.s_cpos1_inf HistoBBox2d.s_pos0_max HistoBBox2d.s_pos0_min
         HistoBBox2d.s_pos1_max HistoBBox2d.s_pos1_min].
    fold top bottom. fold (low0 n) (up0 n) (up1 n) (low1 n).
    assert (Hstore : forall i, (i < S n)%nat ->
      nth i (store n (up0 n) sup0) 0 = up0 i /\
      nth i (store n (low0 n) inf0) 0 = low0 i /\
      nth i (store n (up1 n) sup1) 0 = up1 i /\
      nth i (store n (low1 n) inf1) 0 = low1 i).
    { intros i Hi. rewrite !nth_store, L1, L2, L3, L4.
      destruct (Nat.eqb_spec i n) as [-> | Hne].
      - replace (Nat.ltb n (List.length cpos0)) with true
          by (symmetry; apply Nat.ltb_lt; lia).
        repeat split.
      - apply Harr. lia. }
    destruct (masked check_mask cmask n) eqn:Em;
      cbn [negb HistoBBox2d.s_cpos0_sup HistoBBox2d.s_cpos0_inf HistoBBox2d.s_cpos1_sup
           HistoBBox2d.s_cpos1_inf HistoBBox2d.s_pos0_max HistoBBox2d.s_pos0_min
           HistoBBox2d.s_pos1_max HistoBBox2d.s_pos1_min];
      rewrite !store_length; (split; [repeat split; assumption|]);
      (split; [exact Hstore|]); intros i Hi Hu.
    + destruct (Nat.eq_dec i n) as [-> | Hne]; [congruence|].
      apply Hbnd; [lia | exact Hu].
    + destruct (Qgtb (up0 n) M0) eqn:E1; destruct (Qltb (low0 n) m0) eqn:E2;
        destruct (Qgtb (up1 n) M1) eqn:E3; destruct (Qltb (low1 n) m1) eqn:E4;
        try (apply Qltb_lt in E1); try (apply Qltb_ge in E1);
        try (apply Qltb_lt in E2); try (apply Qltb_ge in E2);
        try (apply Qltb_lt in E3); try (apply Qltb_ge in E3);
        try (apply Qltb_lt in E4); try (apply Qltb_ge in E4);
        (destruct (Nat.eq_dec i n) as [-> | Hne];
         [ repeat split; lra
         | destruct (Hbnd i ltac:(lia) Hu) as (B1 & B2 & B3 & B4);
           repeat split; lra ]).
Qed.

(** X12: for every pixel, masked or not, [HistoBBox2d.calc_boundaries]
    stores bounds that are already clamped, each on one side only, whatever
    ranges are given: [cpos0_inf] is the lower bound raised to 0 when
    negative values are not allowed; [cpos1_sup] is the upper bound lowered
    to the top of the interval of the angle, [(2 - chiDiscAtPi) * pi], so it
    is never above the top; [cpos1_inf] is the lower bound raised to the
    bottom, [(-chiDiscAtPi) * pi], so it is never below the bottom.  Nothing
    keeps [cpos1_inf] below the top or [cpos1_sup] above the bottom. *)
Theorem calc_boundaries_2d_arrays_clamped (calc_upper_bound : Q -> Q)
    (pos0_range pos1_range : option (Q * Q)) (idx : nat) :
  (idx < List.length cpos0)%nat ->
  let b := HistoBBox2d.calc_boundaries calc_upper_bound pi allow_pos0_neg chiDiscAtPi
             check_mask cmask cpos0 dpos0 cpos1 dpos1 pos0_range pos1_range in
  let top := (2 - (if chiDiscAtPi then 1 else 0)) * pi in
  let bottom := (- (if chiDiscAtPi then 1 else 0)) * pi in
  let upper1 := nth idx cpos1 0 + nth idx dpos1 0 in
  let lower1 := nth idx cpos1 0 - nth idx dpos1 0 in
  nth idx (HistoBBox2d.b_cpos0_sup b) 0 = nth idx cpos0 0 + nth idx dpos0 0 /\
  nth idx (HistoBBox2d.b_cpos0_inf b) 0 =
    (if negb allow_pos0_neg && Qltb (nth idx cpos0 0 - nth idx dpos0 0) 0 then 0
     else nth idx cpos0 0 - nth idx dpos0 0) /\
  (allow_pos0_neg = false -> 0 <= nth idx (HistoBBox2d.b_cpos0_inf b) 0) /\
  nth idx (HistoBBox2d.b_cpos1_sup b) 0 = (if Qgtb upper1 top then top else upper1) /\
  nth idx (HistoBBox2d.b_cpos1_inf b) 0 = (if Qltb lower1 bottom then bottom else lower1) /\
  nth idx (HistoBBox2d.b_cpos1_sup b) 0 <= top /\
  bottom <= nth idx (HistoBBox2d.b_cpos1_inf b) 0 /\
  (top < lower1 -> top < nth idx (HistoBBox2d.b_cpos1_inf b) 0) /\
  (upper1 < bottom -> nth idx (HistoBBox2d.b_cpos1_sup b) 0 < bottom).
Proof.
  intros Hidx b. unfold b, HistoBBox2d.calc_boundaries.
  destruct (calc_boundaries_2d_scan (List.length cpos0) (Nat.le_refl _))
    as (_ & Harr & _).
  cbv zeta in Harr. unfold body, start in Harr.
  destruct (Harr idx Hidx) as (A1 & A2 & A3 & A4).
  destruct (match pos0_range with Some r => r | None => _ end) as [p0m p0M].
  destruct (match pos1_range with Some r => r | None => _ end) as [p1m p1M].
  cbn [HistoBBox2d.b_cpos0_sup HistoBBox2d.b_cpos0_inf HistoBBox2d.b_cpos1_sup
       HistoBBox2d.b_cpos1_inf].
  rewrite A1, A2, A3, A4. cbv zeta.
  split; [reflexivity|]. split; [reflexivity|].
  split; [|split; [reflexivity|split; [reflexivity|]]].
  - intros ->. unfold low0. cbn [negb andb].
    destruct (Qltb _ 0) eqn:E; [lra | apply Qltb_ge in E; exact E].
  - unfold up1, low1. fold top bottom.
    assert (Hord : bottom < top \/ top <= bottom) by (destruct (Qlt_le_dec bottom top); auto).
    destruct (Qgtb _ top) eqn:E1; destruct (Qltb _ bottom) eqn:E2;
      unfold Qgtb in E1;
      try (apply Qltb_lt in E1); try (apply Qltb_ge in E1);
      try (apply Qltb_lt in E2); try (apply Qltb_ge in E2);
      repeat split; intros; lra.
Qed.

(** X13: without explicit ranges, the bounds found by
    [HistoBBox2d.calc_boundaries] contain, along both axes, the stored box
    of every unmasked pixel, the one [calc_lut] reads. *)
Theorem calc_boundaries_2d_contains_unmasked (calc_upper_bound : Q -> Q) (idx : nat) :
  (idx < List.length cpos0)%nat ->
  masked check_mask cmask idx = false ->
  let b := HistoBBox2d.calc_boundaries calc_upper_bound pi allow_pos0_neg chiDiscAtPi
             check_mask cmask cpos0 dpos0 cpos1 dpos1 None None in
  HistoBBox2d.b_pos0_min b <= nth idx (HistoBBox2d.b_cpos0_inf b) 0 /\
  nth idx (HistoBBox2d.b_cpos0_sup b) 0 <= HistoBBox2d.b_pos0_maxin b /\
  HistoBBox2d.b_pos1_min b <= nth idx (HistoBBox2d.b_cpos1_inf b) 0 /\
  nth idx (HistoBBox2d.b_cpos1_sup b) 0 <= HistoBBox2d.b_pos1_maxin b.
Proof.
  intros Hidx Hmask b. unfold b, HistoBBox2d.calc_boundaries.
  destruct (calc_boundaries_2d_scan (List.length cpos0) (Nat.le_refl _))
    as (_ & Harr & Hbnd).
  cbv zeta in Harr, Hbnd. unfold body, start in Harr, Hbnd.
  destruct (Harr idx Hidx) as (A1 & A2 & A3 & A4).
  destruct (Hbnd idx Hidx Hmask) as (B1 & B2 & B3 & B4).
  cbn [HistoBBox2d.b_cpos0_sup HistoBBox2d.b_cpos0_inf HistoBBox2d.b_cpos1_sup
       HistoBBox2d.b_cpos1_inf HistoBBox2d.b_pos0_min HistoBBox2d.b_pos0_maxin
       HistoBBox2d.b_pos1_min HistoBBox2d.b_pos1_maxin].
  rewrite A1, A2, A3, A4. repeat split; try assumption.
  destruct (negb allow_pos0_neg && Qltb _ 0) eqn:E; [|exact B1].
  apply andb_true_iff in E. destruct E as [Ea _]. apply negb_true_iff in Ea.
  unfold low0. rewrite Ea. cbn [negb andb].
  destruct (Qltb (nth idx cpos0 0 - nth idx dpos0 0) 0) eqn:E; [lra|].
  apply Qltb_ge in E. exact E.
Qed.

End Scan2d.

Lemma calc_boundaries_2d_arrays_clamped_witness :
  let b := HistoBBox2d.calc_boundaries upper_bound_eps pi_float false true true
             [1; 0; 0]%Z [10; 1 # 4; 2] [1 # 2; 1 # 2; 1 # 2] [3; 0; 5] [1; 1; 1 # 10]
             None None in
  nth 0 (HistoBBox2d.b_cpos1_sup b) 0 <= (2 - 1) * pi_float /\
  (2 - 1) * pi_float < nth 2 (HistoBBox2d.b_cpos1_inf b) 0.
Proof.
  pose proof (calc_boundaries_2d_arrays_clamped false true true [1; 0; 0]%Z
                [10; 1 # 4; 2] [1 # 2; 1 # 2; 1 # 2] [3; 0; 5] [1; 1; 1 # 10] pi_float
                eq_refl upper_bound_eps None None 0%nat) as H0.
  pose proof (calc_boundaries_2d_arrays_clamped false true true [1; 0; 0]%Z
                [10; 1 # 4; 2] [1 # 2; 1 # 2; 1 # 2] [3; 0; 5] [1; 1; 1 # 10] pi_float
                eq_refl upper_bound_eps None None 2%nat) as H2.
  cbv zeta in H0, H2.
  destruct H0 as (_ & _ & _ & _ & _ & Hsup & _); [simpl; lia|].
  destruct H2 as (_ & _ & _ & _ & _ & _ & _ & Hinf & _); [simpl; lia|].
  split; [exact Hsup|]. apply Hinf. vm_compute. reflexivity.
Defined.

Lemma calc_boundaries_2d_contains_unmasked_witness :
  let b := HistoBBox2d.calc_boundaries upper_bound_eps pi_double false true true
             [1; 0; 0]%Z [10; 1 # 4; 2] [1 # 2; 1 # 2; 1 # 2] [3; 0; 0] [1; 1; 1]
             None None in
  HistoBBox2d.b_pos0_min b <= nth 1 (HistoBBox2d.b_cpos0_inf b) 0 /\
  nth 1 (HistoBBox2d.b_cpos0_sup b) 0 <= HistoBBox2d.b_pos0_maxin b /\
  HistoBBox2d.b_pos1_min b <= nth 1 (HistoBBox2d.b_cpos1_inf b) 0 /\
  nth 1 (HistoBBox2d.b_cpos1_sup b) 0 <= HistoBBox2d.b_pos1_maxin b.
Proof.
  apply (calc_boundaries_2d_contains_unmasked false true true [1; 0; 0]%Z
           [10; 1 # 4; 2] [1 # 2; 1 # 2; 1 # 2] [3; 0; 0] [1; 1; 1] pi_double
           eq_refl upper_bound_eps 1%nat).
  - simpl. lia.
  - reflexivity.
Defined.

(** ** Bin centers and the constructed objects *)

(** The centers asked of [numpy.linspace] by both constructors are the
    midpoints of the bins. *)
Lemma linspace_midpoints (lo hi : Q) (bins : Z) :
  (1 <= bins)%Z ->
  let delta := (hi - lo) / inject_Z bins in
  exists centers,
    linspace (lo + (1 # 2) * delta) (hi - (1 # 2) * delta) bins = Ok centers /\
    List.length centers = Z.to_nat bins /\
    forall i, (i < Z.to_nat bins)%nat ->
      nth i centers 0 == lo + (inject_Z (Z.of_nat i) + (1 # 2)) * delta.
Proof.
  intros Hb delta. unfold linspace.
  destruct (Z.ltb_spec bins 0); [lia|].
  eexists. split; [reflexivity|]. split; [rewrite length_map, length_seq; reflexivity|].
  intros i Hi.
  set (f := fun k => _ + inject_Z (Z.of_nat k) * _).
  rewrite (nth_indep _ 0 (f O)) by (rewrite length_map, length_seq; exact Hi).
  rewrite (map_nth f), seq_nth by exact Hi. cbn [Nat.add]. unfold f.
  destruct (Z.eq_dec bins 1) as [-> | Hne].
  - assert (i = 0)%nat as -> by (change (Z.to_nat 1) with 1%nat in Hi; lia).
    simpl. ring.
  - assert (Hb0 : ~ inject_Z bins == 0).
    { intro E. unfold Qeq in E. simpl in E. lia. }
    assert (Hb1 : ~ inject_Z bins - 1 == 0).
    { intro E. unfold Qeq in E. simpl in E. lia. }
    unfold Zminus. rewrite inject_Z_plus. change (inject_Z (- (1))) with (- (1)).
    unfold delta. field. split; [exact Hb0|]. lra.
Qed.

Lemma histobbox1d_attrs_fields (calc_upper_bound : Q -> Q) (a : HistoBBox1d.init_args)
    (s : HistoBBox1d.self_t) (bnd : HistoBBox1d.bounds_t) (d : option (list Q)) :
  snd (HistoBBox1d.init_attrs calc_upper_bound a) = Ok (s, bnd, d) ->
  HistoBBox1d.size s = List.length (HistoBBox1d.a_pos0 a) /\
  HistoBBox1d.bins s = HistoBBox1d.a_bins a /\
  HistoBBox1d.pos0_min s = HistoBBox1d.b_pos0_min bnd /\
  HistoBBox1d.delta s =
    (HistoBBox1d.b_pos0_max bnd - HistoBBox1d.b_pos0_min bnd)
    / inject_Z (HistoBBox1d.a_bins a) /\
  HistoBBox1d.cpos0 s = HistoBBox1d.a_pos0 a /\
  (forall m, HistoBBox1d.a_mask a = Some m ->
     List.length m = List.length (HistoBBox1d.a_pos0 a) /\
     HistoBBox1d.check_mask s = true /\ HistoBBox1d.cmask s = m) /\
  (HistoBBox1d.a_mask a = None -> HistoBBox1d.check_mask s = false) /\
  (HistoBBox1d.check_pos1 s =
     match HistoBBox1d.a_pos1_range a with Some _ => true | None => false end).
Proof.
  unfold HistoBBox1d.init_attrs.
  destruct (HistoBBox1d.check_delta_pos0 _ _) as [log dp]. cbn [snd].
  unfold init_mask, HistoBBox1d.init_pos1.
  destruct (HistoBBox1d.a_mask a) as [m|];
    [destruct (Nat.eqb_spec (List.length m) (List.length (HistoBBox1d.a_pos0 a)));
       [|discriminate]|];
    (destruct (HistoBBox1d.a_pos1_range a) as [[r1 r2]|];
     [ destruct (HistoBBox1d.a_pos1 a) as [p1|]; [|discriminate];
       destruct (negb _); [discriminate|];
       destruct (HistoBBox1d.a_delta_pos1 a) as [d1|]; [|discriminate];
       destruct (negb _); [discriminate|] | ]);
    (destruct (HistoBBox1d.a_bins a =? 0)%Z; [discriminate|]);
    intro H; injection H as <- <- <-; cbn;
    (split; [reflexivity|]); (split; [reflexivity|]); (split; [reflexivity|]);
    (split; [reflexivity|]); (split; [reflexivity|]);
    (split; [intros m' Hm'; try discriminate; injection Hm' as <-;
             repeat split; (assumption || reflexivity)|]);
    (split; [intro; try discriminate; reflexivity | reflexivity]).
Qed.

(** X14: when [HistoBBox1d.__init__] succeeds with at least one bin,
    [bin_centers] has [bins] entries, the midpoints of the bins: entry [i] is
    [pos0_min + (i + 0.5) * delta], where
    [delta = (pos0_max - pos0_min) / bins]. *)
Theorem histobbox1d_bin_centers (calc_upper_bound : Q -> Q)
    (a : HistoBBox1d.init_args) (obj : HistoBBox1d.t) :
  (1 <= HistoBBox1d.a_bins a)%Z ->
  snd (HistoBBox1d.init calc_upper_bound a) = Ok obj ->
  let s := HistoBBox1d.self obj in
  HistoBBox1d.delta s =
    (HistoBBox1d.pos0_max obj - HistoBBox1d.pos0_min s) / inject_Z (HistoBBox1d.bins s) /\
  List.length (HistoBBox1d.bin_centers obj) = Z.to_nat (HistoBBox1d.bins s) /\
  forall i, (i < Z.to_nat (HistoBBox1d.bins s))%nat ->
    nth i (HistoBBox1d.bin_centers obj) 0 ==
    HistoBBox1d.pos0_min s + (inject_Z (Z.of_nat i) + (1 # 2)) * HistoBBox1d.delta s.
Proof.
  intros Hb. unfold HistoBBox1d.init.
  destruct (HistoBBox1d.init_attrs calc_upper_bound a) as [log r] eqn:E.
  cbn [snd]. destruct r as [[[s bnd] d] | e]; [|discriminate].
  assert (E' : snd (HistoBBox1d.init_attrs calc_upper_bound a) = Ok (s, bnd, d))
    by (rewrite E; reflexivity).
  destruct (histobbox1d_attrs_fields _ _ _ _ _ E') as (_ & Hbins & Hmin & Hdelta & _).
  rewrite Hbins, Hmin, Hdelta.
  destruct (linspace_midpoints (HistoBBox1d.b_pos0_min bnd) (HistoBBox1d.b_pos0_max bnd)
              (HistoBBox1d.a_bins a) Hb) as (centers & Hl & Hlen & Hnth).
  cbv zeta in Hl. rewrite Hl. intro H. injection H as <-.
  cbn [HistoBBox1d.self HistoBBox1d.bin_centers HistoBBox1d.pos0_max].
  rewrite Hbins, Hmin, Hdelta. split; [reflexivity|]. split; [exact Hlen | exact Hnth].
Qed.

Lemma histobbox1d_bin_centers_witness :
  exists obj,
    snd (HistoBBox1d.init upper_bound_eps args_mismatch_1d) = Ok obj /\
    List.length (HistoBBox1d.bin_centers obj) = 4%nat /\
    nth 3 (HistoBBox1d.bin_centers obj) 0 ==
      HistoBBox1d.pos0_min (HistoBBox1d.self obj)
      + (inject_Z 3 + (1 # 2)) * HistoBBox1d.delta (HistoBBox1d.self obj).
Proof.
  destruct (snd (HistoBBox1d.init upper_bound_eps args_mismatch_1d))
    as [obj | e] eqn:E; [|vm_compute in E; discriminate].
  exists obj. split; [reflexivity|].
  destruct (histobbox1d_bin_centers upper_bound_eps args_mismatch_1d obj
              ltac:(simpl; lia) E) as (_ & Hlen & Hnth).
  assert (Hbins : HistoBBox1d.bins (HistoBBox1d.self obj) = 4%Z).
  { vm_compute in E. injection E as <-. reflexivity. }
  rewrite Hbins in Hlen, Hnth. split; [exact Hlen|].
  apply (Hnth 3%nat). simpl. lia.
Defined.

(** X15: an object built by [HistoBBox1d.__init__] comes from consistent
    arguments and records them: [size] is the number of coordinates, [bins]
    the count given (never negative); a mask given has that size and is
    checked; a secondary range given comes with [pos1] and [delta_pos1] of
    that size, kept as the intervals [pos1 -/+ delta_pos1]; the table is the
    one of [calc_lut] exactly when [delta_pos0] has that size, and the one of
    [calc_lut_nosplit] otherwise. *)
Theorem histobbox1d_constructed_object (calc_upper_bound : Q -> Q)
    (a : HistoBBox1d.init_args) (obj : HistoBBox1d.t) :
  snd (HistoBBox1d.init calc_upper_bound a) = Ok obj ->
  let s := HistoBBox1d.self obj in
  let n := List.length (HistoBBox1d.a_pos0 a) in
  HistoBBox1d.size s = n /\
  HistoBBox1d.bins s = HistoBBox1d.a_bins a /\
  (0 <= HistoBBox1d.bins s)%Z /\
  (forall m, HistoBBox1d.a_mask a = Some m ->
     List.length m = n /\ HistoBBox1d.check_mask s = true /\ HistoBBox1d.cmask s = m) /\
  (forall r, HistoBBox1d.a_pos1_range a = Some r ->
     exists p1 d1,
       HistoBBox1d.a_pos1 a = Some p1 /\ HistoBBox1d.a_delta_pos1 a = Some d1 /\
       List.length p1 = n /\ List.length d1 = n /\
       HistoBBox1d.cpos1_min s = map2 Qminus p1 d1 /\
       HistoBBox1d.cpos1_max s = map2 Qplus p1 d1 /\
       HistoBBox1d.pos1_min s = fst r /\
       HistoBBox1d.pos1_max s = calc_upper_bound (snd r)) /\
  HistoBBox1d.splitting obj =
    match HistoBBox1d.a_delta_pos0 a with
    | Some d => Nat.eqb (List.length d) n
    | None => false
    end /\
  HistoBBox1d.lut obj =
    (if HistoBBox1d.splitting obj then HistoBBox1d.calc_lut s
     else HistoBBox1d.calc_lut_nosplit s).
Proof.
  unfold HistoBBox1d.init, HistoBBox1d.init_attrs.
  assert (Hsplit : forall dp,
    snd (HistoBBox1d.check_delta_pos0 (List.length (HistoBBox1d.a_pos0 a))
           (HistoBBox1d.a_delta_pos0 a)) = dp ->
    match dp with Some _ => true | None => false end =
    match HistoBBox1d.a_delta_pos0 a with
    | Some d => Nat.eqb (List.length d) (List.length (HistoBBox1d.a_pos0 a))
    | None => false
    end).
  { intros dp <-. unfold HistoBBox1d.check_delta_pos0.
    destruct (HistoBBox1d.a_delta_pos0 a) as [d|]; [|reflexivity].
    destruct (Nat.eqb _ _); reflexivity. }
  destruct (HistoBBox1d.check_delta_pos0 _ _) as [log dp]. cbn [snd] in *.
  specialize (Hsplit dp eq_refl).
  unfold init_mask, HistoBBox1d.init_pos1, linspace.
  destruct (HistoBBox1d.a_mask a) as [m|];
    [destruct (Nat.eqb_spec (List.length m) (List.length (HistoBBox1d.a_pos0 a)));
       [|discriminate]|];
    (destruct (HistoBBox1d.a_pos1_range a) as [[r1 r2]|];
     [ destruct (HistoBBox1d.a_pos1 a) as [p1|]; [|discriminate];
       destruct (Nat.eqb_spec (List.length p1) (List.length (HistoBBox1d.a_pos0 a)));
         [|discriminate];
       destruct (HistoBBox1d.a_delta_pos1 a) as [d1|]; [|discriminate];
       destruct (Nat.eqb_spec (List.length d1) (List.length (HistoBBox1d.a_pos0 a)));
         [|discriminate] | ]);
    cbn [negb HistoBBox1d.bins];
    (destruct (HistoBBox1d.a_bins a =? 0)%Z; [discriminate|]);
    cbn [negb HistoBBox1d.bins];
    (destruct (Z.ltb_spec (HistoBBox1d.a_bins a) 0) as [Hneg | Hnn]; [discriminate|]);
    intro Hobj; injection Hobj as <-; cbn;
    (split; [reflexivity|]); (split; [reflexivity|]); (split; [assumption|]);
    (split; [intros m' Hm'; try discriminate; injection Hm' as <-;
             repeat split; (assumption || reflexivity)|]);
    (split; [intros r Hr; try discriminate; injection Hr as <-;
             eexists _, _; repeat split; (assumption || reflexivity)|]);
    (split; [exact Hsplit | reflexivity]).
Qed.

Lemma histobbox1d_constructed_object_witness :
  exists obj,
    snd (HistoBBox1d.init upper_bound_eps args_masked_first) = Ok obj /\
    HistoBBox1d.size (HistoBBox1d.self obj) = 3%nat /\
    HistoBBox1d.splitting obj = true /\
    HistoBBox1d.lut obj = HistoBBox1d.calc_lut (HistoBBox1d.self obj).
Proof.
  destruct (snd (HistoBBox1d.init upper_bound_eps args_masked_first))
    as [obj | e] eqn:E; [|vm_compute in E; discriminate].
  exists obj. split; [reflexivity|].
  destruct (histobbox1d_constructed_object upper_bound_eps args_masked_first obj E)
    as (Hs & _ & _ & _ & _ & Hsp & Hl).
  cbn in Hsp. rewrite Hsp in Hl. repeat split; assumption.
Defined.

Lemma init_bins_positive (bins : HistoBBox2d.bins_arg) (b0 b1 : Z) :
  HistoBBox2d.init_bins bins = (b0, b1) -> (1 <= b0)%Z /\ (1 <= b1)%Z.
Proof.
  unfold HistoBBox2d.init_bins. destruct bins as [x y | x]; intro H;
    injection H as <- <-; split;
    match goal with |- context [(?u <=? 0)%Z] => destruct (Z.leb_spec u 0) end; lia.
Qed.


(** X17: an object built by [HistoBBox2d.__init__] has at least one bin
    along each axis (the counts given, raised to 1), its table is the one of
    [calc_lut], its bin widths are [(pos_max - pos_min) / bins] and
    [bin_centers0], [bin_centers1] hold the midpoints of the bins,
    [pos_min + (i + 0.5) * delta]. *)
Theorem histobbox2d_constructed_object (calc_upper_bound : Q -> Q) (pi : Q)
    (a : HistoBBox2d.init_args) (obj : HistoBBox2d.t) :
  snd (HistoBBox2d.init calc_upper_bound pi a) = Ok obj ->
  let s := HistoBBox2d.self obj in
  (HistoBBox2d.bins0 s, HistoBBox2d.bins1 s) = HistoBBox2d.init_bins (HistoBBox2d.a_bins a) /\
  (1 <= HistoBBox2d.bins0 s)%Z /\ (1 <= HistoBBox2d.bins1 s)%Z /\
  HistoBBox2d.size s = List.length (HistoBBox2d.a_pos0 a) /\
  HistoBBox2d.lut obj = HistoBBox2d.calc_lut s /\
  HistoBBox2d.delta0 s =
    (HistoBBox2d.pos0_max obj - HistoBBox2d.pos0_min s) / inject_Z (HistoBBox2d.bins0 s) /\
  HistoBBox2d.delta1 s =
    (HistoBBox2d.pos1_max obj - HistoBBox2d.pos1_min s) / inject_Z (HistoBBox2d.bins1 s) /\
  List.length (HistoBBox2d.bin_centers0 obj) = Z.to_nat (HistoBBox2d.bins0 s) /\
  List.length (HistoBBox2d.bin_centers1 obj) = Z.to_nat (HistoBBox2d.bins1 s) /\
  (forall i, (i < Z.to_nat (HistoBBox2d.bins0 s))%nat ->
     nth i (HistoBBox2d.bin_centers0 obj) 0 ==
     HistoBBox2d.pos0_min s + (inject_Z (Z.of_nat i) + (1 # 2)) * HistoBBox2d.delta0 s) /\
  (forall i, (i < Z.to_nat (HistoBBox2d.bins1 s))%nat ->
     nth i (HistoBBox2d.bin_centers1 obj) 0 ==
     HistoBBox2d.pos1_min s + (inject_Z (Z.of_nat i) + (1 # 2)) * HistoBBox2d.delta1 s).
Proof.
  unfold HistoBBox2d.init. cbn [snd].
  destruct (HistoBBox2d.a_delta_pos0 a) as [d|]; [|discriminate].
  destruct (negb _); [discriminate|].
  destruct (negb _); [discriminate|].
  destruct (negb _); [discriminate|].
  destruct (HistoBBox2d.init_bins (HistoBBox2d.a_bins a)) as [b0 b1] eqn:Eb.
  destruct (init_bins_positive _ _ _ Eb) as [Hb0 Hb1].
  destruct (init_mask _ _) as [[cm m] | e]; [|discriminate].
  set (bnd := HistoBBox2d.calc_boundaries _ _ _ _ _ _ _ _ _ _ _ _).
  destruct (linspace_midpoints (HistoBBox2d.b_pos0_min bnd)
              (HistoBBox2d.b_pos0_max bnd) b0 Hb0) as (c0 & -> & Hl0 & Hn0).
  destruct (linspace_midpoints (HistoBBox2d.b_pos1_min bnd)
              (HistoBBox2d.b_pos1_max bnd) b1 Hb1) as (c1 & -> & Hl1 & Hn1).
  intro H. injection H as <-. cbn.
  repeat split; assumption.
Qed.

Lemma histobbox2d_constructed_object_witness :
  exists obj,
    snd (HistoBBox2d.init upper_bound_eps pi_double args_negative_lower_2d) = Ok obj /\
    (1 <= HistoBBox2d.bins0 (HistoBBox2d.self obj))%Z /\
    HistoBBox2d.lut obj = HistoBBox2d.calc_lut (HistoBBox2d.self obj) /\
    List.length (HistoBBox2d.bin_centers0 obj)
      = Z.to_nat (HistoBBox2d.bins0 (HistoBBox2d.self obj)).
Proof.
  destruct (snd (HistoBBox2d.init upper_bound_eps pi_double args_negative_lower_2d))
    as [obj | e] eqn:E; [|vm_compute in E; discriminate].
  exists obj. split; [reflexivity|].
  destruct (histobbox2d_constructed_object upper_bound_eps pi_double
              args_negative_lower_2d obj E) as (_ & H1 & _ & _ & H2 & _ & _ & H3 & _).
  repeat split; assumption.
Defined.

(** * Further properties of the reduction kernels *)

Lemma flt_nan_r (a : Reduction.float) : Reduction.flt a Reduction.NaN = false.
Proof. destruct a; reflexivity. Qed.

Lemma fle_numbers (a b : Reduction.float) :
  fle a b = true -> number a = true /\ number b = true.
Proof. destruct a, b; simpl; intro H; try discriminate H; split; reflexivity. Qed.

Lemma fle_refl (a : Reduction.float) : number a = true -> fle a a = true.
Proof.
  destruct a; intro H; try discriminate H; try reflexivity.
  simpl. apply negb_true_iff, Qltb_ge, Qle_refl.
Qed.

Lemma fle_trans (a b c : Reduction.float) :
  fle a b = true -> fle b c = true -> fle a c = true.
Proof.
  destruct a, b, c; simpl; intros H1 H2;
    try discriminate H1; try discriminate H2; try reflexivity.
  apply negb_true_iff in H1, H2. apply Qltb_ge in H1, H2.
  apply negb_true_iff, Qltb_ge. lra.
Qed.

Lemma fle_of_flt (a b : Reduction.float) : Reduction.flt a b = true -> fle a b = true.
Proof.
  destruct a, b; simpl; intro H; try discriminate H; try reflexivity.
  apply Qltb_lt in H. apply negb_true_iff, Qltb_ge. lra.
Qed.

Lemma fle_of_not_flt (a b : Reduction.float) :
  number a = true -> number b = true -> Reduction.flt a b = false -> fle b a = true.
Proof.
  destruct a, b; simpl; intros Ha Hb H;
    try discriminate Ha; try discriminate Hb; try discriminate H; try reflexivity.
  rewrite H. reflexivity.
Qed.

(** On numbers the ternary on [<] keeps the minimum, the one on [>] the
    maximum. *)
Lemma fmin_le (a e : Reduction.float) :
  number a = true -> number e = true ->
  let m := if Reduction.flt a e then a else e in
  fle m a = true /\ fle m e = true.
Proof.
  intros Ha He. cbv zeta. destruct (Reduction.flt a e) eqn:E.
  - split; [apply fle_refl, Ha | apply fle_of_flt, E].
  - split; [apply fle_of_not_flt; assumption | apply fle_refl, He].
Qed.

Lemma fmax_ge (a e : Reduction.float) :
  number a = true -> number e = true ->
  let m := if Reduction.fgt a e then a else e in
  fle a m = true /\ fle e m = true.
Proof.
  intros Ha He. cbv zeta. unfold Reduction.fgt. destruct (Reduction.flt e a) eqn:E.
  - split; [apply fle_refl, Ha | apply fle_of_flt, E].
  - split; [apply fle_of_not_flt; assumption | apply fle_refl, He].
Qed.

Lemma number_pair_merge2 (mine other : Reduction.float2) :
  number_pair mine -> number_pair other -> number_pair (merge2 mine other).
Proof.
  intros [A B] [C D]. unfold merge2, number_pair. cbn [fst snd].
  destruct (Reduction.flt _ _); destruct (Reduction.fgt _ _); split; assumption.
Qed.

Lemma number_pair_zero2 : number_pair Reduction.zero2.
Proof. split; reflexivity. Qed.

Lemma within_refl (p : Reduction.float2) : number_pair p -> within p p.
Proof. intros [A B]. split; apply fle_refl; assumption. Qed.

Lemma within_trans (p q r : Reduction.float2) : within p q -> within q r -> within p r.
Proof.
  intros [H1 H2] [H3 H4]. split.
  - apply fle_trans with (fst q); assumption.
  - apply fle_trans with (snd q); assumption.
Qed.

Lemma within_merge2 (mine other : Reduction.float2) :
  number_pair mine -> number_pair other ->
  within mine (merge2 mine other) /\ within other (merge2 mine other).
Proof.
  intros [A B] [C D]. unfold within, merge2. cbn [fst snd].
  destruct (fmin_le (fst mine) (fst other) A C) as [E F].
  destruct (fmax_ge (snd mine) (snd other) B D) as [G H].
  repeat split; assumption.
Qed.

Lemma no_nan_nth (buffer : list Reduction.float) (n : nat) :
  no_nan buffer -> number (nth n buffer (Reduction.Finite 0)) = true.
Proof.
  intro H. destruct (Nat.lt_ge_cases n (List.length buffer)) as [Hlt | Hge].
  - unfold no_nan in H. rewrite Forall_forall in H. apply H, nth_In, Hlt.
  - rewrite nth_overflow by exact Hge. reflexivity.
Qed.

Lemma number_pair_nth (l : list Reduction.float2) (n : nat) :
  Forall number_pair l -> number_pair (nth n l Reduction.zero2).
Proof.
  intro H. destruct (Nat.lt_ge_cases n (List.length l)) as [Hlt | Hge].
  - rewrite Forall_forall in H. apply H, nth_In, Hlt.
  - rewrite nth_overflow by exact Hge. apply number_pair_zero2.
Qed.

(** The strided scan of one thread on a buffer without NaN, by induction on
    the fuel. *)
Lemma accumulate_within (fuel : nat) (buffer : list Reduction.float)
    (length global_index global_size : Z) (accumulator : Reduction.float2) :
  no_nan buffer -> number_pair accumulator ->
  (0 <= global_index)%Z -> (1 <= global_size)%Z ->
  (Z.to_nat (length - global_index) <= fuel)%nat ->
  exists r,
    Reduction.accumulate fuel buffer length global_index global_size accumulator
      = Some r /\
    number_pair r /\
    within accumulator r /\
    forall j, (0 <= j)%Z -> (global_index + j * global_size < length)%Z ->
      let element :=
        nth (Z.to_nat (global_index + j * global_size)) buffer (Reduction.Finite 0) in
      within (element, element) r.
Proof.
  intro Hbuf. revert global_index accumulator.
  induction fuel as [|fuel IH]; intros gi acc Hnum Hgi Hgs Hfuel;
    cbn [Reduction.accumulate]; destruct (Z.ltb_spec gi length) as [Hlt | Hge];
    try lia.
  - exists acc. split; [reflexivity|]. split; [exact Hnum|].
    split; [apply within_refl, Hnum|]. intros j Hj Hin. nia.
  - set (element := nth (Z.to_nat gi) buffer (Reduction.Finite 0)).
    assert (He : number_pair (element, element))
      by (split; apply no_nan_nth, Hbuf).
    change (if Reduction.flt (fst acc) element then fst acc else element,
            if Reduction.fgt (snd acc) element then snd acc else element)
      with (merge2 acc (element, element)).
    destruct (IH (gi + global_size)%Z (merge2 acc (element, element))
                (number_pair_merge2 _ _ Hnum He) ltac:(lia) Hgs ltac:(lia))
      as (r & Hr & Hn & Hacc & Hel).
    destruct (within_merge2 acc (element, element) Hnum He) as [Wa We].
    exists r. split; [exact Hr|]. split; [exact Hn|].
    split; [apply within_trans with (1 := Wa), Hacc|].
    intros j Hj Hin.
    destruct (Z.eq_dec j 0) as [-> | Hne].
    + rewrite Z.mul_0_l, Z.add_0_r. apply within_trans with (1 := We), Hacc.
    + specialize (Hel (j - 1)%Z ltac:(lia)).
      replace (gi + global_size + (j - 1) * global_size)%Z
        with (gi + j * global_size)%Z in Hel by ring.
      apply Hel. exact Hin.
  - exists acc. split; [reflexivity|]. split; [exact Hnum|].
    split; [apply within_refl, Hnum|]. intros j Hj Hin. nia.
Qed.

(** X18: on a buffer of [length] floats without NaN, the scan of one thread
    of [reduce1] (lines 46-51), started from a pair without NaN, ends, given
    fuel for [length - global_index] iterations, and its accumulator bounds
    the accumulator it started from and every element of its stride: the
    first component is at most each [buffer[global_index + j * global_size]]
    below [length], the second at least. *)
Theorem accumulate_bounds_stride (fuel : nat) (buffer : list Reduction.float)
    (length global_index global_size : Z) (accumulator : Reduction.float2) :
  no_nan buffer -> number_pair accumulator ->
  (length <= Z.of_nat (List.length buffer))%Z ->
  (0 <= global_index)%Z -> (1 <= global_size)%Z ->
  (Z.to_nat (length - global_index) <= fuel)%nat ->
  exists r,
    Reduction.accumulate fuel buffer length global_index global_size accumulator
      = Some r /\
    within accumulator r /\
    forall j, (0 <= j)%Z -> (global_index + j * global_size < length)%Z ->
      let element :=
        nth (Z.to_nat (global_index + j * global_size)) buffer (Reduction.Finite 0) in
      within (element, element) r.
Proof.
  intros Hbuf Hnum _ Hgi Hgs Hfuel.
  destruct (accumulate_within fuel buffer length global_index global_size accumulator
              Hbuf Hnum Hgi Hgs Hfuel) as (r & Hr & _ & Hacc & Hel).
  exists r. split; [exact Hr|]. split; [exact Hacc | exact Hel].
Qed.

Lemma accumulate_bounds_stride_witness :
  exists r,
    Reduction.accumulate 8 (Reduction.ramp 8) 8 1 4
      (Reduction.Infinity, Reduction.NegInfinity) = Some r /\
    within (nth 5 (Reduction.ramp 8) (Reduction.Finite 0),
            nth 5 (Reduction.ramp 8) (Reduction.Finite 0)) r.
Proof.
  destruct (accumulate_bounds_stride 8 (Reduction.ramp 8) 8 1 4
              (Reduction.Infinity, Reduction.NegInfinity))
    as (r & Hr & _ & Hel).
  - unfold no_nan. simpl. repeat constructor.
  - split; reflexivity.
  - simpl. lia.
  - lia.
  - lia.
  - simpl. lia.
  - exists r. split; [exact Hr|]. apply (Hel 1%Z); simpl; lia.
Defined.

(** X22: a NaN read by the scan of [reduce1] (lines 47-49) erases what the
    thread has accumulated: both ternaries take the NaN, and the result of
    the scan no longer depends on the accumulator held before it.  On
    [0; 7; NaN; 5] a thread that scans the four elements returns [(5, 5)],
    which bounds neither 0 nor 7. *)
Theorem accumulate_forgets_before_nan (fuel : nat) (buffer : list Reduction.float)
    (length global_index global_size : Z) (accumulator accumulator' : Reduction.float2) :
  (global_index < length)%Z ->
  nth (Z.to_nat global_index) buffer (Reduction.Finite 0) = Reduction.NaN ->
  Reduction.accumulate fuel buffer length global_index global_size accumulator =
  Reduction.accumulate fuel buffer length global_index global_size accumulator'.
Proof.
  intros Hlt Hnan. destruct fuel as [|fuel]; cbn [Reduction.accumulate];
    destruct (Z.ltb_spec global_index length) as [_ | Hge]; try lia.
  - reflexivity.
  - rewrite Hnan. unfold Reduction.fgt. rewrite !flt_nan_r. reflexivity.
Qed.

Lemma accumulate_forgets_before_nan_witness :
  let buffer := [Reduction.Finite 0; Reduction.Finite 7; Reduction.NaN;
                 Reduction.Finite 5] in
  Reduction.accumulate 4 buffer 4 2 1 (Reduction.Finite 0, Reduction.Finite 7) =
  Reduction.accumulate 4 buffer 4 2 1 (Reduction.Infinity, Reduction.NegInfinity) /\
  Reduction.accumulate 4 buffer 4 0 1 (Reduction.Infinity, Reduction.NegInfinity) =
  Some (Reduction.Finite 5, Reduction.Finite 5).
Proof.
  split.
  - apply accumulate_forgets_before_nan; [lia | reflexivity].
  - vm_compute. reflexivity.
Defined.

Lemma merge_step_eq (active l : Z) (scratch : list Reduction.float2) :
  Reduction.merge_step active l scratch =
  if (l <? active)%Z
  then store (Z.to_nat l)
             (merge2 (nth (Z.to_nat l) scratch Reduction.zero2)
                     (nth (Z.to_nat (l + active)) scratch Reduction.zero2))
             scratch
  else scratch.
Proof. reflexivity. Qed.

(** One round, slot by slot: below [active_threads] (and the workgroup size)
    a slot is merged with the slot [active_threads] further, the others are
    unchanged. *)
Lemma round_prefix (active : Z) (scratch : list Reduction.float2) (n : nat) :
  (0 <= active)%Z -> (n <= List.length scratch)%nat ->
  let cur := fold_left (fun acc l => Reduction.merge_step active l acc)
               (map (fun k => (0 + Z.of_nat k)%Z) (seq 0 n)) scratch in
  List.length cur = List.length scratch /\
  forall i, nth i cur Reduction.zero2 =
    if Nat.ltb i (Z.to_nat active) && Nat.ltb i n
    then merge2 (nth i scratch Reduction.zero2)
                (nth (i + Z.to_nat active) scratch Reduction.zero2)
    else nth i scratch Reduction.zero2.
Proof.
  intros Ha. induction n as [|n IH]; intro Hn.
  - cbn. split; [reflexivity|]. intro i. rewrite andb_false_r. reflexivity.
  - rewrite seq_S, map_app, fold_left_app. cbn [map fold_left Nat.add].
    specialize (IH ltac:(lia)). cbv zeta in IH. destruct IH as [Hlen Hnth].
    set (cur := fold_left _ _ scratch) in *.
    rewrite merge_step_eq. rewrite Z.add_0_l, Nat2Z.id.
    destruct (Z.ltb_spec (Z.of_nat n) active) as [Hlt | Hge].
    + rewrite store_length. split; [exact Hlen|]. intro i.
      rewrite nth_store, Hlen.
      replace (Nat.ltb n (List.length scratch)) with true
        by (symmetry; apply Nat.ltb_lt; lia).
      rewrite andb_true_r.
      replace (Z.to_nat (Z.of_nat n + active)) with (n + Z.to_nat active)%nat by lia.
      rewrite !Hnth.
      replace (Nat.ltb n (Z.to_nat active) && Nat.ltb n n) with false
        by (rewrite Nat.ltb_irrefl, andb_false_r; reflexivity).
      replace (Nat.ltb (n + Z.to_nat active) (Z.to_nat active)) with false
        by (symmetry; apply Nat.ltb_ge; lia).
      cbn [andb].
      destruct (Nat.eqb_spec i n) as [-> | Hne].
      * replace (Nat.ltb n (Z.to_nat active)) with true
          by (symmetry; apply Nat.ltb_lt; lia).
        replace (Nat.ltb n (S n)) with true by (symmetry; apply Nat.ltb_lt; lia).
        reflexivity.
      * replace (Nat.ltb i (S n)) with (Nat.ltb i n); [reflexivity|].
        destruct (Nat.ltb_spec i n); destruct (Nat.ltb_spec i (S n)); (reflexivity || lia).
    + split; [exact Hlen|]. intro i. rewrite Hnth.
      destruct (Nat.ltb_spec i (Z.to_nat active)); [|reflexivity]. cbn [andb].
      replace (Nat.ltb i (S n)) with (Nat.ltb i n); [reflexivity|].
      destruct (Nat.ltb_spec i n); destruct (Nat.ltb_spec i (S n)); (reflexivity || lia).
Qed.

Lemma round_nth (local_size active : Z) (scratch : list Reduction.float2) :
  (0 <= active)%Z -> (Z.to_nat local_size <= List.length scratch)%nat ->
  List.length (Reduction.round local_size active scratch) = List.length scratch /\
  forall i, nth i (Reduction.round local_size active scratch) Reduction.zero2 =
    if Nat.ltb i (Z.to_nat active) && Nat.ltb i (Z.to_nat local_size)
    then merge2 (nth i scratch Reduction.zero2)
                (nth (i + Z.to_nat active) scratch Reduction.zero2)
    else nth i scratch Reduction.zero2.
Proof.
  intros Ha Hl. unfold Reduction.round, for_range, zrange.
  rewrite Z.sub_0_r. apply (round_prefix active scratch (Z.to_nat local_size) Ha Hl).
Qed.

Lemma pow2_to_nat (k : nat) : Z.to_nat (2 * 2 ^ Z.of_nat k) = (2 * 2 ^ k)%nat.
Proof.
  rewrite <- (Nat2Z.id (2 * 2 ^ k)). f_equal.
  rewrite Nat2Z.inj_mul, Nat2Z.inj_pow. reflexivity.
Qed.

(** The loop of both kernels on a workgroup size [2 * 2^k] and a scratch
    without NaN: it ends after [k] rounds, and every slot it started from is
    bounded by the slot of the same parity among the two that are left. *)
Lemma halving_covers (k : nat) (local_size : Z) :
  forall (fuel : nat) (scratch : list Reduction.float2),
  (k <= fuel)%nat -> (2 * 2 ^ Z.of_nat k <= local_size)%Z ->
  (Z.to_nat local_size <= List.length scratch)%nat ->
  (forall i, number_pair (nth i scratch Reduction.zero2)) ->
  exists r,
    Reduction.halving fuel local_size (2 * 2 ^ Z.of_nat k) scratch = Some r /\
    List.length r = List.length scratch /\
    (forall i, number_pair (nth i r Reduction.zero2)) /\
    forall i, (i < 2 * 2 ^ k)%nat ->
      within (nth i scratch Reduction.zero2) (nth (i mod 2) r Reduction.zero2).
Proof.
  induction k as [|k IH]; intros fuel scratch Hfuel Hls Hlen Hnum.
  - exists scratch. change (2 * 2 ^ Z.of_nat 0)%Z with 2%Z.
    split; [destruct fuel; reflexivity|]. split; [reflexivity|].
    split; [exact Hnum|].
    intros i Hi. change (2 * 2 ^ 0)%nat with 2%nat in Hi.
    rewrite Nat.mod_small by exact Hi. apply within_refl, Hnum.
  - assert (Hpow : (0 < 2 ^ Z.of_nat k)%Z) by (apply Z.pow_pos_nonneg; lia).
    assert (Hexp : (2 ^ Z.of_nat (S k) = 2 * 2 ^ Z.of_nat k)%Z).
    { rewrite Nat2Z.inj_succ, Z.pow_succ_r by lia. reflexivity. }
    rewrite Hexp in *.
    destruct fuel as [|fuel]; [lia|]. cbn [Reduction.halving].
    destruct (Z.eqb_spec (2 * (2 * 2 ^ Z.of_nat k)) 2) as [E | _]; [lia|].
    replace (Z.quot (2 * (2 * 2 ^ Z.of_nat k)) 2) with (2 * 2 ^ Z.of_nat k)%Z.
    2:{ rewrite (Z.mul_comm 2 (2 * 2 ^ Z.of_nat k)), Z.quot_mul by lia. reflexivity. }
    destruct (round_nth local_size (2 * 2 ^ Z.of_nat k) scratch ltac:(lia) Hlen)
      as [Hrl Hrn].
    assert (Hrnum : forall i,
              number_pair (nth i (Reduction.round local_size (2 * 2 ^ Z.of_nat k) scratch)
                               Reduction.zero2)).
    { intro i. rewrite Hrn. destruct (_ && _); [|apply Hnum].
      apply number_pair_merge2; apply Hnum. }
    destruct (IH fuel (Reduction.round local_size (2 * 2 ^ Z.of_nat k) scratch)
                ltac:(lia) ltac:(lia) ltac:(rewrite Hrl; exact Hlen) Hrnum)
      as (r & Hr & Hlr & Hn & Hcov).
    exists r. split; [exact Hr|]. split; [rewrite Hlr; exact Hrl|].
    split; [exact Hn|].
    intros i Hi. rewrite pow2_to_nat in Hrn.
    assert (Hls' : (2 * 2 ^ k <= Z.to_nat local_size)%nat).
    { rewrite <- pow2_to_nat. lia. }
    cbn [Nat.pow] in Hi. set (c := (2 ^ k)%nat) in *.
    destruct (Nat.lt_ge_cases i (2 * c)) as [Hlow | Hhigh].
    + specialize (Hcov i Hlow). specialize (Hrn i).
      replace (Nat.ltb i (2 * c)) with true in Hrn by (symmetry; apply Nat.ltb_lt; lia).
      replace (Nat.ltb i (Z.to_nat local_size)) with true in Hrn
        by (symmetry; apply Nat.ltb_lt; lia).
      cbn [andb] in Hrn. rewrite Hrn in Hcov.
      apply within_trans with (2 := Hcov).
      apply (proj1 (within_merge2 _ _ (Hnum _) (Hnum _))).
    + specialize (Hcov (i - 2 * c)%nat ltac:(lia)). specialize (Hrn (i - 2 * c)%nat).
      replace (Nat.ltb (i - 2 * c) (2 * c)) with true in Hrn
        by (symmetry; apply Nat.ltb_lt; lia).
      replace (Nat.ltb (i - 2 * c) (Z.to_nat local_size)) with true in Hrn
        by (symmetry; apply Nat.ltb_lt; lia).
      cbn [andb] in Hrn. rewrite Hrn in Hcov.
      replace (i - 2 * c + 2 * c)%nat with i in Hcov by lia.
      replace ((i - 2 * c) mod 2)%nat with (i mod 2)%nat in Hcov.
      * apply within_trans with (2 := Hcov).
        apply (proj2 (within_merge2 _ _ (Hnum _) (Hnum _))).
      * replace i with ((i - 2 * c) + c * 2)%nat at 1 by lia.
        rewrite Nat.Div0.mod_add. reflexivity.
Qed.

Lemma option_all_total {A B : Type} (f : A -> option B) (l : list A) :
  (forall x, In x l -> exists y, f x = Some y) ->
  exists s, Reduction.option_all (map f l) = Some s.
Proof.
  induction l as [|a l IH]; intro H.
  - exists []. reflexivity.
  - destruct (H a (in_eq a l)) as [y Hy].
    destruct (IH (fun x Hx => H x (in_cons a x l Hx))) as [s Hs].
    exists (y :: s). cbn [map Reduction.option_all]. rewrite Hy, Hs. reflexivity.
Qed.

Lemma even_mod2 (l : nat) : (l mod 2 = if Nat.even l then 0 else 1)%nat.
Proof.
  destruct (Nat.even l) eqn:E.
  - apply Nat.even_spec in E. destruct E as [m ->].
    rewrite Nat.mul_comm. apply Nat.Div0.mod_mul.
  - assert (O : Nat.odd l = true) by (unfold Nat.odd; rewrite E; reflexivity).
    apply Nat.odd_spec in O. destruct O as [m ->].
    rewrite Nat.add_comm, (Nat.mul_comm 2 m), Nat.Div0.mod_add. reflexivity.
Qed.

(** [reduce2] on a workgroup of [2 * 2^k] threads and partials without NaN. *)
Lemma reduce2_covers (k fuel : nat) (preresult : list Reduction.float2) :
  (k <= fuel)%nat ->
  (forall i, number_pair (nth i preresult Reduction.zero2)) ->
  exists s0 s1,
    Reduction.reduce2 fuel (2 * 2 ^ Z.of_nat k) preresult
      = Some (fst s0, snd s0, fst s1, snd s1) /\
    forall l, (l < 2 * 2 ^ k)%nat ->
      within (nth l preresult Reduction.zero2) (if Nat.even l then s0 else s1).
Proof.
  intros Hfuel Hnum. unfold Reduction.reduce2.
  set (load := fun local_index : Z => nth (Z.to_nat local_index) preresult Reduction.zero2).
  set (scratch := map load (zrange 0 (2 * 2 ^ Z.of_nat k))).
  assert (Hlen : List.length scratch = Z.to_nat (2 * 2 ^ Z.of_nat k)).
  { unfold scratch. rewrite length_map, zrange_length, Z.sub_0_r. reflexivity. }
  assert (Hnth : forall i, (i < 2 * 2 ^ k)%nat ->
            nth i scratch Reduction.zero2 = nth i preresult Reduction.zero2).
  { intros i Hi. unfold scratch.
    rewrite (nth_indep _ Reduction.zero2 (load 0%Z))
      by (rewrite length_map, zrange_length, Z.sub_0_r, pow2_to_nat; exact Hi).
    rewrite map_nth, nth_zrange by (rewrite Z.sub_0_r, pow2_to_nat; exact Hi).
    unfold load. rewrite Z.add_0_l, Nat2Z.id. reflexivity. }
  assert (Hsnum : forall i, number_pair (nth i scratch Reduction.zero2)).
  { intro i. destruct (Nat.lt_ge_cases i (2 * 2 ^ k)) as [Hi | Hi].
    - rewrite (Hnth i Hi). apply Hnum.
    - rewrite nth_overflow by (rewrite Hlen, pow2_to_nat; exact Hi).
      apply number_pair_zero2. }
  destruct (halving_covers k (2 * 2 ^ Z.of_nat k) fuel scratch Hfuel
              (Z.le_refl _) ltac:(rewrite Hlen; apply Nat.le_refl) Hsnum)
    as (r & Hr & _ & _ & Hcov).
  rewrite Hr. cbn [Reduction.option_bind].
  exists (nth 0 r Reduction.zero2), (nth 1 r Reduction.zero2).
  split; [reflexivity|]. intros l Hl.
  specialize (Hcov l Hl). rewrite (Hnth l Hl), even_mod2 in Hcov.
  destruct (Nat.even l); exact Hcov.
Qed.

(** One workgroup of [reduce1], of [2 * 2^k] threads, on a grid of
    [global_size] threads and a buffer without NaN. *)
Lemma reduce1_group_covers (k fuel : nat) (buffer : list Reduction.float)
    (length global_size group_id : Z) :
  no_nan buffer ->
  (0 <= group_id)%Z -> (1 <= global_size)%Z ->
  (k <= fuel)%nat -> (Z.to_nat length <= fuel)%nat ->
  exists r,
    Reduction.reduce1_group fuel (2 * 2 ^ Z.of_nat k) buffer length global_size group_id
      = Some r /\
    number_pair r /\
    forall local_index j, (0 <= local_index < 2 * 2 ^ Z.of_nat k)%Z ->
      Z.even local_index = true -> (0 <= j)%Z ->
      let global_index :=
        (group_id * (2 * 2 ^ Z.of_nat k) + local_index + j * global_size)%Z in
      (global_index < length)%Z ->
      let element := nth (Z.to_nat global_index) buffer (Reduction.Finite 0) in
      within (element, element) r.
Proof.
  intros Hbuf Hg HG Hk Hfuel.
  assert (Hpow : (0 < 2 ^ Z.of_nat k)%Z) by (apply Z.pow_pos_nonneg; lia).
  set (WG := (2 * 2 ^ Z.of_nat k)%Z) in *.
  unfold Reduction.reduce1_group.
  set (scan := fun local_index : Z =>
         Reduction.accumulate fuel buffer length (group_id * WG + local_index)%Z
           global_size (Reduction.Infinity, Reduction.NegInfinity)).
  assert (Hscan : forall x, (0 <= x < WG)%Z -> exists r,
            scan x = Some r /\ number_pair r /\
            forall j, (0 <= j)%Z -> (group_id * WG + x + j * global_size < length)%Z ->
              let element :=
                nth (Z.to_nat (group_id * WG + x + j * global_size)) buffer
                    (Reduction.Finite 0) in
              within (element, element) r).
  { intros x Hx.
    destruct (accumulate_within fuel buffer length (group_id * WG + x)%Z global_size
                (Reduction.Infinity, Reduction.NegInfinity) Hbuf)
      as (r & Hr & Hn & _ & Hel);
      [split; reflexivity | unfold WG in *; nia | exact HG | unfold WG in *; nia |].
    exists r. split; [exact Hr|]. split; [exact Hn | exact Hel]. }
  destruct (option_all_total scan (zrange 0 WG)) as [scratch Es].
  { intros x Hx. apply in_zrange in Hx. destruct (Hscan x Hx) as (r & Hr & _).
    exists r. exact Hr. }
  rewrite Es. cbn [Reduction.option_bind].
  pose proof (option_all_length _ _ _ Es) as Hlen.
  rewrite zrange_length, Z.sub_0_r in Hlen.
  assert (Hslot : forall l, (0 <= l < WG)%Z ->
            scan l = Some (nth (Z.to_nat l) scratch Reduction.zero2)).
  { intros l Hl.
    assert (Hin : (Z.to_nat l < List.length (zrange 0 WG))%nat)
      by (rewrite zrange_length; lia).
    pose proof (option_all_map_nth scan (zrange 0 WG) scratch (Z.to_nat l) 0%Z
                  Reduction.zero2 Es Hin) as Hacc.
    rewrite nth_zrange in Hacc by lia.
    rewrite Z.add_0_l, Z2Nat.id in Hacc by lia. exact Hacc. }
  assert (Hsnum : forall i, number_pair (nth i scratch Reduction.zero2)).
  { intro i. destruct (Nat.lt_ge_cases i (Z.to_nat WG)) as [Hi | Hi].
    - destruct (Hscan (Z.of_nat i) ltac:(lia)) as (r0 & Hr0 & Hn0 & _).
      rewrite (Hslot (Z.of_nat i) ltac:(lia)), Nat2Z.id in Hr0.
      injection Hr0 as ->. exact Hn0.
    - rewrite nth_overflow by (rewrite Hlen; exact Hi). apply number_pair_zero2. }
  destruct (halving_covers k WG fuel scratch Hk (Z.le_refl _)
              ltac:(rewrite Hlen; apply Nat.le_refl) Hsnum)
    as (r & Hr & _ & Hrn & Hcov).
  change (2 * 2 ^ Z.of_nat k)%Z with WG in Hr.
  rewrite Hr. cbn [Reduction.option_bind].
  exists (nth 0 r Reduction.zero2). split; [reflexivity|]. split; [apply Hrn|].
  intros l j Hl Hev Hj Hgi.
  assert (Hl' : (Z.to_nat l < 2 * 2 ^ k)%nat).
  { rewrite <- pow2_to_nat. fold WG. lia. }
  specialize (Hcov (Z.to_nat l) Hl'). rewrite even_mod2 in Hcov.
  replace (Nat.even (Z.to_nat l)) with true in Hcov.
  2:{ symmetry. apply Nat.even_spec. apply Z.even_spec in Hev.
      destruct Hev as [m Hm]. exists (Z.to_nat m). lia. }
  apply within_trans with (2 := Hcov).
  destruct (Hscan l Hl) as (r0 & Hr0 & _ & Hel).
  rewrite (Hslot l Hl) in Hr0. injection Hr0 as <-.
  apply (Hel j Hj Hgi).
Qed.

(** [reduce1] launched on [groups] workgroups of [2 * 2^k] threads. *)
Lemma reduce1_covers (k fuel : nat) (buffer : list Reduction.float) (length groups : Z) :
  no_nan buffer ->
  (1 <= groups)%Z -> (k <= fuel)%nat -> (Z.to_nat length <= fuel)%nat ->
  exists preresult,
    Reduction.reduce1 fuel (2 * 2 ^ Z.of_nat k) groups buffer length = Some preresult /\
    List.length preresult = Z.to_nat groups /\
    (forall i, number_pair (nth i preresult Reduction.zero2)) /\
    forall group_id local_index j,
      (0 <= group_id < groups)%Z -> (0 <= local_index < 2 * 2 ^ Z.of_nat k)%Z ->
      Z.even local_index = true -> (0 <= j)%Z ->
      let global_index :=
        (group_id * (2 * 2 ^ Z.of_nat k) + local_index
         + j * (groups * (2 * 2 ^ Z.of_nat k)))%Z in
      (global_index < length)%Z ->
      let element := nth (Z.to_nat global_index) buffer (Reduction.Finite 0) in
      within (element, element) (nth (Z.to_nat group_id) preresult Reduction.zero2).
Proof.
  intros Hbuf Hgroups Hk Hfuel.
  assert (Hpow : (0 < 2 ^ Z.of_nat k)%Z) by (apply Z.pow_pos_nonneg; lia).
  unfold Reduction.reduce1.
  set (group := Reduction.reduce1_group fuel (2 * 2 ^ Z.of_nat k) buffer length
                  (groups * (2 * 2 ^ Z.of_nat k))%Z).
  assert (HG : (1 <= groups * (2 * 2 ^ Z.of_nat k))%Z) by nia.
  destruct (option_all_total group (zrange 0 groups)) as [preresult Epre].
  { intros g Hin. apply in_zrange in Hin.
    destruct (reduce1_group_covers k fuel buffer length _ g Hbuf ltac:(lia) HG Hk Hfuel)
      as (r & Hr & _).
    exists r. exact Hr. }
  exists preresult. split; [exact Epre|].
  pose proof (option_all_length _ _ _ Epre) as Hlen.
  rewrite zrange_length, Z.sub_0_r in Hlen. split; [exact Hlen|].
  assert (Hslot : forall g, (0 <= g < groups)%Z ->
            group g = Some (nth (Z.to_nat g) preresult Reduction.zero2)).
  { intros g Hg.
    assert (Hin : (Z.to_nat g < List.length (zrange 0 groups))%nat)
      by (rewrite zrange_length; lia).
    pose proof (option_all_map_nth group (zrange 0 groups) preresult (Z.to_nat g) 0%Z
                  Reduction.zero2 Epre Hin) as Hnth.
    rewrite nth_zrange in Hnth by lia.
    rewrite Z.add_0_l, Z2Nat.id in Hnth by lia. exact Hnth. }
  split.
  - intro i. destruct (Nat.lt_ge_cases i (Z.to_nat groups)) as [Hi | Hi].
    + destruct (reduce1_group_covers k fuel buffer length
                  (groups * (2 * 2 ^ Z.of_nat k))%Z (Z.of_nat i) Hbuf ltac:(lia) HG Hk Hfuel)
        as (r & Hr & Hn & _).
      fold group in Hr. rewrite (Hslot (Z.of_nat i) ltac:(lia)), Nat2Z.id in Hr.
      injection Hr as ->. exact Hn.
    + rewrite nth_overflow by (rewrite Hlen; exact Hi). apply number_pair_zero2.
  - intros g l j Hg Hl Hev Hj Hgi.
    destruct (reduce1_group_covers k fuel buffer length
                (groups * (2 * 2 ^ Z.of_nat k))%Z g Hbuf ltac:(lia) HG Hk Hfuel)
      as (r & Hr & _ & Hel).
    fold group in Hr. rewrite (Hslot g Hg) in Hr. injection Hr as <-.
    apply (Hel l j Hl Hev Hj Hgi).
Qed.

(** X19: [reduce2] (lines 87-125) on a workgroup of [2 * 2^k] threads and
    that many partials without NaN ends after [k] rounds of its loop, and
    the [float4] it writes bounds every partial it loaded: the first pair
    those of the even slots of [preresult], the second pair those of the odd
    slots. *)
Theorem reduce2_bounds_partials (k fuel : nat) (preresult : list Reduction.float2) :
  (k <= fuel)%nat -> (2 * 2 ^ k <= List.length preresult)%nat ->
  Forall number_pair preresult ->
  exists a b c d,
    Reduction.reduce2 fuel (2 * 2 ^ Z.of_nat k) preresult = Some (a, b, c, d) /\
    forall l, (l < 2 * 2 ^ k)%nat ->
      within (nth l preresult Reduction.zero2) (if Nat.even l then (a, b) else (c, d)).
Proof.
  intros Hk _ Hnum.
  destruct (reduce2_covers k fuel preresult Hk (fun i => number_pair_nth _ i Hnum))
    as ([a b] & [c d] & Hr & Hcov).
  exists a, b, c, d. split; [exact Hr | exact Hcov].
Qed.

Lemma reduce2_bounds_partials_witness :
  exists a b c d,
    Reduction.reduce2 1 (2 * 2 ^ Z.of_nat 1)
      [(Reduction.Finite 3, Reduction.Finite 5); (Reduction.Finite 1, Reduction.Finite 2);
       (Reduction.Finite 0, Reduction.Finite 9); (Reduction.Finite 4, Reduction.Finite 4)]
      = Some (a, b, c, d) /\
    within (Reduction.Finite 0, Reduction.Finite 9) (a, b).
Proof.
  destruct (reduce2_bounds_partials 1 1
              [(Reduction.Finite 3, Reduction.Finite 5); (Reduction.Finite 1, Reduction.Finite 2);
               (Reduction.Finite 0, Reduction.Finite 9); (Reduction.Finite 4, Reduction.Finite 4)])
    as (a & b & c & d & Hr & Hcov).
  - lia.
  - simpl. lia.
  - repeat constructor.
  - exists a, b, c, d. split; [exact Hr|].
    apply (Hcov 2%nat). simpl. lia.
Defined.

(** X20: on a buffer of [length] floats without NaN, [reduce1]
    (lines 34-85) launched on [groups] workgroups of [2 * 2^k] threads ends,
    given fuel for the scan and for [k] rounds, and writes one partial per
    workgroup; the partial of a workgroup bounds every element scanned by
    the threads of even local index of that workgroup. *)
Theorem reduce1_partials_bound_even_threads (k fuel : nat)
    (buffer : list Reduction.float) (length groups : Z) :
  no_nan buffer -> (length <= Z.of_nat (List.length buffer))%Z ->
  (1 <= groups)%Z -> (k <= fuel)%nat -> (Z.to_nat length <= fuel)%nat ->
  exists preresult,
    Reduction.reduce1 fuel (2 * 2 ^ Z.of_nat k) groups buffer length = Some preresult /\
    List.length preresult = Z.to_nat groups /\
    forall group_id local_index j,
      (0 <= group_id < groups)%Z -> (0 <= local_index < 2 * 2 ^ Z.of_nat k)%Z ->
      Z.even local_index = true -> (0 <= j)%Z ->
      let global_index :=
        (group_id * (2 * 2 ^ Z.of_nat k) + local_index
         + j * (groups * (2 * 2 ^ Z.of_nat k)))%Z in
      (global_index < length)%Z ->
      let element := nth (Z.to_nat global_index) buffer (Reduction.Finite 0) in
      within (element, element) (nth (Z.to_nat group_id) preresult Reduction.zero2).
Proof.
  intros Hbuf _ Hgroups Hk Hfuel.
  destruct (reduce1_covers k fuel buffer length groups Hbuf Hgroups Hk Hfuel)
    as (preresult & Hr & Hlen & _ & Hcov).
  exists preresult. split; [exact Hr|]. split; [exact Hlen | exact Hcov].
Qed.

Lemma reduce1_partials_bound_even_threads_witness :
  exists preresult,
    Reduction.reduce1 16 (2 * 2 ^ Z.of_nat 1) 2 (Reduction.ramp 16) 16 = Some preresult /\
    List.length preresult = 2%nat /\
    within (Reduction.Finite 14, Reduction.Finite 14) (nth 1 preresult Reduction.zero2).
Proof.
  destruct (reduce1_partials_bound_even_threads 1 16 (Reduction.ramp 16) 16 2)
    as (preresult & Hr & Hlen & Hcov).
  - unfold no_nan. simpl. repeat constructor.
  - simpl. lia.
  - lia.
  - lia.
  - simpl. lia.
  - exists preresult. split; [exact Hr|]. split; [exact Hlen|].
    apply (Hcov 1%Z 2%Z 1%Z); simpl; try lia; reflexivity.
Defined.

(** X21: on a buffer without NaN, the two kernels in sequence on [2 * 2^k]
    workgroups of [2 * 2^k] threads end, given fuel for the scan and for
    [k] rounds, and the four floats of [result] bound every element of even
    index: one of the two pairs has its first component at most the element
    and its second at least. *)
Theorem two_stage_bounds_even_indices (k fuel : nat) (buffer : list Reduction.float) :
  no_nan buffer ->
  (k <= fuel)%nat -> (List.length buffer <= fuel)%nat ->
  exists a b c d,
    Reduction.two_stage fuel (2 * 2 ^ Z.of_nat k) buffer = Some (a, b, c, d) /\
    forall i, (i < List.length buffer)%nat -> Nat.even i = true ->
      let element := nth i buffer (Reduction.Finite 0) in
      within (element, element) (a, b) \/ within (element, element) (c, d).
Proof.
  intros Hbuf Hk Hfuel.
  assert (Hpow : (0 < 2 ^ Z.of_nat k)%Z) by (apply Z.pow_pos_nonneg; lia).
  unfold Reduction.two_stage.
  destruct (reduce1_covers k fuel buffer (Z.of_nat (List.length buffer))
              (2 * 2 ^ Z.of_nat k) Hbuf ltac:(lia) Hk ltac:(lia))
    as (preresult & Hpre & Hlen & Hpnum & Hcov1).
  rewrite Hpre. cbn [Reduction.option_bind].
  destruct (reduce2_covers k fuel preresult Hk Hpnum) as ([a b] & [c d] & Hr & Hcov2).
  exists a, b, c, d. split; [exact Hr|].
  intros i Hi Hev.
  set (c2 := (2 ^ Z.of_nat k)%Z) in *.
  set (WG := (2 * c2)%Z) in *.
  set (iz := Z.of_nat i).
  set (j := (iz / (WG * WG))%Z).
  set (t := (iz mod (WG * WG))%Z).
  set (g := (t / WG)%Z).
  set (l := (t mod WG)%Z).
  assert (HWG : (0 < WG)%Z) by (unfold WG; lia).
  assert (HGG : (0 < WG * WG)%Z) by nia.
  assert (Ht : (0 <= t < WG * WG)%Z) by (apply Z.mod_pos_bound; exact HGG).
  assert (Hiz : (iz = WG * WG * j + t)%Z) by (apply Z.div_mod; lia).
  assert (Htl : (t = WG * g + l)%Z) by (apply Z.div_mod; lia).
  assert (Hl : (0 <= l < WG)%Z) by (apply Z.mod_pos_bound; exact HWG).
  assert (Hg : (0 <= g < WG)%Z).
  { split; [apply Z.div_pos; lia | apply Z.div_lt_upper_bound; lia]. }
  assert (Hj : (0 <= j)%Z) by (apply Z.div_pos; unfold iz; lia).
  assert (Hidx : (g * WG + l + j * (WG * WG) = iz)%Z) by lia.
  assert (Hle : Z.even l = true).
  { apply Nat.even_spec in Hev. destruct Hev as [m Hm].
    apply Z.even_spec. exists (Z.of_nat m - c2 * WG * j - c2 * g)%Z.
    replace l with (iz - WG * WG * j - WG * g)%Z by lia.
    unfold iz, WG. rewrite Hm, Nat2Z.inj_mul. change (Z.of_nat 2) with 2%Z. ring. }
  specialize (Hcov1 g l j Hg Hl Hle Hj). cbv zeta in Hcov1.
  rewrite Hidx in Hcov1. unfold iz in Hcov1. rewrite Nat2Z.id in Hcov1.
  specialize (Hcov1 ltac:(lia)).
  assert (Hgn : (Z.to_nat g < 2 * 2 ^ k)%nat).
  { rewrite <- pow2_to_nat. fold c2. fold WG. lia. }
  specialize (Hcov2 (Z.to_nat g) Hgn).
  destruct (Nat.even (Z.to_nat g)); [left | right];
    exact (within_trans _ _ _ Hcov1 Hcov2).
Qed.

Lemma two_stage_bounds_even_indices_witness :
  exists a b c d,
    Reduction.two_stage 16 (2 * 2 ^ Z.of_nat 1) (Reduction.ramp 16) = Some (a, b, c, d) /\
    (within (Reduction.Finite 14, Reduction.Finite 14) (a, b) \/
     within (Reduction.Finite 14, Reduction.Finite 14) (c, d)).
Proof.
  destruct (two_stage_bounds_even_indices 1 16 (Reduction.ramp 16))
    as (a & b & c & d & Hr & Hcov).
  - unfold no_nan. simpl. repeat constructor.
  - lia.
  - simpl. lia.
  - exists a, b, c, d. split; [exact Hr|].
    apply (Hcov 14%nat); [simpl; lia | reflexivity].
Defined.

(** * Pixels inside of the range *)

(** X23: in [HistoBBox1d.calc_lut], with a positive bin width, an unmasked
    pixel that passes the secondary filter and whose fractional bin range
    [fbin0_min, fbin0_max] lies inside [0, bins) is not clipped: its bins
    are the floors of the fractional bins, and it gets the weight 1 in its
    bin when both ends fall in one bin, and otherwise the left fraction
    [inv_area * ((bin0_min + 1) - fbin0_min)], the right fraction
    [inv_area * (fbin0_max - bin0_max)] and [inv_area] in each bin strictly
    between, inserted in this order; the weights sum to 1. *)
Theorem calc_lut_1d_in_range_pixel (self : HistoBBox1d.self_t) (idx : nat) :
  (idx < HistoBBox1d.size self)%nat ->
  masked (HistoBBox1d.check_mask self) (HistoBBox1d.cmask self) idx = false ->
  HistoBBox1d.pos1_rejected self idx = false ->
  0 < HistoBBox1d.delta self ->
  let fbin0_min := get_bin_number (nth idx (HistoBBox1d.cpos0_inf self) 0)
                     (HistoBBox1d.pos0_min self) (HistoBBox1d.delta self) in
  let fbin0_max := get_bin_number (nth idx (HistoBBox1d.cpos0_sup self) 0)
                     (HistoBBox1d.pos0_min self) (HistoBBox1d.delta self) in
  let bin0_min := Qtrunc fbin0_min in
  let bin0_max := Qtrunc fbin0_max in
  let inv_area := 1 / (fbin0_max - fbin0_min) in
  let emitted := entries_of idx (HistoBBox1d.calc_lut self) in
  0 <= fbin0_min -> fbin0_min <= fbin0_max ->
  fbin0_max < inject_Z (HistoBBox1d.bins self) ->
  bin0_min = Qfloor fbin0_min /\ bin0_max = Qfloor fbin0_max /\
  emitted =
    (if (bin0_min =? bin0_max)%Z then [mk_entry bin0_min idx 1]
     else [mk_entry bin0_min idx (inv_area * (inject_Z (bin0_min + 1) - fbin0_min));
           mk_entry bin0_max idx (inv_area * (fbin0_max - inject_Z bin0_max))]
          ++ map (fun i => mk_entry i idx inv_area) (zrange (bin0_min + 1) bin0_max)) /\
  weight_sum emitted == 1.
Proof.
  intros Hidx Hmask Hpos1 _ fmin fmax bm bM inv emitted H0 Hle Hbins.
  assert (Hem : emitted = HistoBBox1d.lut_bins (HistoBBox1d.bins self) [] idx fmin fmax).
  { unfold emitted. rewrite calc_lut_1d_pixel by exact Hidx.
    unfold HistoBBox1d.calc_lut_body. rewrite Hmask, Hpos1. reflexivity. }
  assert (Hfm : bm = Qfloor fmin) by (apply Qtrunc_nonneg; exact H0).
  assert (HfM : bM = Qfloor fmax) by (apply Qtrunc_nonneg; lra).
  assert (Hm0 : (0 <= bm)%Z) by (apply Qtrunc_sign_pos; exact H0).
  assert (HmM : (bm <= bM)%Z) by (apply Qtrunc_mono; exact Hle).
  assert (HMb : (bM < HistoBBox1d.bins self)%Z).
  { rewrite Zlt_Qlt. apply Qle_lt_trans with fmax; [|exact Hbins].
    apply Qtrunc_le_self. lra. }
  assert (Hlist : emitted =
    (if (bm =? bM)%Z then [mk_entry bm idx 1]
     else [mk_entry bm idx (inv * (inject_Z (bm + 1) - fmin));
           mk_entry bM idx (inv * (fmax - inject_Z bM))]
          ++ map (fun i => mk_entry i idx inv) (zrange (bm + 1) bM))).
  { rewrite Hem. unfold HistoBBox1d.lut_bins. fold bm bM.
    replace (bM <? 0)%Z with false by lia.
    replace (bm >=? HistoBBox1d.bins self)%Z with false by lia.
    replace (bM >=? HistoBBox1d.bins self)%Z with false by lia.
    replace (bm <? 0)%Z with false by lia.
    cbn [orb]. destruct (bm =? bM)%Z.
    - reflexivity.
    - rewrite split_insert_app. reflexivity. }
  repeat split; try assumption.
  rewrite Hlist. destruct (Z.eqb_spec bm bM) as [Heq | Hne].
  - simpl. ring.
  - assert (Hspan : ~ fmax - fmin == 0).
    { pose proof (Qtrunc_upper fmin) as Hu. fold bm in Hu.
      assert (inject_Z bM <= fmax) by (apply Qtrunc_le_self; lra).
      assert (inject_Z (bm + 1) <= inject_Z bM) by (apply inject_Z_le; lia).
      rewrite inject_Z_plus in *. change (inject_Z 1) with 1 in *. lra. }
    unfold inv. rewrite split_weights by (try lia; exact Hspan).
    field. exact Hspan.
Qed.

Lemma calc_lut_1d_in_range_pixel_witness :
  entries_of 0 (HistoBBox1d.calc_lut ex_split_1d) =
    [mk_entry 0 0 (1 / ((5 # 2) / 1 - (1 # 2) / 1) * (inject_Z (0 + 1) - (1 # 2) / 1));
     mk_entry 2 0 (1 / ((5 # 2) / 1 - (1 # 2) / 1) * ((5 # 2) / 1 - inject_Z 2));
     mk_entry 1 0 (1 / ((5 # 2) / 1 - (1 # 2) / 1))]
  /\ weight_sum (entries_of 0 (HistoBBox1d.calc_lut ex_split_1d)) == 1.
Proof.
  destruct (calc_lut_1d_in_range_pixel ex_split_1d 0%nat) as (_ & _ & Hlist & Hsum).
  - simpl. lia.
  - reflexivity.
  - reflexivity.
  - reflexivity.
  - vm_compute. discriminate.
  - vm_compute. discriminate.
  - vm_compute. reflexivity.
  - split; [|exact Hsum]. rewrite Hlist. vm_compute. reflexivity.
Defined.
